(** * prospect-bot: the aggregation and dispatch pipeline of [bot.py]

    A shallow embedding of the parts of [src/bot.py] that fetch job
    postings, filter them by keyword, draft a candidature per posting and
    deliver the result, together with the properties the specification
    states about them.

    Conventions.
    - A Python [str] is a list of Unicode code points ([pystr]); literals are
      written as UTF-8 text and decoded by [u].
    - A value decoded from JSON is a [json]; the Python operations the code
      applies to such values ([.get], [or], [.lower()], [" ".join], [str()],
      iteration, subscripting) are modelled with the exceptions they raise.
    - Effects (HTTP calls, Telegram sends, mutation of [context.bot_data])
      run in a state-and-exception monad [M] over a [World]; the outside
      world answers through an [Env] of oracles indexed by a logical clock. *)

From Stdlib Require Import String Ascii ZArith NArith List Bool Lia DecimalString.
From stdpp Require Import base decidable option list countable gmap.
Import ListNotations.

Set Default Proof Using "Type".
Set Warnings "-register-all,-clear-no-such-hyp".
Local Open Scope N_scope.
Local Open Scope list_scope.

(** ** Python strings *)

Module PyStr.

(** A character is a code point, a string a list of them. *)
Abbreviation char := N (only parsing).
Abbreviation pystr := (list N) (only parsing).

Definition bytes_of (s : string) : list N :=
  map N_of_ascii (list_ascii_of_string s).

(** UTF-8 decoding of a well-formed byte sequence (the source file is
    UTF-8; Python decodes its literals the same way). *)
Fixpoint utf8_decode (bs : list N) : pystr :=
  match bs with
  | [] => []
  | b0 :: r0 =>
    if b0 <? 128 then b0 :: utf8_decode r0
    else match r0 with
    | [] => []
    | b1 :: r1 =>
      if b0 <? 224 then ((b0 - 192) * 64 + (b1 - 128)) :: utf8_decode r1
      else match r1 with
      | [] => []
      | b2 :: r2 =>
        if b0 <? 240
        then ((b0 - 224) * 4096 + (b1 - 128) * 64 + (b2 - 128)) :: utf8_decode r2
        else match r2 with
        | [] => []
        | b3 :: r3 =>
          ((b0 - 240) * 262144 + (b1 - 128) * 4096 + (b2 - 128) * 64 + (b3 - 128))
            :: utf8_decode r3
        end
      end
    end
  end.

(** A Python string literal. *)
Definition u (s : string) : pystr := utf8_decode (bytes_of s).

(** [int.__str__]: decimal digits, with a minus sign when negative. *)
Definition str_of_Z (z : Z) : pystr :=
  bytes_of (NilZero.string_of_int (Z.to_int z)).

Definition str_of_nat (n : nat) : pystr := str_of_Z (Z.of_nat n).

(** [sep.join(parts)]. *)
Fixpoint join (sep : pystr) (parts : list pystr) : pystr :=
  match parts with
  | [] => []
  | [p] => p
  | p :: rest => p ++ sep ++ join sep rest
  end.

(** [s.startswith(p)]. *)
Fixpoint startswith (p s : pystr) : bool :=
  match p, s with
  | [], _ => true
  | _ :: _, [] => false
  | x :: p', y :: s' => (x =? y) && startswith p' s'
  end.

(** [needle in hay] on two strings: substring test; the empty string occurs
    in every string. *)
Fixpoint contains (needle hay : pystr) : bool :=
  startswith needle hay ||
  match hay with
  | [] => false
  | _ :: t => contains needle t
  end.

(** [str.isspace] on one character, which is also what [\s] matches in a
    [str] pattern and what [str.strip()] removes. *)
Definition is_space (c : char) : bool :=
  ((9 <=? c) && (c <=? 13)) || ((28 <=? c) && (c <=? 32)) ||
  (c =? 133) || (c =? 160) || (c =? 5760) ||
  ((8192 <=? c) && (c <=? 8202)) || (c =? 8232) || (c =? 8233) ||
  (c =? 8239) || (c =? 8287) || (c =? 12288).

Definition SPACE : char := 32.
Definition LT : char := 60.
Definition GT : char := 62.
Definition AMP : char := 38.

Definition is_ascii_char (c : char) : bool := c <? 128.
Definition is_ascii (s : pystr) : bool := forallb is_ascii_char s.

Definition ascii_lower (c : char) : char :=
  if (65 <=? c) && (c <=? 90) then c + 32 else c.

End PyStr.
Export PyStr.

(** ** Values decoded from JSON *)

(** What [resp.json()] can return.  A float is observed by the program
    only through its truth value and its [str()], so it carries exactly
    these two. *)
Inductive json : Type :=
| JNull
| JBool (b : bool)
| JInt (z : Z)
| JFloat (nonzero : bool) (repr : pystr)
| JStr (s : pystr)
| JArr (items : list json)
| JObj (fields : list (pystr * json)).

(** The exceptions the modelled code can raise; every handler in the
    source is [except Exception], which catches all of them. *)
Inductive exn : Type :=
| TransportError
| HTTPStatusError
| JSONDecodeError
| TypeError
| AttributeError
| KeyError
| IndexError
| UnboundLocalError
| TelegramError.

Inductive result (A : Type) : Type :=
| Ok (a : A)
| Raise (e : exn).
Arguments Ok {A} a.
Arguments Raise {A} e.

Definition rbind {A B} (r : result A) (k : A -> result B) : result B :=
  match r with
  | Ok a => k a
  | Raise e => Raise e
  end.

Fixpoint rmapM {A B} (f : A -> result B) (l : list A) : result (list B) :=
  match l with
  | [] => Ok []
  | x :: t =>
    match f x with
    | Raise e => Raise e
    | Ok y => match rmapM f t with
              | Raise e => Raise e
              | Ok ys => Ok (y :: ys)
              end
    end
  end.

(** The parts of the Python runtime that are tables of the Unicode and
    HTML standards rather than code of this repository. *)
Class PyRuntime : Type := {
  (** the lower-case expansion [str.lower()] gives to the non-ASCII
      character at index [i] of [s] (it depends on the context for the
      final sigma) *)
  lower_nonascii : pystr -> nat -> pystr;
  (** [html.unescape] on a string that contains an ampersand: the
      replacement of its character references *)
  charref_sub : pystr -> pystr;
  (** [repr] of a [str] *)
  repr_str : pystr -> pystr;
  (** the references [&lt;] and [&gt;] of HTML stand for the two angle
      brackets *)
  charref_sub_lt_gt : charref_sub (u "&lt;b&gt;") = u "<b>";
}.

Section Python.
Context {rt : PyRuntime}.

Fixpoint lower_from (whole : pystr) (i : nat) (s : pystr) : pystr :=
  match s with
  | [] => []
  | c :: t =>
    (if is_ascii_char c then [ascii_lower c] else lower_nonascii whole i)
      ++ lower_from whole (S i) t
  end.

(** [s.lower()]. *)
Definition lower (s : pystr) : pystr := lower_from s 0 s.

(** [bool(v)]. *)
Definition truthy (v : json) : bool :=
  match v with
  | JNull => false
  | JBool b => b
  | JInt z => negb (z =? 0)%Z
  | JFloat nz _ => nz
  | JStr s => negb (bool_decide (s = []))
  | JArr l => negb (bool_decide (length l = 0%nat))
  | JObj kvs => negb (bool_decide (length kvs = 0%nat))
  end.

(** [v or d]. *)
Definition py_or (v d : json) : json := if truthy v then v else d.

(** [repr(v)] and [str(v)]. *)
Fixpoint py_repr (v : json) : pystr :=
  match v with
  | JNull => u "None"
  | JBool true => u "True"
  | JBool false => u "False"
  | JInt z => str_of_Z z
  | JFloat _ r => r
  | JStr s => repr_str s
  | JArr l =>
    u "[" ++ join (u ", ")
      ((fix go (l : list json) : list pystr :=
          match l with [] => [] | x :: t => py_repr x :: go t end) l)
    ++ u "]"
  | JObj kvs =>
    u "{" ++ join (u ", ")
      ((fix go (l : list (pystr * json)) : list pystr :=
          match l with
          | [] => []
          | (k, x) :: t => (repr_str k ++ u ": " ++ py_repr x) :: go t
          end) kvs)
    ++ u "}"
  end.

Definition py_str (v : json) : pystr :=
  match v with
  | JStr s => s
  | _ => py_repr v
  end.

(** Lookup in a [dict]; [fields] lists the items in iteration order. *)
Fixpoint dict_lookup (k : pystr) (fields : list (pystr * json)) : option json :=
  match fields with
  | [] => None
  | (k', v) :: t => if bool_decide (k = k') then Some v else dict_lookup k t
  end.

(** [item.get(key, dflt)]: only a [dict] has the method. *)
Definition get (item : json) (key : pystr) (dflt : json) : result json :=
  match item with
  | JObj kvs => Ok (default dflt (dict_lookup key kvs))
  | _ => Raise AttributeError
  end.

(** [iter(v)]: a list gives its items, a string its characters, a dict its
    keys; nothing else is iterable. *)
Definition py_iter (v : json) : result (list json) :=
  match v with
  | JArr l => Ok l
  | JStr s => Ok (map (fun c => JStr [c]) s)
  | JObj kvs => Ok (map (fun kv => JStr (fst kv)) kvs)
  | _ => Raise TypeError
  end.

Definition as_str (e : exn) (v : json) : result pystr :=
  match v with
  | JStr s => Ok s
  | _ => Raise e
  end.

(** [v.lower()] on a value that may not be a string. *)
Definition py_lower (v : json) : result pystr :=
  rbind (as_str AttributeError v) (fun s => Ok (lower s)).

(** [" ".join(v)]: every item must be a string. *)
Definition py_join_space (v : json) : result pystr :=
  rbind (py_iter v) (fun items =>
  rbind (rmapM (as_str TypeError) items) (fun parts =>
  Ok (join [SPACE] parts))).

End Python.

Notation "'let?' x ':=' c 'in' k" := (rbind c (fun x => k))
  (at level 10, x name, c at level 100, k at level 200,
   format "'[v' 'let?'  x  ':='  c  'in' '/' k ']'").

(** ** [clean_html] *)

Section CleanHtml.
Context {rt : PyRuntime}.

(** The match of [[^>]+>] at the head of [s]: what follows the first [>],
    provided at least one other character comes before it. *)
Fixpoint tag_rest (seen : bool) (s : pystr) : option pystr :=
  match s with
  | [] => None
  | c :: t =>
    if c =? GT then (if seen then Some t else None) else tag_rest true t
  end.

(** [re.sub(r"<[^>]+>", " ", s)]: the leftmost matches, none overlapping.
    [fuel] bounds the number of characters still to scan. *)
Fixpoint sub_tags (fuel : nat) (s : pystr) : pystr :=
  match fuel with
  | O => s
  | S fuel' =>
    match s with
    | [] => []
    | c :: t =>
      if c =? LT then
        match tag_rest false t with
        | Some rest => SPACE :: sub_tags fuel' rest
        | None => c :: sub_tags fuel' t
        end
      else c :: sub_tags fuel' t
    end
  end.

Definition strip_tags (s : pystr) : pystr := sub_tags (length s) s.

(** [html.unescape(s)]: the string itself when it has no ampersand. *)
Definition unescape (s : pystr) : pystr :=
  if existsb (N.eqb AMP) s then charref_sub s else s.

(** [re.sub(r"\s+", " ", s)]; [in_run] tells that the previous character
    was white space, already replaced. *)
Fixpoint collapse_ws (in_run : bool) (s : pystr) : pystr :=
  match s with
  | [] => []
  | c :: t =>
    if is_space c
    then (if in_run then collapse_ws true t else SPACE :: collapse_ws true t)
    else c :: collapse_ws false t
  end.

Fixpoint lstrip (s : pystr) : pystr :=
  match s with
  | [] => []
  | c :: t => if is_space c then lstrip t else s
  end.

Definition rstrip (s : pystr) : pystr := rev (lstrip (rev s)).

(** [s.strip()]. *)
Definition strip (s : pystr) : pystr := rstrip (lstrip s).

Definition clean_html (text : pystr) : pystr :=
  let text := strip_tags text in
  let text := unescape text in
  strip (collapse_ws false text).

End CleanHtml.

(** ** Postings and the two source adapters *)

Definition KEYWORDS : list pystr := map u [
  "frontend"; "backend"; "fullstack"; "full-stack"; "full stack";
  "react"; "next.js"; "nextjs"; "vue"; "angular"; "svelte";
  "node"; "django"; "flask"; "fastapi"; "laravel"; "php";
  "typescript"; "javascript"; "python";
  "mobile"; "react native"; "flutter"; "ios"; "android";
  "web developer"; "web dev"; "software engineer"; "developer";
  "développeur"; "developpeur"
]%string.

(** [any(kw in search_text for kw in KEYWORDS)]. *)
Definition is_relevant (search_text : pystr) : bool :=
  existsb (fun kw => contains kw search_text) KEYWORDS.

(** The dict an adapter appends to [jobs]. *)
Record Job : Type := {
  job_id : pystr;
  job_title : json;
  job_company : json;
  job_url : json;
  job_description : pystr;
  job_source : pystr;
  job_date : json;
}.

(** What an HTTP call gives back: [NoReply] when httpx raises (connection
    refused, timeout, ...), otherwise the status and the body, [None]
    when the body is not JSON and [resp.json()] raises. *)
Inductive HttpReply : Type :=
| NoReply
| Reply (status : Z) (body : option json).

(** httpx's [Response.is_success], which [raise_for_status] tests. *)
Definition is_success (status : Z) : bool :=
  ((200 <=? status) && (status <=? 299))%Z.

Section Adapters.
Context {rt : PyRuntime}.

(** [data[1:]]: a list or a string can be sliced. *)
Definition py_slice_from_1 (data : json) : result json :=
  match data with
  | JArr l => Ok (JArr (tail l))
  | JStr s => Ok (JStr (tail s))
  | _ => Raise TypeError
  end.

(** [clean_html(v)[:500]]; [re.sub] raises on anything but a string. *)
Definition clean_description (v : json) : result pystr :=
  let? s := as_str TypeError v in
  Ok (take 500 (clean_html s)).

Definition remoteok_search_text (item : json) : result pystr :=
  let? position := get item (u "position") JNull in
  let? title := py_lower (py_or position (JStr [])) in
  let? tags_v := get item (u "tags") JNull in
  let? tags_s := py_join_space (py_or tags_v (JArr [])) in
  let tags := lower tags_s in
  let? company_v := get item (u "company") JNull in
  let company := py_or company_v (JStr []) in
  Ok (lower (title ++ [SPACE] ++ tags ++ [SPACE] ++ py_str company)).

Definition remoteok_job (item : json) : result Job :=
  let? id := get item (u "id") (JStr []) in
  let? title := get item (u "position") (JStr (u "N/A")) in
  let? company := get item (u "company") (JStr (u "N/A")) in
  let? url := get item (u "url")
                (JStr (u "https://remoteok.com/remote-jobs/" ++ py_str id)) in
  let? desc_v := get item (u "description") JNull in
  let? description := clean_description (py_or desc_v (JStr [])) in
  let? date := get item (u "date") (JStr []) in
  Ok {| job_id := u "rok-" ++ py_str id;
        job_title := title;
        job_company := company;
        job_url := url;
        job_description := description;
        job_source := u "RemoteOK";
        job_date := date |}.

(** One turn of the loop of an adapter: the posting to append, if any. *)
Definition adapter_item (search_text : json -> result pystr)
    (job : json -> result Job) (item : json) : result (option Job) :=
  let? text := search_text item in
  if is_relevant text
  then (let? j := job item in Ok (Some j))
  else Ok None.

(** The loop: the first exception leaves it. *)
Definition adapter_loop (search_text : json -> result pystr)
    (job : json -> result Job) (items : list json) : result (list Job) :=
  let? found := rmapM (adapter_item search_text job) items in
  Ok (omap id found).

(** The body of the [try] of [fetch_remoteok]. *)
Definition remoteok_try (reply : HttpReply) : result (list Job) :=
  match reply with
  | NoReply => Raise TransportError
  | Reply status body =>
    if is_success status then
      match body with
      | None => Raise JSONDecodeError
      | Some data =>
        (* First element is metadata, skip it *)
        let? rest := py_slice_from_1 data in
        let? items := py_iter rest in
        adapter_loop remoteok_search_text remoteok_job items
      end
    else Raise HTTPStatusError
  end.

Definition arbeitnow_search_text (item : json) : result pystr :=
  let? title_v := get item (u "title") JNull in
  let? title := py_lower (py_or title_v (JStr [])) in
  let? desc_v := get item (u "description") JNull in
  let? desc := py_lower (py_or desc_v (JStr [])) in
  let? tags_v := get item (u "tags") JNull in
  let? tags_s := py_join_space (py_or tags_v (JArr [])) in
  let tags := lower tags_s in
  Ok (title ++ [SPACE] ++ desc ++ [SPACE] ++ tags).

Definition arbeitnow_job (item : json) : result Job :=
  let? slug := get item (u "slug") (JStr []) in
  let? title := get item (u "title") (JStr (u "N/A")) in
  let? company := get item (u "company_name") (JStr (u "N/A")) in
  let? url := get item (u "url") (JStr []) in
  let? desc_v := get item (u "description") JNull in
  let? description := clean_description (py_or desc_v (JStr [])) in
  let? date := get item (u "created_at") (JStr []) in
  Ok {| job_id := u "abn-" ++ py_str slug;
        job_title := title;
        job_company := company;
        job_url := url;
        job_description := description;
        job_source := u "Arbeitnow";
        job_date := date |}.

(** The body of the [try] of [fetch_arbeitnow]. *)
Definition arbeitnow_try (reply : HttpReply) : result (list Job) :=
  match reply with
  | NoReply => Raise TransportError
  | Reply status body =>
    if is_success status then
      match body with
      | None => Raise JSONDecodeError
      | Some data =>
        let? listing := get data (u "data") (JArr []) in
        let? items := py_iter listing in
        adapter_loop arbeitnow_search_text arbeitnow_job items
      end
    else Raise HTTPStatusError
  end.

(** [try: ... except Exception: return []]. *)
Definition or_empty (r : result (list Job)) : list Job :=
  match r with
  | Ok jobs => jobs
  | Raise _ => []
  end.

End Adapters.

(** ** The world: [context.bot_data], the network and the chat *)

(** The profile dict; [/setprofil] only stores strings under these keys. *)
Record Profile : Type := {
  nom : pystr;
  competences : pystr;
  experience : pystr;
  portfolio : pystr;
}.

Definition PROFIL_DEFAUT : Profile := {|
  nom := u "Camel";
  competences := u "React, Next.js, React Native, Node.js, TypeScript, Python, Flutter";
  experience := u "Développeur web & mobile freelance avec expérience en création d'applications complètes (frontend + backend + mobile). Spécialisé en React/Next.js et React Native.";
  portfolio := u "https://github.com/Camel";
|}.

(** [context.bot_data]: each key is absent ([None]) or bound.  The set
    bound to ["sent_jobs"] is a single shared object: every [add] is an
    update of this entry. *)
Record BotData : Type := {
  bd_profile : option Profile;
  bd_sent_jobs : option (gset pystr);
  bd_auto_enabled : option bool;
  bd_auto_chat_id : option Z;
}.

(** The keyword arguments of [bot.send_message]. *)
Record Message : Type := {
  msg_text : pystr;
  msg_parse_mode : option pystr;
  msg_disable_web_page_preview : bool;
}.

(** What a send is for; a label of the model, not a part of the call. *)
Inductive Purpose : Type :=
| Status
| Primary (job : Job)
| Fallback (job : Job).

(** What the program does to the outside, and [EvMark] for each
    [sent_jobs.add]. *)
Inductive Event : Type :=
| EvGet (url : pystr) (reply : HttpReply)
| EvPost (about : Job) (prompt : pystr) (reply : HttpReply)
| EvSend (chat_id : Z) (about : Purpose) (m : Message) (ok : bool)
| EvMark (id : pystr).

(** [trace] lists the events, the latest first; [clock] counts the calls
    made to the outside. *)
Record World : Type := {
  bot_data : BotData;
  clock : nat;
  trace : list Event;
}.

(** How the outside answers the call made at a given time. *)
Record Env : Type := {
  http_get : nat -> pystr -> HttpReply;
  http_post : nat -> pystr -> HttpReply;
  telegram : nat -> Z -> Message -> bool;
}.

Definition M (A : Type) : Type := World -> result A * World.

Definition ret {A} (a : A) : M A := fun w => (Ok a, w).

Definition bind {A B} (c : M A) (k : A -> M B) : M B :=
  fun w =>
    match c w with
    | (Ok a, w') => k a w'
    | (Raise e, w') => (Raise e, w')
    end.

Definition raise {A} (e : exn) : M A := fun w => (Raise e, w).

(** [try: body except Exception: handler]. *)
Definition try_except {A} (body : M A) (handler : exn -> M A) : M A :=
  fun w =>
    match body w with
    | (Ok a, w') => (Ok a, w')
    | (Raise e, w') => handler e w'
    end.

Definition lift {A} (r : result A) : M A := fun w => (r, w).

Notation "'let!' x ':=' c 'in' k" := (bind c (fun x => k))
  (at level 10, x name, c at level 100, k at level 200,
   format "'[v' 'let!'  x  ':='  c  'in' '/' k ']'").
Notation "c '>>' k" := (bind c (fun _ => k))
  (at level 100, k at level 200, right associativity).

(** The world after a command, and what it returned. *)
Definition exec {A} (c : M A) (w : World) : World := snd (c w).
Definition outcome {A} (c : M A) (w : World) : result A := fst (c w).

Definition tracker (w : World) : gset pystr :=
  default ∅ (bd_sent_jobs (bot_data w)).

Definition log_event (e : Event) (w : World) : World :=
  {| bot_data := bot_data w; clock := S (clock w); trace := e :: trace w |}.

Definition set_bot_data (bd : BotData) (w : World) : World :=
  {| bot_data := bd; clock := clock w; trace := trace w |}.

Definition NL : char := 10.
Definition MARKDOWN_V2 : pystr := u "MarkdownV2".
Definition REMOTEOK_URL : pystr := u "https://remoteok.com/api".
Definition ARBEITNOW_URL : pystr := u "https://www.arbeitnow.com/api/job-board-api".

(** The text [generate_candidature] returns when the call fails. *)
Definition GENERATION_ERROR : pystr :=
  u "⚠️ Erreur lors de la génération de la candidature.".

Definition plain (text : pystr) : Message :=
  {| msg_text := text; msg_parse_mode := None;
     msg_disable_web_page_preview := false |}.

Definition markdown (text : pystr) (no_preview : bool) : Message :=
  {| msg_text := text; msg_parse_mode := Some MARKDOWN_V2;
     msg_disable_web_page_preview := no_preview |}.

Section Bot.
Context {rt : PyRuntime} (E : Env).

(** *** Calls to the outside *)

(** [await client.get(url, ...)]: the reply of the job board, logged. *)
Definition do_get (url : pystr) : M HttpReply :=
  fun w =>
    let reply := http_get E (clock w) url in
    (Ok reply, log_event (EvGet url reply) w).

(** [await client.post(...)] to the text-generation service; of the
    payload only the user prompt varies, the rest is constant. *)
Definition do_post (about : Job) (prompt : pystr) : M HttpReply :=
  fun w =>
    let reply := http_post E (clock w) prompt in
    (Ok reply, log_event (EvPost about prompt reply) w).

(** [await context.bot.send_message(...)]: raises when the send fails. *)
Definition send_message (chat_id : Z) (about : Purpose) (m : Message) : M unit :=
  fun w =>
    let ok := telegram E (clock w) chat_id m in
    (if ok then Ok tt else Raise TelegramError,
     log_event (EvSend chat_id about m ok) w).

(** *** Access to [context.bot_data] *)

(** [context.bot_data.get("profile", PROFIL_DEFAUT.copy())]. *)
Definition get_profile : M Profile :=
  fun w => (Ok (default PROFIL_DEFAUT (bd_profile (bot_data w))), w).

(** [context.bot_data.setdefault("sent_jobs", set())]. *)
Definition setdefault_sent_jobs : M unit :=
  fun w =>
    let bd := bot_data w in
    (Ok tt,
     set_bot_data {| bd_profile := bd_profile bd;
                     bd_sent_jobs := Some (tracker w);
                     bd_auto_enabled := bd_auto_enabled bd;
                     bd_auto_chat_id := bd_auto_chat_id bd |} w).

(** [sent_jobs.add(id)], on the set that [bot_data] holds. *)
Definition mark_sent (id : pystr) : M unit :=
  fun w =>
    let bd := bot_data w in
    (Ok tt,
     {| bot_data := {| bd_profile := bd_profile bd;
                       bd_sent_jobs := Some ({[ id ]} ∪ tracker w);
                       bd_auto_enabled := bd_auto_enabled bd;
                       bd_auto_chat_id := bd_auto_chat_id bd |};
        clock := clock w;
        trace := EvMark id :: trace w |}).

(** *** The aggregator *)

Definition fetch_remoteok : M (list Job) :=
  let! reply := do_get REMOTEOK_URL in
  ret (or_empty (remoteok_try reply)).

Definition fetch_arbeitnow : M (list Job) :=
  let! reply := do_get ARBEITNOW_URL in
  ret (or_empty (arbeitnow_try reply)).

(** [asyncio.gather] returns the two lists in the order of its arguments;
    the two calls do not share any state, so they are run one after the
    other here. *)
Definition fetch_jobs : M (list Job) :=
  let! rok := fetch_remoteok in
  let! abn := fetch_arbeitnow in
  ret (rok ++ abn).

(** *** The draft generator *)

Definition user_prompt (job : Job) (profil : Profile) : pystr :=
  u "Poste : " ++ py_str (job_title job) ++ [NL] ++
  u "Entreprise : " ++ py_str (job_company job) ++ [NL] ++
  u "Description : " ++ job_description job ++ [NL] ++
  [NL] ++
  u "Profil du candidat :" ++ [NL] ++
  u "- Nom : " ++ nom profil ++ [NL] ++
  u "- Compétences : " ++ competences profil ++ [NL] ++
  u "- Expérience : " ++ experience profil ++ [NL] ++
  u "- Portfolio : " ++ portfolio profil ++ [NL] ++
  [NL] ++
  u "Rédige un message de candidature court et percutant pour ce poste.".

(** [v[key]] with a string key. *)
Definition getitem_str (v : json) (key : pystr) : result json :=
  match v with
  | JObj kvs =>
    match dict_lookup key kvs with
    | Some x => Ok x
    | None => Raise KeyError
    end
  | _ => Raise TypeError
  end.

(** [v[0]]. *)
Definition getitem_0 (v : json) : result json :=
  match v with
  | JArr (x :: _) => Ok x
  | JArr [] => Raise IndexError
  | JStr (c :: _) => Ok (JStr [c])
  | JStr [] => Raise IndexError
  | JObj _ => Raise KeyError
  | _ => Raise TypeError
  end.

(** [data["choices"][0]["message"]["content"]]. *)
Definition completion_content (data : json) : result json :=
  let? choices := getitem_str data (u "choices") in
  let? first := getitem_0 choices in
  let? message := getitem_str first (u "message") in
  getitem_str message (u "content").

(** The body of the [try] of [generate_candidature], after the call. *)
Definition candidature_of_reply (reply : HttpReply) : result json :=
  match reply with
  | NoReply => Raise TransportError
  | Reply status body =>
    if negb (status =? 200)%Z then Ok (JStr GENERATION_ERROR)
    else match body with
         | None => Raise JSONDecodeError
         | Some data => completion_content data
         end
  end.

Definition generate_candidature (job : Job) (profil : Profile) : M json :=
  let prompt := user_prompt job profil in
  try_except
    (let! reply := do_post job prompt in
     lift (candidature_of_reply reply))
    (fun _ => ret (JStr GENERATION_ERROR)).

(** *** Formatting *)

Definition MD_SPECIAL : pystr := u "_*[]()~`>#+-=|{}.!".
Definition BACKSLASH : char := 92.

(** One turn of the loop of [escape_md]; [ch in special] needs a string. *)
Definition escape_item (ch : json) : result pystr :=
  let? s := as_str TypeError ch in
  Ok (if contains s MD_SPECIAL then BACKSLASH :: s else s).

Definition escape_md (text : json) : result pystr :=
  let? items := py_iter text in
  let? parts := rmapM escape_item items in
  Ok (concat parts).

Definition format_job_message (job : Job) (candidature : json) : result pystr :=
  let? title := escape_md (job_title job) in
  let? company := escape_md (job_company job) in
  let? source := escape_md (JStr (job_source job)) in
  Ok (u "🎯 *" ++ title ++ u "*" ++ [NL] ++
      u "🏢 " ++ company ++ u "  •  📡 " ++ source ++ [NL] ++
      u "🔗 [Voir l'offre](" ++ py_str (job_url job) ++ u ")" ++ [NL] ++
      [NL] ++
      u "✉️ *Candidature prête :*" ++ [NL] ++
      u "```" ++ [NL] ++ py_str candidature ++ [NL] ++ u "```").

Definition fallback_text (job : Job) (candidature : json) : pystr :=
  u "🎯 " ++ py_str (job_title job) ++ [NL] ++
  u "🏢 " ++ py_str (job_company job) ++ u "  •  📡 " ++ job_source job ++ [NL] ++
  u "🔗 " ++ py_str (job_url job) ++ [NL] ++ [NL] ++
  u "✉️ Candidature :" ++ [NL] ++ py_str candidature.

End Bot.

Section Commands.
Context {rt : PyRuntime} (E : Env).

(** *** The batch dispatcher *)

(** The [except] branch of the loop body.  [candidature] is the local
    variable of the command: unbound ([None]) until a call of
    [generate_candidature] has returned. *)
Definition fallback_delivery (chat_id : Z) (job : Job)
    (candidature : option json) : M unit :=
  match candidature with
  | None => raise UnboundLocalError
  | Some c =>
    let fallback := fallback_text job c in
    try_except
      (send_message E chat_id (Fallback job) (plain fallback) >>
       mark_sent (job_id job))
      (fun _ => ret tt)
  end.

(** One turn of [for job in batch], the same text in [missions_command]
    and in [scheduled_prospection] up to the logged words.  It takes the
    binding of [candidature] left by the turn before and returns its own. *)
Definition process_job (chat_id : Z) (profil : Profile)
    (candidature : option json) (job : Job) : M (option json) :=
  fun w =>
    match generate_candidature E job profil w with
    | (Raise _, w1) =>
      (fallback_delivery chat_id job candidature >> ret candidature) w1
    | (Ok c, w1) =>
      try_except
        (let! message := lift (format_job_message job c) in
         send_message E chat_id (Primary job) (markdown message true) >>
         mark_sent (job_id job) >>
         ret (Some c))
        (fun _ => fallback_delivery chat_id job (Some c) >> ret (Some c))
        w1
    end.

Fixpoint process_batch (chat_id : Z) (profil : Profile)
    (candidature : option json) (batch : list Job) : M unit :=
  match batch with
  | [] => ret tt
  | job :: rest =>
    let! c := process_job chat_id profil candidature job in
    process_batch chat_id profil c rest
  end.

(** [[j for j in jobs if j["id"] not in sent_jobs]]. *)
Definition new_jobs_of (sent_jobs : gset pystr) (jobs : list Job) : list Job :=
  filter (fun j => job_id j ∉ sent_jobs) jobs.

Definition MSG_SEARCHING : pystr := u "🔍 Recherche de missions en cours...".
Definition MSG_NOTHING_NEW : pystr :=
  u "😴 Pas de nouvelles missions pour le moment. Je réessaierai plus tard !".

Definition msg_found (n_new n_batch : nat) : pystr :=
  u "✅ " ++ str_of_nat n_new ++
  u " nouvelles missions trouvées ! Génération des candidatures pour les " ++
  str_of_nat n_batch ++ u " premières...".

Definition msg_done (n_batch : nat) : pystr :=
  u "✅ Terminé ! " ++ str_of_nat n_batch ++
  u " candidatures générées. Copie-colle et envoie !".

Definition msg_auto_found (n_new : nat) : pystr :=
  u "🔄 *Prospection auto :* " ++ str_of_nat n_new ++
  u " nouvelles missions trouvées\!".

(** [missions_command] from the filter on: what it does with the
    postings [fetch_jobs] returned. *)
Definition missions_dispatch (chat_id : Z) (profil : Profile)
    (jobs : list Job) : M unit :=
  fun w =>
    let new_jobs := new_jobs_of (tracker w) jobs in
    match new_jobs with
    | [] => send_message E chat_id Status (plain MSG_NOTHING_NEW) w
    | _ :: _ =>
      (* Limit to 5 per batch to avoid spam / rate limits *)
      let batch := take 5 new_jobs in
      (send_message E chat_id Status
         (plain (msg_found (length new_jobs) (length batch))) >>
       process_batch chat_id profil None batch >>
       send_message E chat_id Status (plain (msg_done (length batch)))) w
    end.

Definition missions_command (chat_id : Z) : M unit :=
  send_message E chat_id Status (plain MSG_SEARCHING) >>
  let! profil := get_profile in
  setdefault_sent_jobs >>
  let! jobs := fetch_jobs E in
  missions_dispatch chat_id profil jobs.

(** [scheduled_prospection] from the filter on. *)
Definition scheduled_dispatch (chat_id : Z) (profil : Profile)
    (jobs : list Job) : M unit :=
  fun w =>
    let new_jobs := new_jobs_of (tracker w) jobs in
    match new_jobs with
    | [] => ret tt w
    | _ :: _ =>
      let batch := take 5 new_jobs in
      (send_message E chat_id Status
         (markdown (msg_auto_found (length new_jobs)) false) >>
       process_batch chat_id profil None batch) w
    end.

(** [if not chat_id]: the key is absent, or bound to zero. *)
Definition no_destination (chat_id : option Z) : bool :=
  match chat_id with
  | None => true
  | Some c => (c =? 0)%Z
  end.

Definition scheduled_prospection : M unit :=
  fun w =>
    if negb (default false (bd_auto_enabled (bot_data w))) then ret tt w
    else
      let chat_id := bd_auto_chat_id (bot_data w) in
      if no_destination chat_id then ret tt w
      else
        (let! profil := get_profile in
         setdefault_sent_jobs >>
         let! jobs := fetch_jobs E in
         scheduled_dispatch (default 0%Z chat_id) profil jobs) w.

(** *** The toggle *)

Definition MSG_AUTO_ON : pystr :=
  u "⚡ Auto-prospection ACTIVÉE ! Je chercherai des missions toutes les 6h.".
Definition MSG_AUTO_OFF : pystr := u "💤 Auto-prospection DÉSACTIVÉE.".

Definition set_auto_enabled (b : bool) : M unit :=
  fun w =>
    let bd := bot_data w in
    (Ok tt,
     set_bot_data {| bd_profile := bd_profile bd;
                     bd_sent_jobs := bd_sent_jobs bd;
                     bd_auto_enabled := Some b;
                     bd_auto_chat_id := bd_auto_chat_id bd |} w).

Definition set_auto_chat_id (chat_id : Z) : M unit :=
  fun w =>
    let bd := bot_data w in
    (Ok tt,
     set_bot_data {| bd_profile := bd_profile bd;
                     bd_sent_jobs := bd_sent_jobs bd;
                     bd_auto_enabled := bd_auto_enabled bd;
                     bd_auto_chat_id := Some chat_id |} w).

Definition auto_command (chat_id : Z) : M unit :=
  fun w =>
    let auto_enabled := default false (bd_auto_enabled (bot_data w)) in
    let auto_enabled := negb auto_enabled in
    (set_auto_enabled auto_enabled >>
     if auto_enabled then
       set_auto_chat_id chat_id >>
       send_message E chat_id Status (plain MSG_AUTO_ON)
     else
       send_message E chat_id Status (plain MSG_AUTO_OFF)) w.

End Commands.

(** ** Reading a trace *)

Module Trace.

(** The events a world has seen since an earlier one. *)
Definition events_since (w w' : World) : list Event :=
  take (length (trace w') - length (trace w)) (trace w').

Definition purpose_id (p : Purpose) : option pystr :=
  match p with
  | Status => None
  | Primary j | Fallback j => Some (job_id j)
  end.

(** The posting an event is about, by its id. *)
Definition event_id (e : Event) : option pystr :=
  match e with
  | EvGet _ _ => None
  | EvPost j _ _ => Some (job_id j)
  | EvSend _ p _ _ => purpose_id p
  | EvMark id => Some id
  end.

(** A send of a posting (formatted or plain) that went through. *)
Definition is_delivery (id : pystr) (e : Event) : bool :=
  match e with
  | EvSend _ p _ true => bool_decide (purpose_id p = Some id)
  | _ => false
  end.

Definition deliveries (id : pystr) (evs : list Event) : nat :=
  length (List.filter (is_delivery id) evs).

(** The ids added to the tracker. *)
Definition marked (evs : list Event) : list pystr :=
  omap (fun e => match e with EvMark id => Some id | _ => None end) evs.

(** The postings a draft was requested for, the earliest first. *)
Definition drafted (evs : list Event) : list Job :=
  omap (fun e => match e with EvPost j _ _ => Some j | _ => None end) (rev evs).

Definition is_send (e : Event) : bool :=
  match e with EvSend _ _ _ _ => true | _ => false end.

Definition sends (evs : list Event) : list Event := List.filter is_send evs.

(** Every [EvMark] comes right after a successful send of a posting with
    that id (the trace has the latest event first). *)
Fixpoint marks_follow_delivery (evs : list Event) : Prop :=
  match evs with
  | [] => True
  | EvMark id :: rest =>
    match rest with
    | EvSend _ p _ true :: _ => purpose_id p = Some id
    | _ => False
    end /\ marks_follow_delivery rest
  | _ :: rest => marks_follow_delivery rest
  end.

(** What one turn of the loop can leave in the trace, and whether the
    posting was delivered. *)
Inductive turn_trace (chat_id : Z) (job : Job) : list Event -> bool -> Prop :=
| turn_primary prompt reply m :
    turn_trace chat_id job
      [EvMark (job_id job); EvSend chat_id (Primary job) m true;
       EvPost job prompt reply] true
| turn_fallback prompt reply m m' :
    turn_trace chat_id job
      [EvMark (job_id job); EvSend chat_id (Fallback job) m' true;
       EvSend chat_id (Primary job) m false; EvPost job prompt reply] true
| turn_failed prompt reply m m' :
    turn_trace chat_id job
      [EvSend chat_id (Fallback job) m' false;
       EvSend chat_id (Primary job) m false; EvPost job prompt reply] false
| turn_unformatted prompt reply m' :
    turn_trace chat_id job
      [EvMark (job_id job); EvSend chat_id (Fallback job) m' true;
       EvPost job prompt reply] true
| turn_unformatted_failed prompt reply m' :
    turn_trace chat_id job
      [EvSend chat_id (Fallback job) m' false; EvPost job prompt reply] false.

(** The trace of a whole batch: the turns in order, the latest in front. *)
Inductive batch_trace (chat_id : Z) : list Job -> list Event -> Prop :=
| batch_nil : batch_trace chat_id [] []
| batch_cons job rest evs1 d evs :
    turn_trace chat_id job evs1 d ->
    batch_trace chat_id rest evs ->
    batch_trace chat_id (job :: rest) (evs ++ evs1).

(** How many postings of a list carry a given id. *)
Definition count_id (id : pystr) (l : list Job) : nat :=
  length (List.filter (fun j => bool_decide (job_id j = id)) l).

(** Sends that are not about a posting (notices of the command). *)
Definition status_only (evs : list Event) : Prop :=
  Forall (fun e => exists c m ok, e = EvSend c Status m ok) evs.

(** The entries of [bot_data] other than the tracker. *)
Definition same_settings (w w' : World) : Prop :=
  bd_profile (bot_data w') = bd_profile (bot_data w) /\
  bd_auto_enabled (bot_data w') = bd_auto_enabled (bot_data w) /\
  bd_auto_chat_id (bot_data w') = bd_auto_chat_id (bot_data w).

End Trace.
Export Trace.

(** ** Vocabulary of the specification *)

Module Spec.

(** [s] has a match of [<[^>]+>]: an opening bracket, one character or
    more that are not closing brackets, a closing bracket. *)
Definition contains_tag (s : pystr) : Prop :=
  exists pre body post,
    s = pre ++ LT :: body ++ GT :: post /\ body <> [] /\ GT ∉ body.

(** The boolean reading of [contains_tag]. *)
Fixpoint has_tag (s : pystr) : bool :=
  match s with
  | [] => false
  | c :: t =>
    ((c =? LT) && bool_decide (is_Some (tag_rest false t))) || has_tag t
  end.

(** Every white-space character of [s] is a plain space, and no two of
    them touch. *)
Fixpoint spaces_single (s : pystr) : bool :=
  match s with
  | [] => true
  | c :: t =>
    (negb (is_space c) ||
     ((c =? SPACE) && match t with [] => true | c' :: _ => negb (is_space c') end))
    && spaces_single t
  end.

Definition no_leading_space (s : pystr) : bool :=
  match s with
  | [] => true
  | c :: _ => negb (is_space c)
  end.

Definition no_trailing_space (s : pystr) : bool :=
  match last s with
  | None => true
  | Some c => negb (is_space c)
  end.

(** [kw] occurs in [s]. *)
Definition occurs_in (kw s : pystr) : Prop :=
  exists pre post, s = pre ++ kw ++ post.

(** A source adapter fails: the network, a status outside 2xx, a body
    that is not JSON, or a body the adapter's code raises on. *)
Inductive source_unavailable (adapter_try : HttpReply -> result (list Job))
  : HttpReply -> Prop :=
| su_network : source_unavailable adapter_try NoReply
| su_status status body :
    is_success status = false ->
    source_unavailable adapter_try (Reply status body)
| su_not_json status : source_unavailable adapter_try (Reply status None)
| su_malformed status data e :
    adapter_try (Reply status (Some data)) = Raise e ->
    source_unavailable adapter_try (Reply status (Some data)).


(** What [fetch_jobs] returns when it starts at time [t]. *)
Definition fetched_jobs {rt : PyRuntime} (E : Env) (t : nat) : list Job :=
  or_empty (remoteok_try (http_get E t REMOTEOK_URL)) ++
  or_empty (arbeitnow_try (http_get E (S t) ARBEITNOW_URL)).

(** The scheduled path has something to do. *)
Definition auto_active (w : World) : bool :=
  default false (bd_auto_enabled (bot_data w)) &&
  negb (no_destination (bd_auto_chat_id (bot_data w))).



End Spec.
Export Spec.

(** ** The profile commands *)

Section ProfileCommands.
Context {rt : PyRuntime} (E : Env).

(** [context.bot_data["profile"] = profil]. *)
Definition set_profile (profil : Profile) : M unit :=
  fun w =>
    let bd := bot_data w in
    (Ok tt,
     set_bot_data {| bd_profile := Some profil;
                     bd_sent_jobs := bd_sent_jobs bd;
                     bd_auto_enabled := bd_auto_enabled bd;
                     bd_auto_chat_id := bd_auto_chat_id bd |} w).

(** The text [profil_command] sends. *)
Definition profile_text (profil : Profile) : result pystr :=
  let? p_nom := escape_md (JStr (nom profil)) in
  let? p_competences := escape_md (JStr (competences profil)) in
  let? p_experience := escape_md (JStr (experience profil)) in
  let? p_portfolio := escape_md (JStr (portfolio profil)) in
  Ok (u "👤 *Ton profil :*" ++ [NL] ++ [NL] ++
      u "📛 *Nom :* " ++ p_nom ++ [NL] ++
      u "💻 *Compétences :* " ++ p_competences ++ [NL] ++
      u "📝 *Expérience :* " ++ p_experience ++ [NL] ++
      u "🔗 *Portfolio :* " ++ p_portfolio ++ [NL] ++ [NL] ++
      u "Pour modifier, envoie :" ++ [NL] ++
      u "`/setprofil nom Ton Nom`" ++ [NL] ++
      u "`/setprofil competences React, Vue, Node`" ++ [NL] ++
      u "`/setprofil experience Ton experience`" ++ [NL] ++
      u "`/setprofil portfolio https://ton\-site\.com`").

Definition profil_command (chat_id : Z) : M unit :=
  fun w =>
    let profil := default PROFIL_DEFAUT (bd_profile (bot_data w)) in
    ((* Ensure profile is saved *)
     (match bd_profile (bot_data w) with
      | None => set_profile profil
      | Some _ => ret tt
      end) >>
     let! text := lift (profile_text profil) in
     send_message E chat_id Status (markdown text false)) w.

Definition MSG_SETPROFIL_USAGE : pystr :=
  u "Usage : /setprofil <champ> <valeur>" ++ [NL] ++
  u "Champs : nom, competences, experience, portfolio".

(** [profil[field] = value] for one of the four valid fields; [None] when
    [field] is not in [valid_fields]. *)
Definition set_field (field value : pystr) (profil : Profile) : option Profile :=
  if bool_decide (field = u "nom") then
    Some {| nom := value; competences := competences profil;
            experience := experience profil; portfolio := portfolio profil |}
  else if bool_decide (field = u "competences") then
    Some {| nom := nom profil; competences := value;
            experience := experience profil; portfolio := portfolio profil |}
  else if bool_decide (field = u "experience") then
    Some {| nom := nom profil; competences := competences profil;
            experience := value; portfolio := portfolio profil |}
  else if bool_decide (field = u "portfolio") then
    Some {| nom := nom profil; competences := competences profil;
            experience := experience profil; portfolio := value |}
  else None.

(** [/setprofil <field> <value...>], answered in the chat of the message
    ([update.message.reply_text]).  [fields_order] is the order in which
    Python iterates over the set [valid_fields] when it names the valid
    fields; it varies from one process to the next. *)
Definition setprofil_command (fields_order : list pystr) (chat_id : Z)
    (args : list pystr) : M unit :=
  match args with
  | [] | [_] => send_message E chat_id Status (plain MSG_SETPROFIL_USAGE)
  | arg0 :: rest =>
    let field := lower arg0 in
    let value := join [SPACE] rest in
    fun w =>
      let profil := default PROFIL_DEFAUT (bd_profile (bot_data w)) in
      match set_field field value profil with
      | None =>
        send_message E chat_id Status
          (plain (u "❌ Champ invalide. Champs valides : " ++
                  join (u ", ") fields_order)) w
      | Some profil' =>
        (set_profile profil' >>
         send_message E chat_id Status
           (plain (u "✅ Profil mis à jour !" ++ [NL] ++
                   field ++ u " → " ++ value))) w
      end
  end.

End ProfileCommands.

(** ** More vocabulary *)

Module Coverage.

Definition is_md_special (c : N) : bool := existsb (N.eqb c) MD_SPECIAL.

(** Reading an escaped text back: a backslash in front of a special
    character is dropped. *)
Fixpoint unescape_md (s : pystr) : pystr :=
  match s with
  | [] => []
  | c :: t =>
    if c =? BACKSLASH then
      match t with
      | d :: t' => if is_md_special d then d :: unescape_md t' else c :: unescape_md t
      | [] => [c]
      end
    else c :: unescape_md t
  end.

(** Every special character of [s] has a backslash right before it. *)
Fixpoint specials_escaped (prev_backslash : bool) (s : pystr) : bool :=
  match s with
  | [] => true
  | c :: t =>
    (negb (is_md_special c) || prev_backslash) &&
    specials_escaped (c =? BACKSLASH) t
  end.

Definition count_special (s : pystr) : nat :=
  length (List.filter is_md_special s).

Definition is_get (e : Event) : bool :=
  match e with EvGet _ _ => true | _ => false end.

Definition is_post (e : Event) : bool :=
  match e with EvPost _ _ _ => true | _ => false end.

(** The chats a trace sent something to. *)
Definition send_chats (evs : list Event) : list Z :=
  omap (fun e => match e with EvSend c _ _ _ => Some c | _ => None end) evs.

(** The results of the sends that are notices of a command. *)
Definition status_results (evs : list Event) : list bool :=
  omap (fun e => match e with EvSend _ Status _ ok => Some ok | _ => None end) evs.

(** The chat accepts every message. *)
Definition chat_accepts_all (E : Env) : Prop :=
  forall t c m, telegram E t c m = true.

(** The whitespace clean-up of [clean_html]. *)
Definition normalize_ws (s : pystr) : pystr := strip (collapse_ws false s).

(** What [escape_md] makes of a string. *)
Definition escaped (s : pystr) : pystr :=
  flat_map (fun c => if is_md_special c then [BACKSLASH; c] else [c]) s.

(** Notices of a command, all sent to [chat_id]. *)
Definition notices_to (chat_id : Z) (evs : list Event) : Prop :=
  Forall (fun e => exists m ok, e = EvSend chat_id Status m ok) evs.

(** [item] is a JSON object. *)
Definition is_object (item : json) : bool :=
  match item with JObj _ => true | _ => false end.

(** [text] cannot be iterated over by [escape_md]: null, a boolean or a
    number. *)
Definition not_iterable (text : json) : bool :=
  match text with
  | JNull | JBool _ | JInt _ | JFloat _ _ => true
  | _ => false
  end.

(** The tracker and the auto-mode settings are the same. *)
Definition same_settings_but_profile (w w' : World) : Prop :=
  bd_sent_jobs (bot_data w') = bd_sent_jobs (bot_data w) /\
  bd_auto_enabled (bot_data w') = bd_auto_enabled (bot_data w) /\
  bd_auto_chat_id (bot_data w') = bd_auto_chat_id (bot_data w).

End Coverage.
Export Coverage.

(** ** Inputs of the examples *)

Module Examples.

(** A runtime for the examples.  Their strings are ASCII, without
    ampersands, and never shown with [repr], so none of its functions
    decides an outcome. *)
Fixpoint example_charref_sub (s : pystr) : pystr :=
  match s with
  | 38 :: 108 :: 116 :: 59 :: t => LT :: example_charref_sub t
  | 38 :: 103 :: 116 :: 59 :: t => GT :: example_charref_sub t
  | c :: t => c :: example_charref_sub t
  | [] => []
  end.

Definition example_runtime : PyRuntime := {|
  lower_nonascii := fun s i => match nth_error s i with Some c => [c] | None => [] end;
  charref_sub := example_charref_sub;
  repr_str := fun s => s;
  charref_sub_lt_gt := eq_refl;
|}.

(** 499 letters, a space and one more letter. *)
Definition overlong_description : pystr := repeat 97 499 ++ u " b".


Definition arbeitnow_item_titled (title : pystr) : json :=
  JObj [(u "title", JStr title); (u "tags", JArr []);
        (u "description", JStr [])].

(** A posting whose description spells a tag with character references. *)
Definition entity_item : json :=
  JObj [(u "title", JStr (u "React developer"));
        (u "description", JStr (u "&lt;b&gt;"))].

(** A posting whose description is [overlong_description]. *)
Definition overlong_item : json :=
  JObj [(u "title", JStr (u "React developer"));
        (u "description", JStr overlong_description)].

(** A RemoteOK answer: the metadata element, then two postings that
    carry no id. *)
Definition remoteok_twins : json :=
  JArr [JObj [(u "legal", JStr (u "terms"))];
        JObj [(u "position", JStr (u "React developer"))];
        JObj [(u "position", JStr (u "Vue developer"))]].

(** A well-formed answer of the text-generation service. *)
Definition completion (text : pystr) : json :=
  JObj [(u "choices",
         JArr [JObj [(u "message", JObj [(u "content", JStr text)])]])].

(** The job boards are down, the generator drafts, the chat accepts. *)
Definition quiet_env : Env := {|
  http_get := fun _ _ => NoReply;
  http_post := fun _ _ => Reply 200 (Some (completion (u "Hello")));
  telegram := fun _ _ _ => true;
|}.

(** The chat refuses every message. *)
Definition deaf_env : Env := {|
  http_get := fun _ _ => NoReply;
  http_post := fun _ _ => Reply 200 (Some (completion (u "Hello")));
  telegram := fun _ _ _ => false;
|}.


(** RemoteOK is down and Arbeitnow lists one posting. *)
Definition half_env : Env := {|
  http_get := fun _ url =>
    if bool_decide (url = ARBEITNOW_URL)
    then Reply 200 (Some (JObj [(u "data",
           JArr [arbeitnow_item_titled (u "Senior React Developer")])]))
    else NoReply;
  http_post := fun _ _ => NoReply;
  telegram := fun _ _ _ => true;
|}.

(** RemoteOK answers [remoteok_twins] and Arbeitnow is down. *)
Definition twins_env : Env := {|
  http_get := fun _ url =>
    if bool_decide (url = REMOTEOK_URL)
    then Reply 200 (Some remoteok_twins)
    else NoReply;
  http_post := fun _ _ => NoReply;
  telegram := fun _ _ _ => true;
|}.

(** An empty [bot_data], before any call. *)
Definition fresh_world : World := {|
  bot_data := {| bd_profile := None; bd_sent_jobs := None;
                 bd_auto_enabled := None; bd_auto_chat_id := None |};
  clock := 0;
  trace := [];
|}.

Definition react_job (n : Z) : Job := {|
  job_id := u "rok-" ++ str_of_Z n;
  job_title := JStr (u "React developer");
  job_company := JStr (u "ACME");
  job_url := JStr (u "https://example.org/job");
  job_description := u "Build things";
  job_source := u "RemoteOK";
  job_date := JStr [];
|}.

Definition twelve_jobs : list Job :=
  map (fun n => react_job (Z.of_nat n)) (seq 1 12).

End Examples.
Export Examples.

Module MoreExamples.

(** A RemoteOK answer with one good posting and, after it, a record that
    is a string instead of an object. *)
Definition remoteok_one_bad : json :=
  JArr [JObj [(u "legal", JStr (u "terms"))];
        JObj [(u "position", JStr (u "React developer")); (u "id", JInt 7)];
        JStr (u "oops")].

(** A RemoteOK posting whose title is null and whose tags match. *)
Definition untitled_item : json :=
  JObj [(u "position", JNull); (u "tags", JArr [JStr (u "react")]);
        (u "id", JInt 9)].

Definition untitled_job : Job := {|
  job_id := u "rok-9";
  job_title := JNull;
  job_company := JStr (u "N/A");
  job_url := JStr (u "https://remoteok.com/remote-jobs/9");
  job_description := [];
  job_source := u "RemoteOK";
  job_date := JStr [];
|}.

(*MOREEXAMPLES*)
End MoreExamples.
Export MoreExamples.

(** * Properties *)

(** ** The monad and the trace *)

Lemma events_since_app (w w' : World) (evs : list Event) :
  trace w' = evs ++ trace w -> events_since w w' = evs.
Proof.
  intros H. unfold events_since. rewrite H, length_app.
  replace (length evs + length (trace w) - length (trace w))%nat
    with (length evs) by lia.
  by rewrite take_app_length.
Qed.

Lemma same_settings_trans (w1 w2 w3 : World) :
  same_settings w1 w2 -> same_settings w2 w3 -> same_settings w1 w3.
Proof.
  unfold same_settings. intros (-> & -> & ->) (-> & -> & ->). done.
Qed.

Lemma deliveries_app (id : pystr) (a b : list Event) :
  deliveries id (a ++ b) = (deliveries id a + deliveries id b)%nat.
Proof. unfold deliveries. by rewrite List.filter_app, length_app. Qed.

Lemma marked_app (a b : list Event) : marked (a ++ b) = marked a ++ marked b.
Proof. unfold marked. by rewrite omap_app. Qed.

Lemma drafted_app (a b : list Event) : drafted (a ++ b) = drafted b ++ drafted a.
Proof. unfold drafted. by rewrite rev_app_distr, omap_app. Qed.

(** Two segments compose when the earlier one does not start the later
    one's pending mark: the later segment ends (in time: begins) with an
    event that is not a mark. *)
Lemma marks_follow_delivery_app (a b : list Event) :
  marks_follow_delivery a -> marks_follow_delivery b ->
  (forall id, last a <> Some (EvMark id)) ->
  marks_follow_delivery (a ++ b).
Proof.
  intros Ha Hb Hlast. induction a as [|e a IH]; [done|].
  assert (Hlast' : forall id, last a <> Some (EvMark id)).
  { intros id Hl. destruct a as [|e' a']; [done|]. by apply (Hlast id). }
  destruct e; simpl in *; try (by apply IH).
  destruct Ha as [Hhead Ha]. split; [|by apply IH].
  destruct a as [|e' a']; [|done].
  exfalso. by apply (Hlast id).
Qed.

(** ** The draft generator never raises *)

Section Generator.
Context {rt : PyRuntime} (E : Env).

(** The draft [generate_candidature] returns for the call made at time [t]. *)
Lemma generate_candidature_run (job : Job) (profil : Profile) (w : World) :
  let prompt := user_prompt job profil in
  let reply := http_post E (clock w) prompt in
  generate_candidature E job profil w =
    (Ok (match candidature_of_reply reply with
         | Ok c => c
         | Raise _ => JStr GENERATION_ERROR
         end),
     log_event (EvPost job prompt reply) w).
Proof.
  unfold generate_candidature, try_except, bind, do_post, lift, ret. simpl.
  by destruct (candidature_of_reply _).
Qed.

End Generator.

(** ** One turn of the loop, and the loop *)

Section Loop.
Context {rt : PyRuntime} (E : Env).

Lemma fallback_delivery_run (chat_id : Z) (job : Job) (c : json) (w : World) :
  exists (ok : bool) (w' : World),
    fallback_delivery E chat_id job (Some c) w = (Ok tt, w') /\
    trace w' =
      (if ok then [EvMark (job_id job)] else []) ++
      EvSend chat_id (Fallback job) (plain (fallback_text job c)) ok :: trace w /\
    tracker w' = (if ok then {[ job_id job ]} ∪ tracker w else tracker w) /\
    same_settings w w'.
Proof.
  unfold fallback_delivery, try_except, bind, send_message, mark_sent, ret.
  destruct (telegram E (clock w) chat_id _) eqn:Hok; simpl.
  - exists true. eexists. split; [reflexivity|]. unfold tracker; simpl.
    repeat split.
  - exists false. eexists. split; [reflexivity|]. unfold tracker; simpl.
    repeat split.
Qed.

Lemma process_job_turn (chat_id : Z) (profil : Profile)
    (candidature : option json) (job : Job) (w : World) :
  exists (c : json) (w' : World) (evs : list Event) (d : bool),
    process_job E chat_id profil candidature job w = (Ok (Some c), w') /\
    trace w' = evs ++ trace w /\
    turn_trace chat_id job evs d /\
    tracker w' = (if d then {[ job_id job ]} ∪ tracker w else tracker w) /\
    same_settings w w'.
Proof.
  unfold process_job. rewrite generate_candidature_run.
  set (prompt := user_prompt job profil).
  set (reply := http_post E (clock w) prompt).
  set (c := match candidature_of_reply reply with
            | Ok c => c | Raise _ => JStr GENERATION_ERROR end).
  set (w1 := log_event (EvPost job prompt reply) w).
  exists c.
  unfold try_except, bind, lift.
  destruct (format_job_message job c) as [message|e] eqn:Hfmt.
  - unfold send_message at 1.
    destruct (telegram E (clock w1) chat_id (markdown message true)) eqn:Hok.
    + eexists.
      exists [EvMark (job_id job);
              EvSend chat_id (Primary job) (markdown message true) true;
              EvPost job prompt reply], true.
      simpl. split; [reflexivity|]. simpl. split; [reflexivity|].
      split; [constructor|]. unfold tracker; simpl. repeat split.
    + set (w2 := log_event _ w1).
      destruct (fallback_delivery_run chat_id job c w2)
        as (ok & w' & Hrun & Htr & Hset & Hsame).
      rewrite Hrun. unfold ret. exists w'.
      exists ((if ok then [EvMark (job_id job)] else []) ++
              [EvSend chat_id (Fallback job) (plain (fallback_text job c)) ok;
               EvSend chat_id (Primary job) (markdown message true) false;
               EvPost job prompt reply]), ok.
      split; [reflexivity|]. rewrite Htr.
      split; [by destruct ok|]. split; [destruct ok; constructor|].
      split; done.
  - destruct (fallback_delivery_run chat_id job c w1)
      as (ok & w' & Hrun & Htr & Hset & Hsame).
    rewrite Hrun. unfold ret. exists w'.
    exists ((if ok then [EvMark (job_id job)] else []) ++
            [EvSend chat_id (Fallback job) (plain (fallback_text job c)) ok;
             EvPost job prompt reply]), ok.
    split; [reflexivity|]. rewrite Htr.
    split; [by destruct ok|]. split; [destruct ok; constructor|].
    split; done.
Qed.

(** The loop never raises, whatever the sends do, and leaves a batch trace. *)
Lemma process_batch_run (chat_id : Z) (profil : Profile) (batch : list Job) :
  forall (candidature : option json) (w : World),
  exists (w' : World) (evs : list Event),
    process_batch E chat_id profil candidature batch w = (Ok tt, w') /\
    trace w' = evs ++ trace w /\
    batch_trace chat_id batch evs /\
    tracker w' = list_to_set (marked evs) ∪ tracker w /\
    same_settings w w'.
Proof.
  induction batch as [|job rest IH]; intros candidature w; simpl.
  - exists w, []. unfold ret. repeat split; [constructor | set_solver].
  - unfold bind.
    destruct (process_job_turn chat_id profil candidature job w)
      as (c & w1 & evs1 & d & Hrun & Htr & Hturn & Hset & Hsame).
    rewrite Hrun.
    destruct (IH (Some c) w1) as (w' & evs & Hrun' & Htr' & Hbatch & Hset' & Hsame').
    exists w', (evs ++ evs1). split; [done|].
    split; [by rewrite Htr', Htr, app_assoc|].
    split; [by econstructor|].
    split; [|by eapply same_settings_trans].
    rewrite Hset', Hset, marked_app, list_to_set_app_L.
    destruct Hturn; simpl; set_solver.
Qed.

End Loop.

(** ** What a batch trace tells *)

Section BatchTrace.
Context (chat_id : Z).

Lemma count_id_take (id : pystr) (n : nat) (l : list Job) :
  (count_id id (take n l) <= count_id id l)%nat.
Proof.
  unfold count_id. revert n. induction l as [|j l IH]; intros [|n]; simpl; try lia.
  specialize (IH n). destruct (bool_decide _); simpl; lia.
Qed.

Lemma count_id_new_jobs (id : pystr) (sent : gset pystr) (l : list Job) :
  (count_id id (new_jobs_of sent l) <= count_id id l)%nat.
Proof.
  unfold count_id, new_jobs_of. induction l as [|j l IH]; simpl; [lia|].
  rewrite filter_cons. destruct (decide (job_id j ∉ sent)); simpl;
    destruct (bool_decide _); simpl; lia.
Qed.

Lemma count_id_zero (id : pystr) (l : list Job) :
  (forall j, j ∈ l -> job_id j <> id) -> count_id id l = 0%nat.
Proof.
  unfold count_id. induction l as [|j l IH]; intros H; simpl; [done|].
  rewrite bool_decide_eq_false_2 by (apply H; left).
  apply IH. intros j' Hj'. apply H. by right.
Qed.

Lemma turn_trace_drafted (job : Job) (evs : list Event) (d : bool) :
  turn_trace chat_id job evs d -> drafted evs = [job].
Proof. by destruct 1. Qed.

Lemma turn_trace_marked (job : Job) (evs : list Event) (d : bool) :
  turn_trace chat_id job evs d ->
  marked evs = if d then [job_id job] else [].
Proof. by destruct 1. Qed.

Lemma turn_trace_deliveries (id : pystr) (job : Job) (evs : list Event) (d : bool) :
  turn_trace chat_id job evs d ->
  deliveries id evs =
    if d && bool_decide (job_id job = id) then 1%nat else 0%nat.
Proof.
  destruct 1; unfold deliveries; simpl;
    destruct (decide (job_id job = id)) as [Heq|Hne];
    rewrite ?(bool_decide_eq_true_2 (Some (job_id job) = Some id)) by congruence;
    rewrite ?(bool_decide_eq_false_2 (Some (job_id job) = Some id)) by congruence;
    rewrite ?(bool_decide_eq_true_2 (job_id job = id)) by done;
    rewrite ?(bool_decide_eq_false_2 (job_id job = id)) by done;
    done.
Qed.

Lemma turn_trace_marks (job : Job) (evs : list Event) (d : bool) :
  turn_trace chat_id job evs d -> marks_follow_delivery evs.
Proof. destruct 1; simpl; auto. Qed.

Lemma turn_trace_event_id (job : Job) (evs : list Event) (d : bool) :
  turn_trace chat_id job evs d ->
  Forall (fun e => event_id e = Some (job_id job)) evs.
Proof. destruct 1; repeat constructor. Qed.

Lemma turn_trace_last (job : Job) (evs : list Event) (d : bool) :
  turn_trace chat_id job evs d ->
  exists prompt reply, last evs = Some (EvPost job prompt reply).
Proof. destruct 1; simpl; eauto. Qed.

Lemma batch_trace_drafted (batch : list Job) (evs : list Event) :
  batch_trace chat_id batch evs -> drafted evs = batch.
Proof.
  induction 1 as [|job rest evs1 d evs Hturn Hbatch IH]; [done|].
  rewrite drafted_app, IH. by rewrite (turn_trace_drafted _ _ _ Hturn).
Qed.

Lemma batch_trace_last (batch : list Job) (evs : list Event) :
  batch_trace chat_id batch evs ->
  forall id, last evs <> Some (EvMark id).
Proof.
  destruct 1 as [|job rest evs1 d evs Hturn Hbatch]; intros id; [done|].
  destruct (turn_trace_last _ _ _ Hturn) as (prompt & reply & Hlast).
  destruct evs1 as [|e evs1] using rev_ind; [done|].
  rewrite app_assoc, last_snoc. rewrite last_snoc in Hlast. congruence.
Qed.

Lemma batch_trace_marks (batch : list Job) (evs : list Event) :
  batch_trace chat_id batch evs -> marks_follow_delivery evs.
Proof.
  induction 1 as [|job rest evs1 d evs Hturn Hbatch IH]; [done|].
  apply marks_follow_delivery_app; [done| |].
  - by eapply turn_trace_marks.
  - by eapply batch_trace_last.
Qed.

(** An id is marked exactly when a posting carrying it was delivered. *)
Lemma batch_trace_marked (batch : list Job) (evs : list Event) (id : pystr) :
  batch_trace chat_id batch evs ->
  id ∈ marked evs <-> (0 < deliveries id evs)%nat.
Proof.
  induction 1 as [|job rest evs1 d evs Hturn Hbatch IH].
  - simpl. split; [by intros ?%elem_of_nil | unfold deliveries; simpl; lia].
  - rewrite marked_app, deliveries_app, elem_of_app, IH.
    rewrite (turn_trace_marked _ _ _ Hturn), (turn_trace_deliveries id _ _ _ Hturn).
    destruct d; simpl.
    + rewrite list_elem_of_singleton. case_bool_decide; split; intros; try lia;
        naive_solver lia.
    + split; [intros [?|?%elem_of_nil] | intros ?]; try done; [lia | left; lia].
Qed.

Lemma batch_trace_deliveries (batch : list Job) (evs : list Event) (id : pystr) :
  batch_trace chat_id batch evs ->
  (deliveries id evs <= count_id id batch)%nat.
Proof.
  induction 1 as [|job rest evs1 d evs Hturn Hbatch IH].
  - unfold deliveries; simpl; lia.
  - rewrite deliveries_app, (turn_trace_deliveries id _ _ _ Hturn).
    unfold count_id in *. simpl.
    destruct d, (bool_decide (job_id job = id)); simpl; lia.
Qed.

(** Every event of the batch is about one of its postings. *)
Lemma batch_trace_event_id (batch : list Job) (evs : list Event) :
  batch_trace chat_id batch evs ->
  Forall (fun e => exists j, j ∈ batch /\ event_id e = Some (job_id j)) evs.
Proof.
  induction 1 as [|job rest evs1 d evs Hturn Hbatch IH]; [constructor|].
  apply Forall_app. split.
  - eapply Forall_impl; [exact IH|]. intros e (j & Hj & He).
    exists j. split; [by right | done].
  - eapply Forall_impl; [by eapply turn_trace_event_id|].
    intros e He. exists job. split; [left | done].
Qed.

End BatchTrace.

(** ** The two dispatch paths *)

Lemma status_only_deliveries (id : pystr) (evs : list Event) :
  status_only evs -> deliveries id evs = 0%nat.
Proof.
  unfold deliveries. induction 1 as [|e evs (c & m & ok & ->) _ IH]; [done|].
  simpl. by destruct ok.
Qed.

Lemma status_only_drafted (evs : list Event) : status_only evs -> drafted evs = [].
Proof.
  induction 1 as [|e evs (c & m & ok & ->) _ IH]; [done|].
  change (EvSend c Status m ok :: evs) with ([EvSend c Status m ok] ++ evs).
  by rewrite drafted_app, IH.
Qed.

Lemma status_only_event_id (evs : list Event) :
  status_only evs -> Forall (fun e => event_id e = None) evs.
Proof.
  intros H. eapply Forall_impl; [exact H|]. by intros e (c & m & ok & ->).
Qed.

Lemma status_only_one (c : Z) (m : Message) (ok : bool) :
  status_only [EvSend c Status m ok].
Proof. repeat constructor. eauto. Qed.

Lemma bind_run {A B} (c : M A) (k : A -> M B) (w w1 : World) (a : A) :
  c w = (Ok a, w1) -> bind c k w = k a w1.
Proof. unfold bind. by intros ->. Qed.

Lemma bind_raise {A B} (c : M A) (k : A -> M B) (w w1 : World) (e : exn) :
  c w = (Raise e, w1) -> bind c k w = (Raise e, w1).
Proof. unfold bind. by intros ->. Qed.

Lemma tracker_log_event (e : Event) (w : World) :
  tracker (log_event e w) = tracker w.
Proof. done. Qed.

Lemma same_settings_log_event (e : Event) (w w' : World) :
  same_settings w w' -> same_settings w (log_event e w').
Proof. done. Qed.

Section Dispatch.
Context {rt : PyRuntime} (E : Env).

Lemma send_message_run (chat_id : Z) (p : Purpose) (m : Message) (w : World) :
  send_message E chat_id p m w =
    (if telegram E (clock w) chat_id m then Ok tt else Raise TelegramError,
     log_event (EvSend chat_id p m (telegram E (clock w) chat_id m)) w).
Proof. done. Qed.

(** [missions_dispatch] leaves: a notice, then (when the notice went
    through and there is something new) the trace of the first five new
    postings and a closing notice. *)
Lemma missions_dispatch_run (chat_id : Z) (profil : Profile)
    (jobs : list Job) (w : World) :
  let new_jobs := new_jobs_of (tracker w) jobs in
  let w' := exec (missions_dispatch E chat_id profil jobs) w in
  exists (batch : list Job) (before evs after : list Event),
    trace w' = after ++ evs ++ before ++ trace w /\
    status_only before /\ status_only after /\
    batch_trace chat_id batch evs /\
    (batch = [] \/ batch = take 5 new_jobs) /\
    (telegram E (clock w) chat_id
       (plain (msg_found (length new_jobs) (length (take 5 new_jobs)))) = true ->
     batch = take 5 new_jobs) /\
    tracker w' = list_to_set (marked evs) ∪ tracker w /\
    same_settings w w'.
Proof.
  intros new_jobs w'. subst w'. unfold exec, missions_dispatch.
  fold new_jobs. destruct new_jobs as [|j0 rest] eqn:Hnew.
  - rewrite send_message_run. cbn [snd].
    exists [], [EvSend chat_id Status (plain MSG_NOTHING_NEW)
                  (telegram E (clock w) chat_id (plain MSG_NOTHING_NEW))], [], [].
    split; [done|]. split; [apply status_only_one|].
    split; [constructor|]. split; [constructor|]. split; [by left|].
    split; [done|]. split; [|done].
    rewrite tracker_log_event. set_solver.
  - set (batch := take 5 (j0 :: rest)).
    set (notice := plain (msg_found _ _)).
    pose proof (send_message_run chat_id Status notice w) as Hsend.
    destruct (telegram E (clock w) chat_id notice) eqn:Hok.
    + rewrite (bind_run _ _ _ _ _ Hsend).
      set (w1 := log_event _ w) in *.
      destruct (process_batch_run E chat_id profil batch None w1)
        as (w2 & evs & Hrun & Htr & Hbatch & Hset & Hsame).
      rewrite (bind_run _ _ _ _ _ Hrun), send_message_run. cbn [snd].
      exists batch, [EvSend chat_id Status notice true], evs,
        [EvSend chat_id Status (plain (msg_done (length batch)))
           (telegram E (clock w2) chat_id (plain (msg_done (length batch))))].
      split; [cbn [trace log_event]; by rewrite Htr|].
      split; [apply status_only_one|]. split; [apply status_only_one|].
      split; [done|]. split; [by right|]. split; [done|].
      split; [by rewrite tracker_log_event, Hset|].
      by apply same_settings_log_event.
    + rewrite (bind_raise _ _ _ _ _ Hsend). cbn [snd].
      exists [], [EvSend chat_id Status notice false], [], [].
      split; [done|]. split; [apply status_only_one|].
      split; [constructor|]. split; [constructor|]. split; [by left|].
      split; [done|]. split; [|done].
      rewrite tracker_log_event. set_solver.
Qed.

(** [scheduled_dispatch]: nothing at all when nothing is new. *)
Lemma scheduled_dispatch_run (chat_id : Z) (profil : Profile)
    (jobs : list Job) (w : World) :
  let new_jobs := new_jobs_of (tracker w) jobs in
  let w' := exec (scheduled_dispatch E chat_id profil jobs) w in
  exists (batch : list Job) (before evs : list Event),
    trace w' = evs ++ before ++ trace w /\
    status_only before /\
    (new_jobs = [] -> before = []) /\
    batch_trace chat_id batch evs /\
    (batch = [] \/ batch = take 5 new_jobs) /\
    tracker w' = list_to_set (marked evs) ∪ tracker w /\
    same_settings w w'.
Proof.
  intros new_jobs w'. subst w'. unfold exec, scheduled_dispatch.
  fold new_jobs. destruct new_jobs as [|j0 rest] eqn:Hnew.
  - exists [], [], []. unfold ret. cbn [snd].
    split; [done|]. split; [constructor|]. split; [done|].
    split; [constructor|]. split; [by left|]. split; [|done].
    set_solver.
  - set (batch := take 5 (j0 :: rest)).
    set (notice := markdown _ _).
    pose proof (send_message_run chat_id Status notice w) as Hsend.
    destruct (telegram E (clock w) chat_id notice) eqn:Hok.
    + rewrite (bind_run _ _ _ _ _ Hsend).
      set (w1 := log_event _ w) in *.
      destruct (process_batch_run E chat_id profil batch None w1)
        as (w2 & evs & Hrun & Htr & Hbatch & Hset & Hsame).
      rewrite Hrun. cbn [snd].
      exists batch, [EvSend chat_id Status notice true], evs.
      split; [by rewrite Htr|].
      split; [apply status_only_one|]. split; [done|].
      split; [done|]. split; [by right|].
      split; [by rewrite Hset|]. done.
    + rewrite (bind_raise _ _ _ _ _ Hsend). cbn [snd].
      exists [], [EvSend chat_id Status notice false], [].
      split; [done|]. split; [apply status_only_one|]. split; [done|].
      split; [constructor|]. split; [by left|]. split; [|done].
      rewrite tracker_log_event. set_solver.
Qed.

End Dispatch.

Section DispatchSummary.
Context {rt : PyRuntime} (E : Env).

Lemma elem_of_take_inv {A} (n : nat) (l : list A) (x : A) :
  x ∈ take n l -> x ∈ l.
Proof. intros H. rewrite <- (take_drop n l). apply elem_of_app. by left. Qed.

Lemma elem_of_new_jobs (sent : gset pystr) (jobs : list Job) (j : Job) :
  j ∈ new_jobs_of sent jobs <-> j ∈ jobs /\ job_id j ∉ sent.
Proof. unfold new_jobs_of. rewrite list_elem_of_filter. tauto. Qed.

Lemma count_id_pos (id : pystr) (l : list Job) :
  (0 < count_id id l)%nat -> exists j, j ∈ l /\ job_id j = id.
Proof.
  unfold count_id. induction l as [|j l IH]; simpl; [lia|].
  case_bool_decide as Hj; simpl.
  - intros _. exists j. split; [left | done].
  - intros (j' & Hin & Hid)%IH. exists j'. split; [by right | done].
Qed.

(** What one on-demand dispatch leaves behind, read from the events it
    added. *)
Lemma missions_dispatch_summary (chat_id : Z) (profil : Profile)
    (jobs : list Job) (w : World) :
  let new_jobs := new_jobs_of (tracker w) jobs in
  let w' := exec (missions_dispatch E chat_id profil jobs) w in
  let evs := events_since w w' in
  trace w' = evs ++ trace w /\
  (drafted evs = [] \/ drafted evs = take 5 new_jobs) /\
  (telegram E (clock w) chat_id
     (plain (msg_found (length new_jobs) (length (take 5 new_jobs)))) = true ->
   drafted evs = take 5 new_jobs) /\
  (forall id, (deliveries id evs <= count_id id (take 5 new_jobs))%nat) /\
  (forall id, id ∈ tracker w' <-> id ∈ tracker w \/ (0 < deliveries id evs)%nat) /\
  Forall (fun e => event_id e = None \/
                   exists j, j ∈ take 5 new_jobs /\ event_id e = Some (job_id j)) evs /\
  same_settings w w'.
Proof.
  intros new_jobs w' evs.
  destruct (missions_dispatch_run E chat_id profil jobs w)
    as (batch & before & evs0 & after & Htr & Hb & Ha & Hbatch & Hor & Hok & Hset & Hsame).
  fold new_jobs w' in Htr, Hor, Hok, Hset, Hsame.
  assert (Hevs : evs = after ++ evs0 ++ before).
  { apply events_since_app. by rewrite Htr, !app_assoc. }
  rewrite Hevs. split; [by rewrite Htr, !app_assoc|].
  assert (Hdr : drafted (after ++ evs0 ++ before) = batch).
  { rewrite !drafted_app, (status_only_drafted _ Ha), (status_only_drafted _ Hb).
    rewrite app_nil_r. simpl. by apply (batch_trace_drafted chat_id). }
  assert (Hdel : forall id, deliveries id (after ++ evs0 ++ before) = deliveries id evs0).
  { intros id. rewrite !deliveries_app, (status_only_deliveries _ _ Ha),
      (status_only_deliveries _ _ Hb). lia. }
  split; [rewrite Hdr; destruct Hor; auto|].
  split; [rewrite Hdr; auto|].
  split.
  { intros id. rewrite Hdel.
    pose proof (batch_trace_deliveries chat_id _ _ id Hbatch) as Hle.
    destruct Hor as [-> | ->]; [|done].
    unfold count_id in Hle; simpl in Hle. lia. }
  split.
  { intros id. rewrite Hdel, Hset, elem_of_union, elem_of_list_to_set.
    rewrite (batch_trace_marked chat_id _ _ id Hbatch). tauto. }
  split; [|done].
  apply Forall_app. split.
  { eapply Forall_impl; [by apply status_only_event_id|]. by left. }
  apply Forall_app. split.
  - eapply Forall_impl; [by eapply batch_trace_event_id|].
    intros e (j & Hj & He). right. exists j. split; [|done].
    destruct Hor as [-> | ->]; [by apply elem_of_nil in Hj | done].
  - eapply Forall_impl; [by apply status_only_event_id|]. by left.
Qed.

End DispatchSummary.

(** ** The claims about the dispatcher *)

Section DispatchClaims.
Context {rt : PyRuntime} (E : Env).

(** C1. Dispatching twice on the same tracker delivers a posting P at most
    once: when a list carries P's id once, the two invocations together
    log at most one successful delivery for that id; and once a delivery of
    P has gone through, its id is in the tracker, the filter of the second
    invocation leaves P out, and the second invocation requests no draft
    and sends no message about it. *)
Theorem dispatch_twice_delivers_once (chat_id : Z) (profil : Profile)
    (jobs1 jobs2 : list Job) (P : Job) (w : World) :
  let w1 := exec (missions_dispatch E chat_id profil jobs1) w in
  let w2 := exec (missions_dispatch E chat_id profil jobs2) w1 in
  (count_id (job_id P) jobs1 <= 1)%nat ->
  (count_id (job_id P) jobs2 <= 1)%nat ->
  (deliveries (job_id P) (events_since w w2) <= 1)%nat /\
  ((0 < deliveries (job_id P) (events_since w w1))%nat ->
   job_id P ∈ tracker w1 /\
   (P ∉ new_jobs_of (tracker w1) jobs2) /\
   Forall (fun e => event_id e <> Some (job_id P)) (events_since w1 w2)).
Proof.
  intros w1 w2 Hc1 Hc2.
  destruct (missions_dispatch_summary E chat_id profil jobs1 w)
    as (Htr1 & _ & _ & Hdel1 & Hset1 & _ & _).
  destruct (missions_dispatch_summary E chat_id profil jobs2 w1)
    as (Htr2 & _ & _ & Hdel2 & _ & Hev2 & _).
  fold w1 in Htr1, Hdel1, Hset1. fold w2 in Htr2, Hdel2, Hev2.
  set (evs1 := events_since w w1) in *.
  set (evs2 := events_since w1 w2) in *.
  set (id := job_id P) in *.
  assert (Hall : events_since w w2 = evs2 ++ evs1).
  { apply events_since_app. by rewrite Htr2, Htr1, app_assoc. }
  assert (Hd1 : (deliveries id evs1 <= 1)%nat).
  { pose proof (Hdel1 id). pose proof (count_id_take id 5 (new_jobs_of (tracker w) jobs1)).
    pose proof (count_id_new_jobs id (tracker w) jobs1). lia. }
  assert (Hd2 : (deliveries id evs2 <= 1)%nat).
  { pose proof (Hdel2 id). pose proof (count_id_take id 5 (new_jobs_of (tracker w1) jobs2)).
    pose proof (count_id_new_jobs id (tracker w1) jobs2). lia. }
  assert (Hseen : (0 < deliveries id evs1)%nat ->
                  forall j, j ∈ take 5 (new_jobs_of (tracker w1) jobs2) -> job_id j <> id).
  { intros Hpos j Hj%elem_of_take_inv%elem_of_new_jobs Heq.
    destruct Hj as [_ Hj]. apply Hj. rewrite Heq. apply Hset1. by right. }
  split.
  - rewrite Hall, deliveries_app.
    destruct (decide (0 < deliveries id evs1)%nat) as [Hpos|Hzero]; [|lia].
    pose proof (Hdel2 id) as Hle.
    rewrite (count_id_zero id _ (Hseen Hpos)) in Hle. lia.
  - intros Hpos. split; [apply Hset1; by right|]. split.
    + rewrite elem_of_new_jobs. intros [_ Hn]. apply Hn, Hset1. by right.
    + eapply Forall_impl; [exact Hev2|]. intros e [-> | (j & Hj & ->)]; [done|].
      intros [= Heq]. by apply (Hseen Hpos j).
Qed.

Lemma missions_dispatch_refused (chat_id : Z) (profil : Profile)
    (jobs : list Job) (w : World) :
  let new_jobs := new_jobs_of (tracker w) jobs in
  let notice := plain (msg_found (length new_jobs) (length (take 5 new_jobs))) in
  new_jobs <> [] ->
  telegram E (clock w) chat_id notice = false ->
  missions_dispatch E chat_id profil jobs w =
    (Raise TelegramError, log_event (EvSend chat_id Status notice false) w).
Proof.
  intros new_jobs notice Hnew Hno. unfold missions_dispatch.
  fold new_jobs. destruct new_jobs as [|j0 rest] eqn:Heq; [done|].
  pose proof (send_message_run E chat_id Status notice w) as Hsend.
  rewrite Hno in Hsend. by rewrite (bind_raise _ _ _ _ _ Hsend).
Qed.

(** C3, as the code has it.  One dispatch processes at most five
    postings: the first five of
    the new ones, in the order of the aggregation, when the chat accepts
    the notice that announces the batch, and none when it refuses it (the
    dispatch then fails at the notice, before the loop).  Processing a
    posting is a whole turn of the loop: the draft is requested and the
    posting is sent, formatted or plain.  With twelve new postings (twelve
    ids), exactly five are processed once the notice is through, and in
    either case nothing happens about the other seven: they stay out of
    the tracker, so that the filter of the next invocation keeps them. *)
Theorem batch_cap (chat_id : Z) (profil : Profile) (jobs : list Job) (w : World) :
  let new_jobs := new_jobs_of (tracker w) jobs in
  let w' := exec (missions_dispatch E chat_id profil jobs) w in
  let evs := events_since w w' in
  let processed := drafted evs in
  let announced :=
    telegram E (clock w) chat_id
      (plain (msg_found (length new_jobs) (length (take 5 new_jobs)))) in
  (length processed <= 5)%nat /\
  (processed = [] \/ processed = take 5 new_jobs) /\
  (exists before turns after,
     evs = after ++ turns ++ before /\
     status_only before /\ status_only after /\
     batch_trace chat_id processed turns) /\
  (announced = true -> processed = take 5 new_jobs) /\
  (new_jobs <> [] -> announced = false ->
   processed = [] /\
   outcome (missions_dispatch E chat_id profil jobs) w = Raise TelegramError /\
   tracker w' = tracker w) /\
  (length new_jobs = 12%nat -> NoDup (job_id <$> new_jobs) ->
   (announced = true -> length processed = 5%nat) /\
   length (drop 5 new_jobs) = 7%nat /\
   forall j, j ∈ drop 5 new_jobs ->
     Forall (fun e => event_id e <> Some (job_id j)) evs /\
     (job_id j ∉ tracker w') /\ j ∈ new_jobs_of (tracker w') jobs).
Proof.
  intros new_jobs w' evs processed announced.
  destruct (missions_dispatch_run E chat_id profil jobs w)
    as (batch & before & turns & after & Htr & Hb & Ha & Hbatch & Hbor & Hbok & _).
  destruct (missions_dispatch_summary E chat_id profil jobs w)
    as (_ & _ & _ & Hdel & Hset & Hids & _).
  fold new_jobs w' evs announced in Htr, Hbor, Hbok, Hdel, Hset, Hids.
  assert (Hevs : evs = after ++ turns ++ before).
  { apply events_since_app. by rewrite Htr, !app_assoc. }
  assert (Hdr : processed = batch).
  { unfold processed. rewrite Hevs, !drafted_app.
    rewrite (status_only_drafted _ Ha), (status_only_drafted _ Hb), app_nil_r.
    simpl. by apply (batch_trace_drafted chat_id). }
  split; [rewrite Hdr; destruct Hbor as [-> | ->];
          [simpl; lia | rewrite length_take; lia]|].
  split; [by rewrite Hdr|].
  split; [exists before, turns, after; by rewrite Hdr|].
  split; [intros Hok; rewrite Hdr; by apply Hbok|].
  split.
  { intros Hnew Hno.
    pose proof (missions_dispatch_refused chat_id profil jobs w Hnew Hno) as Hrun.
    unfold processed, evs, w', outcome, exec. rewrite Hrun. cbn [fst snd].
    split; [|done].
    by rewrite (events_since_app w _
                  [EvSend chat_id Status
                     (plain (msg_found (length new_jobs)
                               (length (take 5 new_jobs)))) false]). }
  intros Hlen Hnodup.
  split; [intros Hok; rewrite Hdr, (Hbok Hok), length_take; lia|].
  split; [rewrite length_drop; lia|].
  intros j Hj.
  assert (Hjnew : j ∈ new_jobs).
  { rewrite <- (take_drop 5 new_jobs). apply elem_of_app. by right. }
  apply elem_of_new_jobs in Hjnew as [Hjobs Hunseen].
  assert (Hother : forall j', j' ∈ take 5 new_jobs -> job_id j' <> job_id j).
  { intros j' Hj' Heq.
    rewrite <- (take_drop 5 new_jobs), fmap_app in Hnodup.
    apply NoDup_app in Hnodup as (_ & Hdisj & _).
    apply (Hdisj (job_id j)).
    - rewrite <- Heq. by apply list_elem_of_fmap_2.
    - by apply list_elem_of_fmap_2. }
  assert (Hfresh : job_id j ∉ tracker w').
  { rewrite Hset. intros [Hin | Hpos]; [done|].
    pose proof (Hdel (job_id j)) as Hle.
    destruct (count_id_pos (job_id j) (take 5 new_jobs)) as (j' & Hj' & Heq); [lia|].
    by apply (Hother j'). }
  split; [|split; [done | by apply elem_of_new_jobs]].
  eapply Forall_impl; [exact Hids|].
  intros e [Hnone | (j' & Hj' & He)] Heq; [congruence|].
  rewrite He in Heq. injection Heq as Heq. by apply (Hother j').
Qed.

(** C4. In a batch, an id enters the tracker only right after a send for a
    posting with that id went through (the formatted send or the plain
    fallback); the loop never raises and reaches every posting of the
    batch; and when no send for X went through, X's id is still absent
    from the tracker, so the filter of a later dispatch keeps X. *)
Theorem mark_only_after_delivery (chat_id : Z) (profil : Profile)
    (batch : list Job) (w : World) :
  let w' := exec (process_batch E chat_id profil None batch) w in
  let evs := events_since w w' in
  outcome (process_batch E chat_id profil None batch) w = Ok tt /\
  drafted evs = batch /\
  marks_follow_delivery evs /\
  (forall id, id ∈ tracker w' <-> id ∈ tracker w \/ (0 < deliveries id evs)%nat) /\
  (forall X, X ∈ batch -> job_id X ∉ tracker w ->
     deliveries (job_id X) evs = 0%nat ->
     (job_id X ∉ tracker w') /\
     forall jobs, X ∈ jobs -> X ∈ new_jobs_of (tracker w') jobs).
Proof.
  intros w' evs.
  destruct (process_batch_run E chat_id profil batch None w)
    as (w1 & evs1 & Hrun & Htr & Hbatch & Hset & _).
  assert (Hw' : w' = w1) by (subst w'; unfold exec; by rewrite Hrun).
  assert (Hevs : evs = evs1).
  { subst evs. rewrite Hw'. by apply events_since_app. }
  rewrite Hevs, Hw'.
  assert (Hiff : forall id,
    id ∈ tracker w1 <-> id ∈ tracker w \/ (0 < deliveries id evs1)%nat).
  { intros id. rewrite Hset, elem_of_union, elem_of_list_to_set.
    rewrite (batch_trace_marked chat_id _ _ id Hbatch). tauto. }
  split; [unfold outcome; by rewrite Hrun|].
  split; [by apply (batch_trace_drafted chat_id)|].
  split; [by apply (batch_trace_marks chat_id batch)|].
  split; [done|].
  intros X HX Hunseen Hnone.
  assert (Hfresh : job_id X ∉ tracker w1).
  { rewrite Hiff. intros [?|?]; [done | lia]. }
  split; [done|]. intros jobs Hjobs. by apply elem_of_new_jobs.
Qed.

End DispatchClaims.

(** C3, as stated, fails: with twelve new postings and a chat that refuses
    the notice announcing the batch, the dispatch fails at that notice and
    processes none of them. *)
Lemma batch_notice_refused :
  new_jobs_of (tracker fresh_world) twelve_jobs = twelve_jobs /\
  length twelve_jobs = 12%nat /\
  NoDup (job_id <$> twelve_jobs) /\
  forall rt : PyRuntime,
    let run := @missions_dispatch rt deaf_env 1 PROFIL_DEFAUT twelve_jobs in
    let evs := events_since fresh_world (exec run fresh_world) in
    outcome run fresh_world = Raise TelegramError /\
    evs = [EvSend 1 Status (plain (msg_found 12 5)) false] /\
    drafted evs = [] /\
    length (drafted evs) <> 5%nat.
Proof.
  split; [vm_compute; reflexivity|]. split; [reflexivity|].
  split; [apply (@bool_decide_unpack _ (NoDup_dec _)); vm_compute; exact I|].
  intros rt run evs.
  assert (Hevs : evs = [EvSend 1 Status (plain (msg_found 12 5)) false])
    by (vm_compute; reflexivity).
  split; [vm_compute; reflexivity|]. split; [exact Hevs|].
  rewrite Hevs. split; [reflexivity | simpl; lia].
Qed.

(** ** [clean_html] *)

Section CleanHtmlFacts.
Context {rt : PyRuntime}.

(** *** Tags *)

Lemma tag_rest_length (seen : bool) (s r : pystr) :
  tag_rest seen s = Some r -> (length r < length s)%nat.
Proof.
  revert seen. induction s as [|c t IH]; intros seen; simpl; [done|].
  destruct (c =? GT).
  - destruct seen; [|done]. intros [= ->]. lia.
  - intros H%IH. lia.
Qed.

Lemma tag_rest_no_GT (seen : bool) (s : pystr) :
  GT ∉ s -> tag_rest seen s = None.
Proof.
  revert seen. induction s as [|c t IH]; intros seen Hno; simpl; [done|].
  destruct (N.eqb_spec c GT) as [-> | Hne].
  - exfalso. apply Hno. left.
  - apply IH. intros Hin. apply Hno. by right.
Qed.

Lemma tag_rest_None (s : pystr) :
  tag_rest false s = None -> (exists t, s = GT :: t) \/ GT ∉ s.
Proof.
  destruct s as [|c t]; simpl; [intros _; right; by intros ?%elem_of_nil|].
  destruct (N.eqb_spec c GT) as [-> | Hne]; [by eauto|].
  intros H. right.
  assert (Ht : GT ∉ t).
  { clear Hne. induction t as [|c' t IH]; [by intros ?%elem_of_nil|].
    simpl in H. destruct (N.eqb_spec c' GT) as [-> | Hne']; [done|].
    intros [?|?]%elem_of_cons; [done | by apply IH]. }
  intros [?|?]%elem_of_cons; done.
Qed.

Lemma tag_rest_body (seen : bool) (body post : pystr) :
  GT ∉ body ->
  tag_rest seen (body ++ GT :: post) =
    if seen || negb (bool_decide (body = [])) then Some post else None.
Proof.
  revert seen. induction body as [|c t IH]; intros seen Hno; simpl.
  - by destruct seen.
  - destruct (N.eqb_spec c GT) as [-> | Hne]; [exfalso; apply Hno; left|].
    rewrite IH by (intros ?; apply Hno; by right).
    by rewrite orb_true_r.
Qed.

Lemma contains_tag_has_tag (s : pystr) : contains_tag s -> has_tag s = true.
Proof.
  intros (pre & body & post & -> & Hne & Hno).
  induction pre as [|c pre IH]; simpl.
  - rewrite tag_rest_body by done.
    by destruct body as [|b body].
  - rewrite IH. apply orb_true_r.
Qed.

Lemma sub_tags_chars (n : nat) (s : pystr) (c : N) :
  c ∈ sub_tags n s -> c ∈ s \/ c = SPACE.
Proof.
  revert s. induction n as [|n IH]; intros s; simpl; [by left|].
  destruct s as [|c0 t]; [by left|].
  assert (Htail : forall r, (forall x, x ∈ r -> x ∈ t) ->
            c ∈ sub_tags n r -> c ∈ c0 :: t \/ c = SPACE).
  { intros r Hr [Hin | ->]%IH; [left; right; by apply Hr | by right]. }
  destruct (c0 =? LT).
  - destruct (tag_rest false t) as [rest|] eqn:Hrest.
    + intros [-> | Hin]%elem_of_cons; [by right|].
      revert Hin. apply Htail. intros x Hx.
      clear -Hrest Hx. revert Hrest. generalize false.
      induction t as [|c1 t IHt]; intros seen; simpl; [done|].
      destruct (c1 =? GT).
      * destruct seen; [|done]. intros [= ->]. by right.
      * intros H. right. by eapply IHt.
    + intros [-> | Hin]%elem_of_cons; [left; left|]. by apply (Htail t).
  - intros [-> | Hin]%elem_of_cons; [left; left|]. by apply (Htail t).
Qed.

Lemma sub_tags_GT (n : nat) (t : pystr) :
  sub_tags (S n) (GT :: t) = GT :: sub_tags n t.
Proof. done. Qed.

Lemma sub_tags_no_tag (n : nat) (s : pystr) :
  (length s <= n)%nat -> has_tag (sub_tags n s) = false.
Proof.
  revert s. induction n as [|n IH]; intros s Hlen.
  - destruct s; [done | simpl in Hlen; lia].
  - destruct s as [|c t]; [done|]. simpl in Hlen. simpl.
    destruct (N.eqb_spec c LT) as [-> | Hne].
    + destruct (tag_rest false t) as [rest|] eqn:Hrest.
      * simpl. apply IH. apply tag_rest_length in Hrest. lia.
      * simpl. rewrite IH by lia. rewrite orb_false_r.
        apply bool_decide_eq_false_2. intros [r Hr].
        destruct (tag_rest_None t Hrest) as [(t' & ->) | Hno].
        -- destruct n; [simpl in Hlen; lia|]. by rewrite sub_tags_GT in Hr.
        -- rewrite tag_rest_no_GT in Hr; [done|].
           intros [Hin | Heq]%sub_tags_chars; done.
    + simpl. rewrite (proj2 (N.eqb_neq c LT)) by done. simpl. apply IH. lia.
Qed.

(** [re.sub] leaves no tag behind. *)
Lemma strip_tags_no_tag (s : pystr) : ~ contains_tag (strip_tags s).
Proof.
  intros H%contains_tag_has_tag. unfold strip_tags in H.
  by rewrite sub_tags_no_tag in H.
Qed.

End CleanHtmlFacts.

Section WhiteSpace.
Context {rt : PyRuntime}.

Lemma spaces_single_app (a b : pystr) :
  spaces_single (a ++ b) = true ->
  spaces_single a = true /\ spaces_single b = true.
Proof.
  induction a as [|c a IH]; simpl; [done|].
  intros [Hc Hrest]%andb_true_iff. destruct (IH Hrest) as [Ha Hb].
  split; [|done]. rewrite Ha, andb_true_r.
  destruct a as [|c' a]; [|done].
  destruct (is_space c); [|done]. simpl in *.
  apply andb_true_iff in Hc as [-> _]. done.
Qed.

Lemma collapse_ws_head (s : pystr) :
  no_leading_space (collapse_ws true s) = true.
Proof.
  induction s as [|c t IH]; simpl; [done|].
  destruct (is_space c) eqn:Hc; [done|]. simpl. by rewrite Hc.
Qed.

Lemma collapse_ws_single (in_run : bool) (s : pystr) :
  spaces_single (collapse_ws in_run s) = true.
Proof.
  revert in_run. induction s as [|c t IH]; intros in_run; simpl; [done|].
  destruct (is_space c) eqn:Hc.
  - destruct in_run; [done|]. simpl. rewrite IH, andb_true_r.
    pose proof (collapse_ws_head t) as Hhead.
    by destruct (collapse_ws true t).
  - simpl. by rewrite Hc, IH.
Qed.

Lemma lstrip_suffix (s : pystr) : exists p, s = p ++ lstrip s.
Proof.
  induction s as [|c t [p IH]]; simpl; [by exists []|].
  destruct (is_space c); [|by exists []].
  exists (c :: p). simpl. by rewrite <- IH.
Qed.

Lemma lstrip_head (s : pystr) : no_leading_space (lstrip s) = true.
Proof.
  induction s as [|c t IH]; simpl; [done|].
  destruct (is_space c) eqn:Hc; [done|]. simpl. by rewrite Hc.
Qed.

Lemma rstrip_prefix (s : pystr) : exists q, s = rstrip s ++ q.
Proof.
  unfold rstrip. destruct (lstrip_suffix (rev s)) as [p Hp].
  exists (rev p). rewrite <- rev_app_distr, <- Hp. by rewrite rev_involutive.
Qed.

Lemma no_trailing_space_rev (s : pystr) :
  no_trailing_space (rev s) = no_leading_space s.
Proof.
  unfold no_trailing_space. destruct s as [|c t]; [done|].
  simpl. by rewrite last_snoc.
Qed.

Lemma rstrip_last (s : pystr) : no_trailing_space (rstrip s) = true.
Proof. unfold rstrip. rewrite no_trailing_space_rev. apply lstrip_head. Qed.

Lemma no_leading_space_prefix (a b : pystr) :
  no_leading_space (a ++ b) = true -> no_leading_space a = true.
Proof. by destruct a. Qed.

Lemma strip_single (s : pystr) :
  spaces_single s = true -> spaces_single (strip s) = true.
Proof.
  intros H. unfold strip.
  destruct (lstrip_suffix s) as [p Hp].
  destruct (rstrip_prefix (lstrip s)) as [q Hq].
  rewrite Hp in H. apply spaces_single_app in H as [_ H].
  rewrite Hq in H. by apply spaces_single_app in H as [H _].
Qed.

Lemma strip_head (s : pystr) : no_leading_space (strip s) = true.
Proof.
  unfold strip. destruct (rstrip_prefix (lstrip s)) as [q Hq].
  apply (no_leading_space_prefix _ q). rewrite <- Hq. apply lstrip_head.
Qed.

Lemma strip_last (s : pystr) : no_trailing_space (strip s) = true.
Proof. apply rstrip_last. Qed.

(** The text [clean_html] returns: single spaces only, none at either end. *)
Lemma clean_html_spaces (text : pystr) :
  spaces_single (clean_html text) = true /\
  no_leading_space (clean_html text) = true /\
  no_trailing_space (clean_html text) = true.
Proof.
  unfold clean_html. split; [|split].
  - apply strip_single, collapse_ws_single.
  - apply strip_head.
  - apply strip_last.
Qed.

(** Cutting at [n] characters keeps all of this but the end. *)
Lemma take_spaces (n : nat) (s : pystr) :
  spaces_single s = true -> no_leading_space s = true ->
  spaces_single (take n s) = true /\ no_leading_space (take n s) = true.
Proof.
  intros Hs Hh. rewrite <- (take_drop n s) in Hs, Hh. split.
  - by apply spaces_single_app in Hs as [Hs _].
  - by apply no_leading_space_prefix in Hh.
Qed.

End WhiteSpace.

(** ** The description of a posting *)

Section Description.
Context {rt : PyRuntime}.

Lemma clean_description_spec (v : json) (d : pystr) :
  clean_description v = Ok d ->
  exists raw, v = JStr raw /\ d = take 500 (clean_html raw).
Proof.
  unfold clean_description. destruct v; simpl; try done.
  intros [= <-]. eauto.
Qed.

Lemma remoteok_job_description (item : json) (j : Job) :
  remoteok_job item = Ok j ->
  exists v, get item (u "description") JNull = Ok v /\
            clean_description (py_or v (JStr [])) = Ok (job_description j).
Proof.
  unfold remoteok_job. destruct item; simpl; try done.
  destruct (clean_description _) as [d|e] eqn:Hd; simpl; [|done].
  intros [= <-]. simpl. eauto.
Qed.

Lemma arbeitnow_job_description (item : json) (j : Job) :
  arbeitnow_job item = Ok j ->
  exists v, get item (u "description") JNull = Ok v /\
            clean_description (py_or v (JStr [])) = Ok (job_description j).
Proof.
  unfold arbeitnow_job. destruct item; simpl; try done.
  destruct (clean_description _) as [d|e] eqn:Hd; simpl; [|done].
  intros [= <-]. simpl. eauto.
Qed.

(** C6, as the code has it.  The description of a posting an adapter
    returns is the first 500 characters of the cleaned raw description:
    every tag is replaced by a space before the character references are
    decoded, white space is collapsed to single spaces and trimmed at both
    ends, and only then is the text cut.  So the description has at most
    500 characters, single spaces only and none in front; it has none at
    the end either when the cleaned text fits in 500 characters. *)
Theorem posting_description (item : json) (j : Job) :
  remoteok_job item = Ok j \/ arbeitnow_job item = Ok j ->
  exists v raw,
    get item (u "description") JNull = Ok v /\
    py_or v (JStr []) = JStr raw /\
    job_description j = take 500 (clean_html raw) /\
    clean_html raw = strip (collapse_ws false (unescape (strip_tags raw))) /\
    ~ contains_tag (strip_tags raw) /\
    (length (job_description j) <= 500)%nat /\
    spaces_single (job_description j) = true /\
    no_leading_space (job_description j) = true /\
    no_trailing_space (clean_html raw) = true /\
    ((length (clean_html raw) <= 500)%nat ->
     no_trailing_space (job_description j) = true).
Proof.
  intros H.
  assert (exists v, get item (u "description") JNull = Ok v /\
            clean_description (py_or v (JStr [])) = Ok (job_description j))
    as (v & Hget & Hclean).
  { destruct H as [H|H];
      [by apply remoteok_job_description | by apply arbeitnow_job_description]. }
  destruct (clean_description_spec _ _ Hclean) as (raw & Hraw & Hd).
  destruct (clean_html_spaces raw) as (Hsingle & Hhead & Hlast).
  destruct (take_spaces 500 _ Hsingle Hhead) as [Hsingle' Hhead'].
  exists v, raw. rewrite Hd.
  split; [done|]. split; [done|]. split; [done|]. split; [done|].
  split; [apply strip_tags_no_tag|].
  split; [rewrite length_take; lia|].
  split; [done|]. split; [done|]. split; [done|].
  intros Hfit. by rewrite take_ge.
Qed.

End Description.

Lemma arbeitnow_job_obj {rt : PyRuntime} (fields : list (pystr * json)) :
  arbeitnow_job (JObj fields) =
    let field k dflt := default dflt (dict_lookup (u k) fields) in
    let? description :=
      clean_description (py_or (field "description"%string JNull) (JStr [])) in
    Ok {| job_id := u "abn-" ++ py_str (field "slug"%string (JStr []));
          job_title := field "title"%string (JStr (u "N/A"));
          job_company := field "company_name"%string (JStr (u "N/A"));
          job_url := field "url"%string (JStr []);
          job_description := description;
          job_source := u "Arbeitnow";
          job_date := field "created_at"%string (JStr []) |}.
Proof. reflexivity. Qed.

Lemma clean_html_entities {rt : PyRuntime} : clean_html (u "&lt;b&gt;") = u "<b>".
Proof.
  unfold clean_html.
  change (strip_tags (u "&lt;b&gt;")) with (u "&lt;b&gt;").
  unfold unescape.
  change (existsb (N.eqb AMP) (u "&lt;b&gt;")) with true. cbv iota.
  rewrite charref_sub_lt_gt. reflexivity.
Qed.

(** C6, as stated, fails twice.  The cut at 500 characters comes after
    the trimming, so the description of a posting can end with a space;
    and the tags are removed before the character references are decoded,
    so a tag spelled with references is in the description. *)
Lemma description_not_clean :
  (exists j,
     (forall rt : PyRuntime, @arbeitnow_job rt overlong_item = Ok j) /\
     length (job_description j) = 500%nat /\
     no_trailing_space (job_description j) = false) /\
  (exists j,
     (forall rt : PyRuntime, @arbeitnow_job rt entity_item = Ok j) /\
     job_description j = u "<b>" /\
     contains_tag (job_description j)).
Proof.
  split.
  - eexists. split; [intros rt; vm_compute; reflexivity|].
    split; vm_compute; reflexivity.
  - exists {| job_id := u "abn-"; job_title := JStr (u "React developer");
              job_company := JStr (u "N/A"); job_url := JStr [];
              job_description := u "<b>"; job_source := u "Arbeitnow";
              job_date := JStr [] |}.
    split; [|split; [reflexivity|]].
    + intros rt. unfold entity_item. rewrite arbeitnow_job_obj.
      change (py_or _ (JStr [])) with (JStr (u "&lt;b&gt;")).
      unfold clean_description. cbn [as_str rbind].
      rewrite clean_html_entities. vm_compute. reflexivity.
    + exists [], (u "b"), []. split; [reflexivity|]. split; [done|].
      vm_compute. by intros [?|?%elem_of_nil]%elem_of_cons.
Qed.

(** ** The keyword filter *)

Lemma startswith_spec (p s : pystr) :
  startswith p s = true <-> exists post, s = p ++ post.
Proof.
  revert s. induction p as [|x p IH]; intros s; simpl.
  - split; [intros _; by exists s | done].
  - destruct s as [|y s]; [split; [done | by intros [post ?]]|].
    rewrite andb_true_iff, N.eqb_eq, IH. split.
    + intros [-> [post ->]]. by exists post.
    + intros [post [= -> ->]]. split; [done | by exists post].
Qed.

Lemma contains_spec (kw s : pystr) :
  contains kw s = true <-> occurs_in kw s.
Proof.
  unfold occurs_in. induction s as [|c s IH]; simpl.
  - rewrite orb_false_r, startswith_spec. split.
    + intros [post ->]. by exists [], post.
    + intros (pre & post & H). destruct pre as [|? pre]; [by exists post|done].
  - rewrite orb_true_iff, startswith_spec, IH. split.
    + intros [[post ->] | (pre & post & ->)];
        [by exists [], post | by exists (c :: pre), post].
    + intros (pre & post & H). destruct pre as [|c' pre].
      * left. by exists post.
      * right. injection H as -> ->. by exists pre, post.
Qed.

Lemma is_relevant_spec (text : pystr) :
  is_relevant text = true <->
  exists kw, kw ∈ KEYWORDS /\ occurs_in kw text.
Proof.
  unfold is_relevant. rewrite existsb_exists. split.
  - intros (kw & Hin & H). exists kw. by rewrite list_elem_of_In, <- contains_spec.
  - intros (kw & Hin & H). exists kw. by rewrite <- list_elem_of_In, contains_spec.
Qed.

Section Lower.
Context {rt : PyRuntime}.

Lemma lower_from_ascii (whole : pystr) (i : nat) (s : pystr) :
  is_ascii s = true -> lower_from whole i s = map ascii_lower s.
Proof.
  revert i. induction s as [|c t IH]; intros i; simpl; [done|].
  intros [-> Ht]%andb_true_iff. simpl. by rewrite IH.
Qed.

(** On ASCII text [str.lower()] maps each capital letter to its small one. *)
Lemma lower_ascii (s : pystr) :
  is_ascii s = true -> lower s = map ascii_lower s.
Proof. apply lower_from_ascii. Qed.















End Lower.

Section KeywordFilter.


Section AnyCase.
Context {rt : PyRuntime}.







End AnyCase.


End KeywordFilter.

(** ** The ids of the postings *)

Lemma rmapM_elem {A B} (f : A -> result B) (l : list A) (ys : list B) (y : B) :
  rmapM f l = Ok ys -> y ∈ ys -> exists x, x ∈ l /\ f x = Ok y.
Proof.
  revert ys. induction l as [|x l IH]; intros ys; simpl.
  - intros [= <-] ?%elem_of_nil. done.
  - destruct (f x) as [y0|] eqn:Hx; [|done].
    destruct (rmapM f l) as [ys0|]; [|done].
    intros [= <-] [-> | Hin]%elem_of_cons.
    + exists x. split; [left | done].
    + destruct (IH ys0 eq_refl Hin) as (x' & Hx' & Hfx').
      exists x'. split; [by right | done].
Qed.

Section Ids.
Context {rt : PyRuntime}.

Lemma adapter_loop_elem (search_text : json -> result pystr)
    (job : json -> result Job) (items : list json) (jobs : list Job) (j : Job) :
  adapter_loop search_text job items = Ok jobs -> j ∈ jobs ->
  exists item, item ∈ items /\ job item = Ok j.
Proof.
  unfold adapter_loop.
  destruct (rmapM _ items) as [found|] eqn:Hfound; simpl; [|done].
  intros [= <-] Hj. apply list_elem_of_omap in Hj as (o & Ho & Hid).
  simpl in Hid. subst o.
  destruct (rmapM_elem _ _ _ _ Hfound Ho) as (item & Hitem & Hrun).
  exists item. split; [done|]. unfold adapter_item in Hrun.
  destruct (search_text item) as [text|]; simpl in Hrun; [|done].
  destruct (is_relevant text); [|done].
  destruct (job item) as [j'|]; simpl in Hrun; [|done]. congruence.
Qed.

Lemma remoteok_try_elem (reply : HttpReply) (j : Job) :
  j ∈ or_empty (remoteok_try reply) -> exists item, remoteok_job item = Ok j.
Proof.
  destruct (remoteok_try reply) as [jobs|] eqn:Htry; simpl;
    [|by intros ?%elem_of_nil].
  intros Hj. unfold remoteok_try in Htry.
  destruct reply as [|status [data|]]; try done;
    destruct (is_success status); try done.
  destruct (py_slice_from_1 data) as [rest|]; simpl in Htry; [|done].
  destruct (py_iter rest) as [items|]; simpl in Htry; [|done].
  destruct (adapter_loop_elem _ _ _ _ _ Htry Hj) as (item & _ & H). eauto.
Qed.

Lemma arbeitnow_try_elem (reply : HttpReply) (j : Job) :
  j ∈ or_empty (arbeitnow_try reply) -> exists item, arbeitnow_job item = Ok j.
Proof.
  destruct (arbeitnow_try reply) as [jobs|] eqn:Htry; simpl;
    [|by intros ?%elem_of_nil].
  intros Hj. unfold arbeitnow_try in Htry.
  destruct reply as [|status [data|]]; try done;
    destruct (is_success status); try done.
  destruct (get data (u "data") (JArr [])) as [listing|]; simpl in Htry; [|done].
  destruct (py_iter listing) as [items|]; simpl in Htry; [|done].
  destruct (adapter_loop_elem _ _ _ _ _ Htry Hj) as (item & _ & H). eauto.
Qed.

Lemma remoteok_job_id (item : json) (j : Job) :
  remoteok_job item = Ok j ->
  exists native, get item (u "id") (JStr []) = Ok native /\
                 job_id j = u "rok-" ++ py_str native.
Proof.
  unfold remoteok_job. destruct item; simpl; try done.
  destruct (clean_description _) as [d|e]; simpl; [|done].
  intros [= <-]. simpl. eauto.
Qed.

Lemma arbeitnow_job_id (item : json) (j : Job) :
  arbeitnow_job item = Ok j ->
  exists native, get item (u "slug") (JStr []) = Ok native /\
                 job_id j = u "abn-" ++ py_str native.
Proof.
  unfold arbeitnow_job. destruct item; simpl; try done.
  destruct (clean_description _) as [d|e]; simpl; [|done].
  intros [= <-]. simpl. eauto.
Qed.

(** C8, as the code has it.  An id is the prefix of its source, a dash and
    the text of the native id the source gave (nothing when it gave
    none); an id from RemoteOK is never an id from Arbeitnow; and two
    postings of one source have the same id exactly when their native ids
    have the same text. *)
Theorem posting_ids :
  (forall item j, remoteok_job item = Ok j ->
     exists native, get item (u "id") (JStr []) = Ok native /\
                    job_id j = u "rok-" ++ py_str native) /\
  (forall item j, arbeitnow_job item = Ok j ->
     exists native, get item (u "slug") (JStr []) = Ok native /\
                    job_id j = u "abn-" ++ py_str native) /\
  (forall reply_a reply_b ja jb,
     ja ∈ or_empty (remoteok_try reply_a) ->
     jb ∈ or_empty (arbeitnow_try reply_b) ->
     job_id ja <> job_id jb) /\
  (forall item1 item2 j1 j2 n1 n2,
     remoteok_job item1 = Ok j1 -> remoteok_job item2 = Ok j2 ->
     get item1 (u "id") (JStr []) = Ok n1 ->
     get item2 (u "id") (JStr []) = Ok n2 ->
     (job_id j1 = job_id j2 <-> py_str n1 = py_str n2)) /\
  (forall item1 item2 j1 j2 n1 n2,
     arbeitnow_job item1 = Ok j1 -> arbeitnow_job item2 = Ok j2 ->
     get item1 (u "slug") (JStr []) = Ok n1 ->
     get item2 (u "slug") (JStr []) = Ok n2 ->
     (job_id j1 = job_id j2 <-> py_str n1 = py_str n2)).
Proof.
  split; [exact remoteok_job_id|]. split; [exact arbeitnow_job_id|].
  split; [|split].
  - intros ra rb ja jb (ia & Ha)%remoteok_try_elem (ib & Hb)%arbeitnow_try_elem.
    apply remoteok_job_id in Ha as (na & _ & ->).
    apply arbeitnow_job_id in Hb as (nb & _ & ->).
    vm_compute (u "rok-"). vm_compute (u "abn-"). simpl. congruence.
  - intros item1 item2 j1 j2 n1 n2 (m1 & Hm1 & ->)%remoteok_job_id
      (m2 & Hm2 & ->)%remoteok_job_id Hn1 Hn2.
    assert (m1 = n1) as -> by congruence. assert (m2 = n2) as -> by congruence.
    split; [apply app_inv_head | by intros ->].
  - intros item1 item2 j1 j2 n1 n2 (m1 & Hm1 & ->)%arbeitnow_job_id
      (m2 & Hm2 & ->)%arbeitnow_job_id Hn1 Hn2.
    assert (m1 = n1) as -> by congruence. assert (m2 = n2) as -> by congruence.
    split; [apply app_inv_head | by intros ->].
Qed.

End Ids.

(** C8, as stated, fails: nothing makes the ids of one fetch differ.  Two
    different postings that come without a native id both get the id
    [rok-], and [fetch_jobs] returns them both. *)
Lemma same_id_twice :
  exists j1 j2,
    (forall rt : PyRuntime,
       outcome (@fetch_jobs rt twins_env) fresh_world = Ok [j1; j2]) /\
    job_title j1 <> job_title j2 /\
    job_id j1 = job_id j2.
Proof.
  eexists. eexists. split; [intros rt; vm_compute; reflexivity|].
  split; [simpl; congruence | reflexivity].
Qed.

(** ** The aggregator *)

Section Aggregator.
Context {rt : PyRuntime} (E : Env).

Lemma fetch_jobs_run (w : World) :
  fetch_jobs E w =
    (Ok (fetched_jobs E (clock w)),
     log_event (EvGet ARBEITNOW_URL (http_get E (S (clock w)) ARBEITNOW_URL))
       (log_event (EvGet REMOTEOK_URL (http_get E (clock w) REMOTEOK_URL)) w)).
Proof. done. Qed.

Lemma remoteok_unavailable (reply : HttpReply) :
  source_unavailable remoteok_try reply -> or_empty (remoteok_try reply) = [].
Proof.
  destruct 1 as [|status body Hst|status|status data e Hraise]; simpl.
  - done.
  - by rewrite Hst.
  - by destruct (is_success status).
  - unfold remoteok_try in Hraise. by rewrite Hraise.
Qed.

Lemma arbeitnow_unavailable (reply : HttpReply) :
  source_unavailable arbeitnow_try reply -> or_empty (arbeitnow_try reply) = [].
Proof.
  destruct 1 as [|status body Hst|status|status data e Hraise]; simpl.
  - done.
  - by rewrite Hst.
  - by destruct (is_success status).
  - unfold arbeitnow_try in Hraise. by rewrite Hraise.
Qed.

(** C2. [fetch_jobs] never raises: it returns the postings of RemoteOK
    followed by those of Arbeitnow, a source that fails counting for none.
    So when one source fails and the other returns a list, the result is
    exactly that list. *)
Theorem partial_source_failure (w : World) :
  let reply_a := http_get E (clock w) REMOTEOK_URL in
  let reply_b := http_get E (S (clock w)) ARBEITNOW_URL in
  outcome (fetch_jobs E) w =
    Ok (or_empty (remoteok_try reply_a) ++ or_empty (arbeitnow_try reply_b)) /\
  (forall jobs_b,
     source_unavailable remoteok_try reply_a ->
     arbeitnow_try reply_b = Ok jobs_b ->
     outcome (fetch_jobs E) w = Ok jobs_b) /\
  (forall jobs_a,
     remoteok_try reply_a = Ok jobs_a ->
     source_unavailable arbeitnow_try reply_b ->
     outcome (fetch_jobs E) w = Ok jobs_a).
Proof.
  intros reply_a reply_b. unfold outcome. rewrite fetch_jobs_run. simpl.
  unfold fetched_jobs. fold reply_a reply_b.
  split; [done|]. split.
  - intros jobs_b Ha Hb. by rewrite (remoteok_unavailable _ Ha), Hb.
  - intros jobs_a Ha Hb. rewrite (arbeitnow_unavailable _ Hb), Ha. simpl.
    by rewrite app_nil_r.
Qed.

End Aggregator.

(** ** The draft generator *)

Section GeneratorClaim.
Context {rt : PyRuntime} (E : Env).




End GeneratorClaim.

(** ** The toggle and the scheduled path *)

Section Auto.
Context {rt : PyRuntime} (E : Env).

(** C9, as the code has it.  The toggle flips [auto_enabled] and leaves
    the profile and the tracker alone; switching off keeps the stored
    destination, switching on stores the chat the toggle came from. *)
Theorem auto_toggle (chat_id : Z) (w : World) :
  let was_on := default false (bd_auto_enabled (bot_data w)) in
  let w' := exec (auto_command E chat_id) w in
  bd_auto_enabled (bot_data w') = Some (negb was_on) /\
  bd_profile (bot_data w') = bd_profile (bot_data w) /\
  bd_sent_jobs (bot_data w') = bd_sent_jobs (bot_data w) /\
  bd_auto_chat_id (bot_data w') =
    (if was_on then bd_auto_chat_id (bot_data w) else Some chat_id).
Proof.
  intros was_on w'. subst w'. unfold exec, auto_command. fold was_on.
  by destruct was_on.
Qed.

Lemma scheduled_idle_run (w : World) :
  auto_active w = false -> scheduled_prospection E w = (Ok tt, w).
Proof.
  unfold auto_active, scheduled_prospection.
  destruct (default false (bd_auto_enabled (bot_data w))); simpl; [|done].
  destruct (no_destination _); [done|]. done.
Qed.

End Auto.

Section Scheduled.
Context {rt : PyRuntime} (E : Env).

Lemma scheduled_nothing_new (w : World) :
  auto_active w = true ->
  new_jobs_of (tracker w) (fetched_jobs E (clock w)) = [] ->
  let w' := exec (scheduled_prospection E) w in
  outcome (scheduled_prospection E) w = Ok tt /\
  sends (events_since w w') = [] /\
  tracker w' = tracker w /\
  same_settings w w'.
Proof.
  unfold auto_active. intros [Hon Hdest]%andb_true_iff Hnew.
  apply negb_true_iff in Hdest.
  unfold outcome, exec, scheduled_prospection. rewrite Hon, Hdest. simpl.
  unfold bind, get_profile, setdefault_sent_jobs. rewrite fetch_jobs_run.
  unfold scheduled_dispatch.
  set (w0 := set_bot_data _ w).
  assert (Htr : tracker w0 = tracker w) by done.
  rewrite !tracker_log_event, Htr. simpl clock. rewrite Hnew.
  unfold ret. simpl.
  split; [done|]. split; [|split; [done|by repeat split]].
  by rewrite (events_since_app _ _
    [EvGet ARBEITNOW_URL (http_get E (S (clock w)) ARBEITNOW_URL);
     EvGet REMOTEOK_URL (http_get E (clock w) REMOTEOK_URL)]).
Qed.

Lemma missions_nothing_new (chat_id : Z) (w : World) :
  telegram E (clock w) chat_id (plain MSG_SEARCHING) = true ->
  new_jobs_of (tracker w) (fetched_jobs E (S (clock w))) = [] ->
  let w' := exec (missions_command E chat_id) w in
  exists ok,
    sends (events_since w w') =
      [EvSend chat_id Status (plain MSG_NOTHING_NEW) ok;
       EvSend chat_id Status (plain MSG_SEARCHING) true].
Proof.
  intros Hok Hnew. unfold exec, missions_command.
  unfold bind at 1. rewrite send_message_run, Hok.
  unfold bind, get_profile, setdefault_sent_jobs. rewrite fetch_jobs_run.
  unfold missions_dispatch.
  set (w0 := set_bot_data _ _).
  assert (Htr : tracker w0 = tracker w) by done.
  rewrite !tracker_log_event, Htr. simpl clock. rewrite Hnew.
  rewrite send_message_run. cbn [snd].
  set (w3 := log_event _ (log_event _ w0)).
  exists (telegram E (clock w3) chat_id (plain MSG_NOTHING_NEW)).
  by rewrite (events_since_app _ _
    [EvSend chat_id Status (plain MSG_NOTHING_NEW)
       (telegram E (clock w3) chat_id (plain MSG_NOTHING_NEW));
     EvGet ARBEITNOW_URL (http_get E (S (S (clock w))) ARBEITNOW_URL);
     EvGet REMOTEOK_URL (http_get E (S (clock w)) REMOTEOK_URL);
     EvSend chat_id Status (plain MSG_SEARCHING) true]).
Qed.

(** C10. While auto-mode is off, or no destination is stored, the
    scheduled path returns at once and leaves the world as it was: no
    call, no message, the same [bot_data].  With auto-mode on and nothing
    new it sends nothing either and changes neither the tracker nor the
    other settings, where the on-demand command sends its notice that
    there is nothing new. *)
Theorem scheduled_path_idle (w : World) :
  (default false (bd_auto_enabled (bot_data w)) = false \/
   no_destination (bd_auto_chat_id (bot_data w)) = true ->
   scheduled_prospection E w = (Ok tt, w)) /\
  (auto_active w = true ->
   new_jobs_of (tracker w) (fetched_jobs E (clock w)) = [] ->
   outcome (scheduled_prospection E) w = Ok tt /\
   sends (events_since w (exec (scheduled_prospection E) w)) = [] /\
   tracker (exec (scheduled_prospection E) w) = tracker w /\
   same_settings w (exec (scheduled_prospection E) w)) /\
  (forall chat_id,
     telegram E (clock w) chat_id (plain MSG_SEARCHING) = true ->
     new_jobs_of (tracker w) (fetched_jobs E (S (clock w))) = [] ->
     exists ok,
       sends (events_since w (exec (missions_command E chat_id) w)) =
         [EvSend chat_id Status (plain MSG_NOTHING_NEW) ok;
          EvSend chat_id Status (plain MSG_SEARCHING) true]).
Proof.
  split; [|split].
  - intros H. apply scheduled_idle_run. unfold auto_active.
    destruct H as [-> | ->]; [done | apply andb_false_r].
  - exact (scheduled_nothing_new w).
  - intros chat_id. exact (missions_nothing_new chat_id w).
Qed.

End Scheduled.

(** C9, as stated, fails: switching auto-mode on again from another chat
    does not reuse the stored destination, it replaces it.  Chat 111
    switches on, then off; chat 222 switches on. *)
Lemma reenable_overwrites_destination :
  let w1 := exec (auto_command quiet_env 111) fresh_world in
  let w2 := exec (auto_command quiet_env 111) w1 in
  let w3 := exec (auto_command quiet_env 222) w2 in
  bd_auto_enabled (bot_data w2) = Some false /\
  bd_auto_chat_id (bot_data w2) = Some 111%Z /\
  bd_auto_enabled (bot_data w3) = Some true /\
  bd_auto_chat_id (bot_data w3) = Some 222%Z /\
  bd_auto_chat_id (bot_data w3) <> bd_auto_chat_id (bot_data w2).
Proof. vm_compute. repeat split; congruence. Qed.

(** ** The theorems on concrete inputs *)

(** One posting dispatched twice while everything works: delivered once. *)
Lemma dispatch_twice_delivers_once_witness :
  let P := react_job 1 in
  let run := @missions_dispatch example_runtime quiet_env 1 PROFIL_DEFAUT [P] in
  let w1 := exec run fresh_world in
  let w2 := exec run w1 in
  (count_id (job_id P) [P] <= 1)%nat /\
  deliveries (job_id P) (events_since fresh_world w1) = 1%nat /\
  (deliveries (job_id P) (events_since fresh_world w2) <= 1)%nat /\
  job_id P ∈ tracker w1.
Proof.
  intros P run w1 w2.
  assert (Hc : (count_id (job_id P) [P] <= 1)%nat) by (vm_compute; lia).
  assert (Hd : deliveries (job_id P) (events_since fresh_world w1) = 1%nat)
    by (vm_compute; reflexivity).
  destruct (@dispatch_twice_delivers_once example_runtime quiet_env 1
              PROFIL_DEFAUT [P] [P] P fresh_world Hc Hc) as [Hle Hpos].
  split; [exact Hc|]. split; [exact Hd|]. split; [exact Hle|].
  apply Hpos. fold run w1. rewrite Hd. lia.
Defined.

(** RemoteOK does not answer and Arbeitnow lists one posting. *)
Lemma partial_source_failure_witness :
  exists jobs_b,
    source_unavailable (@remoteok_try example_runtime)
      (http_get half_env 0 REMOTEOK_URL) /\
    @arbeitnow_try example_runtime (http_get half_env 1 ARBEITNOW_URL) = Ok jobs_b /\
    length jobs_b = 1%nat /\
    outcome (@fetch_jobs example_runtime half_env) fresh_world = Ok jobs_b.
Proof.
  eexists.
  assert (Ha : source_unavailable (@remoteok_try example_runtime)
                 (http_get half_env 0 REMOTEOK_URL)) by constructor.
  split; [exact Ha|].
  split; [vm_compute; reflexivity|]. split; [reflexivity|].
  pose proof (@partial_source_failure example_runtime half_env fresh_world) as H.
  cbv zeta in H. destruct H as (_ & Hb & _).
  apply Hb; [exact Ha | vm_compute; reflexivity].
Defined.

(** Twelve new postings and a chat that accepts: five processed, nothing
    about the sixth, the sixth and the twelfth left for the next time. *)
Lemma batch_cap_witness :
  let run := @missions_dispatch example_runtime quiet_env 1 PROFIL_DEFAUT twelve_jobs in
  let w' := exec run fresh_world in
  telegram quiet_env 0 1 (plain (msg_found 12 5)) = true /\
  length (new_jobs_of (tracker fresh_world) twelve_jobs) = 12%nat /\
  NoDup (job_id <$> new_jobs_of (tracker fresh_world) twelve_jobs) /\
  drafted (events_since fresh_world w') = take 5 twelve_jobs /\
  length (drafted (events_since fresh_world w')) = 5%nat /\
  Forall (fun e => event_id e <> Some (job_id (react_job 6)))
    (events_since fresh_world w') /\
  (job_id (react_job 6) ∉ tracker w') /\
  react_job 12 ∈ new_jobs_of (tracker w') twelve_jobs.
Proof.
  intros run w'.
  assert (Hnew : new_jobs_of (tracker fresh_world) twelve_jobs = twelve_jobs)
    by (vm_compute; reflexivity).
  assert (Hnodup : NoDup (job_id <$> twelve_jobs)).
  { apply (@bool_decide_unpack _ (NoDup_dec _)). vm_compute. exact I. }
  pose proof (@batch_cap example_runtime quiet_env 1 PROFIL_DEFAUT twelve_jobs
                fresh_world) as H.
  cbv zeta in H. rewrite Hnew in H. fold run w' in H.
  destruct H as (_ & _ & _ & Hdr & _ & Hrest).
  destruct (Hrest eq_refl Hnodup) as (Hfive & _ & Hleft).
  split; [reflexivity|]. rewrite Hnew. split; [reflexivity|].
  split; [exact Hnodup|].
  split; [exact (Hdr eq_refl)|]. split; [exact (Hfive eq_refl)|].
  assert (H6 : react_job 6 ∈ drop 5 twelve_jobs)
    by (vm_compute; apply list_elem_of_here).
  assert (H12 : react_job 12 ∈ drop 5 twelve_jobs).
  { vm_compute. do 6 apply list_elem_of_further. apply list_elem_of_here. }
  destruct (Hleft _ H6) as (Hnone & Hout & _).
  destruct (Hleft _ H12) as (_ & _ & Hkept).
  split; [exact Hnone|]. split; [exact Hout | exact Hkept].
Defined.

(** The chat refuses every message: nothing is marked. *)
Lemma mark_only_after_delivery_witness :
  let X := react_job 1 in
  let batch := [X; react_job 2] in
  let run := @process_batch example_runtime deaf_env 1 PROFIL_DEFAUT None batch in
  let w' := exec run fresh_world in
  deliveries (job_id X) (events_since fresh_world w') = 0%nat /\
  outcome run fresh_world = Ok tt /\
  drafted (events_since fresh_world w') = batch /\
  (job_id X ∉ tracker w') /\
  X ∈ new_jobs_of (tracker w') batch.
Proof.
  intros X batch run w'.
  pose proof (@mark_only_after_delivery example_runtime deaf_env 1 PROFIL_DEFAUT
                batch fresh_world) as H.
  cbv zeta in H. fold run w' in H.
  destruct H as (Hok & Hdr & _ & _ & Hretry).
  assert (Hnone : deliveries (job_id X) (events_since fresh_world w') = 0%nat)
    by (vm_compute; reflexivity).
  destruct (Hretry X) as [Hfresh Hagain].
  { apply list_elem_of_here. }
  { unfold tracker; simpl. apply not_elem_of_empty. }
  { exact Hnone. }
  split; [exact Hnone|]. split; [exact Hok|]. split; [exact Hdr|].
  split; [exact Hfresh|]. apply Hagain, list_elem_of_here.
Defined.


(** The description that is cut at 500 characters. *)
Lemma posting_description_witness :
  exists j,
    @arbeitnow_job example_runtime overlong_item = Ok j /\
    (length (job_description j) <= 500)%nat /\
    spaces_single (job_description j) = true /\
    no_leading_space (job_description j) = true.
Proof.
  eexists. split; [vm_compute; reflexivity|].
  destruct (@posting_description example_runtime overlong_item _
              (or_intror eq_refl))
    as (v & raw & _ & _ & _ & _ & _ & Hlen & Hsingle & Hhead & _).
  split; [exact Hlen|]. split; [exact Hsingle | exact Hhead].
Defined.


(** A posting of each source. *)
Lemma posting_ids_witness :
  exists ja jb,
    ja ∈ or_empty (@remoteok_try example_runtime (Reply 200 (Some remoteok_twins))) /\
    jb ∈ or_empty (@arbeitnow_try example_runtime (http_get half_env 1 ARBEITNOW_URL)) /\
    job_id ja <> job_id jb.
Proof.
  eexists. eexists.
  assert (Ha : forall j l, or_empty (@remoteok_try example_runtime
                 (Reply 200 (Some remoteok_twins))) = j :: l ->
               j ∈ or_empty (@remoteok_try example_runtime
                 (Reply 200 (Some remoteok_twins)))).
  { intros j l ->. apply list_elem_of_here. }
  assert (Hb : forall j l, or_empty (@arbeitnow_try example_runtime
                 (http_get half_env 1 ARBEITNOW_URL)) = j :: l ->
               j ∈ or_empty (@arbeitnow_try example_runtime
                 (http_get half_env 1 ARBEITNOW_URL))).
  { intros j l ->. apply list_elem_of_here. }
  specialize (Ha _ _ ltac:(vm_compute; reflexivity)).
  specialize (Hb _ _ ltac:(vm_compute; reflexivity)).
  split; [exact Ha|]. split; [exact Hb|].
  destruct (@posting_ids example_runtime) as (_ & _ & Hcross & _).
  exact (Hcross _ _ _ _ Ha Hb).
Defined.

(** Auto-mode was never switched on. *)
Lemma scheduled_path_idle_witness :
  default false (bd_auto_enabled (bot_data fresh_world)) = false /\
  @scheduled_prospection example_runtime quiet_env fresh_world = (Ok tt, fresh_world).
Proof.
  split; [reflexivity|].
  destruct (@scheduled_path_idle example_runtime quiet_env fresh_world) as (Hidle & _).
  apply Hidle. left. reflexivity.
Defined.

(** * Further properties of the code *)

(** ** [escape_md] *)

Lemma contains_singleton (c : N) (s : pystr) :
  contains [c] s = existsb (N.eqb c) s.
Proof.
  induction s as [|h t IH]; simpl; [done|].
  by rewrite IH, andb_true_r.
Qed.

Lemma escape_item_char (c : N) :
  escape_item (JStr [c]) = Ok (if is_md_special c then [BACKSLASH; c] else [c]).
Proof.
  unfold escape_item, is_md_special. cbn [as_str rbind].
  by rewrite contains_singleton.
Qed.

Lemma rmapM_escape_chars (s : pystr) :
  rmapM escape_item (map (fun c => JStr [c]) s) =
    Ok (map (fun c => if is_md_special c then [BACKSLASH; c] else [c]) s).
Proof.
  induction s as [|c t IH]; [done|].
  cbn [map rmapM]. rewrite IH, escape_item_char. reflexivity.
Qed.

Lemma escape_md_str (s : pystr) : escape_md (JStr s) = Ok (escaped s).
Proof.
  unfold escape_md, escaped. cbn [py_iter rbind].
  rewrite rmapM_escape_chars. cbn [rbind].
  f_equal. induction s as [|c t IH]; [done|].
  cbn [map concat flat_map]. by rewrite IH.
Qed.

Lemma escaped_head (s : pystr) :
  match escaped s with
  | [] => True
  | d :: _ => is_md_special d = false
  end.
Proof.
  destruct s as [|c t]; simpl; [done|].
  by destruct (is_md_special c) eqn:Hc.
Qed.

Lemma unescape_md_escaped (s : pystr) : unescape_md (escaped s) = s.
Proof.
  induction s as [|c t IH]; [done|].
  change (escaped (c :: t))
    with ((if is_md_special c then [BACKSLASH; c] else [c]) ++ escaped t).
  destruct (is_md_special c) eqn:Hc.
  - simpl. by rewrite Hc, IH.
  - simpl. destruct (N.eqb_spec c BACKSLASH) as [-> | Hne]; [|by rewrite IH].
    pose proof (escaped_head t) as Hhead.
    destruct (escaped t) as [|d r] eqn:Hesc.
    + by rewrite <- IH.
    + rewrite Hhead. by rewrite IH.
Qed.

Lemma specials_escaped_escaped (b : bool) (s : pystr) :
  specials_escaped b (escaped s) = true.
Proof.
  revert b. induction s as [|c t IH]; intros b; [done|].
  change (escaped (c :: t))
    with ((if is_md_special c then [BACKSLASH; c] else [c]) ++ escaped t).
  destruct (is_md_special c) eqn:Hc; simpl.
  - by rewrite IH, orb_true_r.
  - by rewrite Hc, IH.
Qed.

Lemma length_escaped (s : pystr) :
  length (escaped s) = (length s + count_special s)%nat.
Proof.
  unfold count_special. induction s as [|c t IH]; [done|].
  change (escaped (c :: t))
    with ((if is_md_special c then [BACKSLASH; c] else [c]) ++ escaped t).
  rewrite length_app, IH. simpl.
  destruct (is_md_special c); simpl; lia.
Qed.

(** X1. On a string [escape_md] never raises, and its result reads back:
    dropping the backslash in front of each special character gives the
    original text.  So two different texts are never escaped to the same
    one. *)
Theorem escape_md_round_trip :
  (forall s, exists out,
     escape_md (JStr s) = Ok out /\ unescape_md out = s) /\
  (forall s1 s2, escape_md (JStr s1) = escape_md (JStr s2) -> s1 = s2).
Proof.
  split.
  - intros s. exists (escaped s). split; [apply escape_md_str|].
    apply unescape_md_escaped.
  - intros s1 s2. rewrite !escape_md_str. intros [= H].
    by rewrite <- (unescape_md_escaped s1), H, unescape_md_escaped.
Qed.

(** X2. In the result of [escape_md] every special character of
    MarkdownV2 has a backslash right before it; the result is longer than
    the text by the number of its special characters, and a text is left
    as it is exactly when it has none. *)
Theorem escape_md_escapes_all (s out : pystr) :
  escape_md (JStr s) = Ok out ->
  specials_escaped false out = true /\
  length out = (length s + count_special s)%nat /\
  (out = s <-> count_special s = 0%nat).
Proof.
  rewrite escape_md_str. intros [= <-].
  split; [apply specials_escaped_escaped|].
  split; [apply length_escaped|].
  split.
  - intros H. pose proof (length_escaped s) as Hlen. rewrite H in Hlen. lia.
  - unfold count_special, escaped.
    induction s as [|c t IH]; simpl; [done|].
    destruct (is_md_special c); simpl; [done|]. intros H. by rewrite IH.
Qed.

Lemma escape_md_escapes_all_witness :
  escape_md (JStr (u "a_b.c")) = Ok (u "a\_b\.c") /\
  specials_escaped false (u "a\_b\.c") = true /\
  length (u "a\_b\.c") = 7%nat.
Proof.
  assert (H : escape_md (JStr (u "a_b.c")) = Ok (u "a\_b\.c"))
    by (vm_compute; reflexivity).
  destruct (escape_md_escapes_all _ _ H) as (Hesc & Hlen & _).
  split; [exact H|]. split; [exact Hesc|]. exact Hlen.
Defined.

(** ** The loop of an adapter *)

Lemma rmapM_raise {A B} (f : A -> result B) (l : list A) (x : A) (e : exn) :
  x ∈ l -> f x = Raise e -> exists e', rmapM f l = Raise e'.
Proof.
  induction l as [|y l IH]; [by intros ?%elem_of_nil|].
  intros [-> | Hin]%elem_of_cons Hx; simpl.
  - rewrite Hx. eauto.
  - destruct (f y); [|eauto].
    destruct (IH Hin Hx) as [e' ->]. eauto.
Qed.

Lemma rmapM_Forall2 {A B} (f : A -> result B) (l : list A) (ys : list B) :
  rmapM f l = Ok ys -> Forall2 (fun x y => f x = Ok y) l ys.
Proof.
  revert ys. induction l as [|x l IH]; intros ys; simpl.
  - intros [= <-]. constructor.
  - destruct (f x) as [y|] eqn:Hx; [|done].
    destruct (rmapM f l) as [ys0|]; [|done].
    intros [= <-]. constructor; [done | by apply IH].
Qed.

Section AdapterLoop.
Context {rt : PyRuntime}.

Lemma remoteok_search_text_not_object (item : json) :
  is_object item = false -> remoteok_search_text item = Raise AttributeError.
Proof. by destruct item. Qed.

Lemma arbeitnow_search_text_not_object (item : json) :
  is_object item = false -> arbeitnow_search_text item = Raise AttributeError.
Proof. by destruct item. Qed.

Lemma adapter_loop_raise (search_text : json -> result pystr)
    (job : json -> result Job) (items : list json) (bad : json) (e : exn) :
  bad ∈ items -> search_text bad = Raise e ->
  or_empty (adapter_loop search_text job items) = [].
Proof.
  intros Hin Hbad. unfold adapter_loop.
  destruct (rmapM_raise (adapter_item search_text job) items bad e Hin)
    as [e' ->]; [|done].
  unfold adapter_item. by rewrite Hbad.
Qed.

(** X3. One record that is not an object costs the whole source: when
    any element after the first of a RemoteOK answer, or any element of
    the list under ["data"] of an Arbeitnow answer, is not a JSON object,
    the adapter returns no posting at all, whatever the other records
    are. *)
Theorem malformed_record_empties_source (status : Z) (bad : json) :
  is_success status = true -> is_object bad = false ->
  (forall first items,
     bad ∈ items ->
     or_empty (remoteok_try (Reply status (Some (JArr (first :: items))))) = []) /\
  (forall fields items,
     dict_lookup (u "data") fields = Some (JArr items) ->
     bad ∈ items ->
     or_empty (arbeitnow_try (Reply status (Some (JObj fields)))) = []).
Proof.
  intros Hst Hbad. split.
  - intros first items Hin. unfold remoteok_try. rewrite Hst.
    cbn [py_slice_from_1 tail rbind py_iter].
    eapply adapter_loop_raise; [exact Hin|].
    by apply remoteok_search_text_not_object.
  - intros fields items Hdata Hin. unfold arbeitnow_try. rewrite Hst.
    unfold get. rewrite Hdata. cbn [default rbind py_iter].
    eapply adapter_loop_raise; [exact Hin|].
    by apply arbeitnow_search_text_not_object.
Qed.

Lemma adapter_loop_kept (search_text : json -> result pystr)
    (job : json -> result Job) (items : list json) (jobs : list Job) :
  adapter_loop search_text job items = Ok jobs ->
  exists kept,
    kept `sublist_of` items /\
    Forall2 (fun item j =>
               job item = Ok j /\
               exists text, search_text item = Ok text /\ is_relevant text = true)
            kept jobs /\
    (forall item text, item ∈ items -> search_text item = Ok text ->
       is_relevant text = true -> item ∈ kept).
Proof.
  unfold adapter_loop.
  destruct (rmapM _ items) as [found|] eqn:Hfound; simpl; [|done].
  intros [= <-]. apply rmapM_Forall2 in Hfound.
  induction Hfound as [|item o items found Hitem Hrest IH].
  - exists []. split; [done|]. split; [constructor|].
    by intros ? ? ?%elem_of_nil.
  - destruct IH as (kept & Hsub & Hall & Hin).
    unfold adapter_item in Hitem.
    destruct (search_text item) as [text|] eqn:Htext; simpl in Hitem; [|done].
    destruct (is_relevant text) eqn:Hrel.
    + destruct (job item) as [j|] eqn:Hjob; simpl in Hitem; [|done].
      injection Hitem as <-. exists (item :: kept).
      split; [by apply sublist_skip|]. split.
      * simpl. constructor; [|done]. split; [done|]. eauto.
      * intros item' text' [-> | Hin']%elem_of_cons Ht' Hr'; [left|].
        right. by eapply Hin.
    + injection Hitem as <-. exists kept.
      split; [by apply sublist_cons|]. split; [done|].
      intros item' text' [-> | Hin']%elem_of_cons Ht' Hr'.
      * congruence.
      * by eapply Hin.
Qed.

(** X4. What an adapter returns is, in the order of the source, one
    posting for each record whose search text holds a keyword, and nothing
    else; for RemoteOK the records are the elements after the first, which
    is never read. *)
Theorem adapter_keeps_relevant_in_order (status : Z) (jobs : list Job) :
  (forall first items,
     remoteok_try (Reply status (Some (JArr (first :: items)))) = Ok jobs ->
     exists kept,
       kept `sublist_of` items /\
       Forall2 (fun item j =>
                  remoteok_job item = Ok j /\
                  exists text, remoteok_search_text item = Ok text /\
                               is_relevant text = true) kept jobs /\
       (forall item text, item ∈ items ->
          remoteok_search_text item = Ok text ->
          is_relevant text = true -> item ∈ kept)) /\
  (forall fields items,
     dict_lookup (u "data") fields = Some (JArr items) ->
     arbeitnow_try (Reply status (Some (JObj fields))) = Ok jobs ->
     exists kept,
       kept `sublist_of` items /\
       Forall2 (fun item j =>
                  arbeitnow_job item = Ok j /\
                  exists text, arbeitnow_search_text item = Ok text /\
                               is_relevant text = true) kept jobs /\
       (forall item text, item ∈ items ->
          arbeitnow_search_text item = Ok text ->
          is_relevant text = true -> item ∈ kept)).
Proof.
  split.
  - intros first items. unfold remoteok_try.
    destruct (is_success status); [|done].
    cbn [py_slice_from_1 tail rbind py_iter]. apply adapter_loop_kept.
  - intros fields items Hdata. unfold arbeitnow_try.
    destruct (is_success status); [|done].
    unfold get. rewrite Hdata. cbn [default rbind py_iter].
    apply adapter_loop_kept.
Qed.

End AdapterLoop.

(** A good posting followed by a string: nothing is returned. *)
Lemma malformed_record_empties_source_witness :
  is_success 200 = true /\
  is_object (JStr (u "oops")) = false /\
  or_empty (@remoteok_try example_runtime (Reply 200 (Some remoteok_one_bad))) = [].
Proof.
  split; [reflexivity|]. split; [reflexivity|].
  destruct (@malformed_record_empties_source example_runtime 200 (JStr (u "oops"))
              eq_refl eq_refl) as [Hrok _].
  apply Hrok. apply list_elem_of_further, list_elem_of_here.
Defined.

(** The two postings of [remoteok_twins], in order. *)
Lemma adapter_keeps_relevant_in_order_witness :
  exists jobs kept,
    @remoteok_try example_runtime (Reply 200 (Some remoteok_twins)) = Ok jobs /\
    length jobs = 2%nat /\
    kept `sublist_of` tail (match remoteok_twins with JArr l => l | _ => [] end) /\
    Forall2 (fun item j => @remoteok_job example_runtime item = Ok j /\
               exists text, @remoteok_search_text example_runtime item = Ok text /\
                            is_relevant text = true) kept jobs.
Proof.
  eexists.
  assert (Hrun : forall jobs,
    @remoteok_try example_runtime (Reply 200 (Some remoteok_twins)) = Ok jobs ->
    exists kept, @remoteok_try example_runtime (Reply 200 (Some remoteok_twins)) = Ok jobs /\
      kept `sublist_of` tail (match remoteok_twins with JArr l => l | _ => [] end) /\
      Forall2 (fun item j => @remoteok_job example_runtime item = Ok j /\
               exists text, @remoteok_search_text example_runtime item = Ok text /\
                            is_relevant text = true) kept jobs).
  { intros jobs Hjobs.
    destruct (@adapter_keeps_relevant_in_order example_runtime 200 jobs) as [Hrok _].
    destruct (Hrok _ _ Hjobs) as (kept & Hsub & Hall & _).
    exists kept. split; [exact Hjobs|]. split; [exact Hsub | exact Hall]. }
  destruct (Hrun _ ltac:(vm_compute; reflexivity)) as (kept & Hjobs & Hsub & Hall).
  exists kept. split; [exact Hjobs|]. split; [reflexivity|].
  split; [exact Hsub | exact Hall].
Defined.

(** ** A posting without a title *)

Section Untitled.
Context {rt : PyRuntime} (E : Env).

Lemma escape_md_not_iterable (text : json) :
  not_iterable text = true -> escape_md text = Raise TypeError.
Proof. by destruct text. Qed.

Lemma format_job_message_untitled (job : Job) (c : json) :
  not_iterable (job_title job) = true ->
  format_job_message job c = Raise TypeError.
Proof.
  intros H. unfold format_job_message. by rewrite escape_md_not_iterable.
Qed.

Lemma remoteok_job_title (fields : list (pystr * json)) (j : Job) :
  remoteok_job (JObj fields) = Ok j ->
  job_title j = default (JStr (u "N/A")) (dict_lookup (u "position") fields).
Proof.
  unfold remoteok_job. cbn [get rbind].
  destruct (clean_description _) as [d|e]; cbn [rbind]; [|done].
  by intros [= <-].
Qed.

(** X5. The title ["N/A"] only stands in for a missing key: a RemoteOK
    record whose position is null gives a posting whose title is [None].
    For a posting whose title is null, a boolean or a number, formatting
    raises, so the formatted message is never sent: the turn requests the
    draft, sends the plain fallback once, and marks the posting exactly
    when that send goes through. *)
Theorem untitled_posting_goes_by_fallback (chat_id : Z) (profil : Profile)
    (candidature : option json) (job : Job) (w : World) :
  not_iterable (job_title job) = true ->
  let w' := exec (process_job E chat_id profil candidature job) w in
  (forall c, format_job_message job c = Raise TypeError) /\
  (exists prompt reply c (ok : bool),
     events_since w w' =
       (if ok then [EvMark (job_id job)] else []) ++
       [EvSend chat_id (Fallback job) (plain (fallback_text job c)) ok;
        EvPost job prompt reply] /\
     (job_id job ∈ tracker w' <-> job_id job ∈ tracker w \/ ok = true)) /\
  (forall fields j,
     dict_lookup (u "position") fields = Some JNull ->
     remoteok_job (JObj fields) = Ok j -> job_title j = JNull).
Proof.
  intros Htitle w'. split; [intros c; by apply format_job_message_untitled|].
  split.
  - subst w'. unfold exec, process_job. rewrite generate_candidature_run.
    set (prompt := user_prompt job profil).
    set (reply := http_post E (clock w) prompt).
    set (c := match candidature_of_reply reply with
              | Ok c => c | Raise _ => JStr GENERATION_ERROR end).
    set (w1 := log_event (EvPost job prompt reply) w).
    unfold try_except, bind, lift.
    rewrite (format_job_message_untitled job c Htitle).
    destruct (fallback_delivery_run E chat_id job c w1)
      as (ok & w2 & Hrun & Htr & Hset & _).
    rewrite Hrun. unfold ret. cbn [snd].
    exists prompt, reply, c, ok. split.
    + apply events_since_app. rewrite Htr. subst w1. simpl.
      by destruct ok.
    + rewrite Hset. destruct ok; [set_solver|].
      subst w1. rewrite tracker_log_event. split; [by left | by intros [? | ?]].
  - intros fields j Hpos Hj. by rewrite (remoteok_job_title _ _ Hj), Hpos.
Qed.

End Untitled.

(** The record with a null position and the tag [react]. *)
Lemma untitled_posting_goes_by_fallback_witness :
  @remoteok_try example_runtime
    (Reply 200 (Some (JArr [JNull; untitled_item]))) = Ok [untitled_job] /\
  not_iterable (job_title untitled_job) = true /\
  @format_job_message example_runtime untitled_job (JStr (u "Hello")) =
    Raise TypeError /\
  sends (events_since fresh_world
           (exec (@process_job example_runtime quiet_env 1 PROFIL_DEFAUT None
                    untitled_job) fresh_world)) =
    [EvSend 1 (Fallback untitled_job)
       (plain (@fallback_text example_runtime untitled_job (JStr (u "Hello")))) true].
Proof.
  split; [vm_compute; reflexivity|]. split; [reflexivity|].
  destruct (@untitled_posting_goes_by_fallback example_runtime quiet_env 1
              PROFIL_DEFAUT None untitled_job fresh_world eq_refl)
    as (Hfmt & _ & _).
  split; [apply Hfmt|]. vm_compute. reflexivity.
Defined.

(** ** The shape of a whole command *)

Lemma filter_length_app {A} (f : A -> bool) (a b : list A) :
  length (List.filter f (a ++ b)) =
    (length (List.filter f a) + length (List.filter f b))%nat.
Proof. by rewrite List.filter_app, length_app. Qed.

Lemma send_chats_app (a b : list Event) :
  send_chats (a ++ b) = send_chats a ++ send_chats b.
Proof. unfold send_chats. by rewrite omap_app. Qed.

Lemma status_results_app (a b : list Event) :
  status_results (a ++ b) = status_results a ++ status_results b.
Proof. unfold status_results. by rewrite omap_app. Qed.

Section Shapes.
Context (chat_id : Z).

Lemma notices_to_one (m : Message) (ok : bool) :
  notices_to chat_id [EvSend chat_id Status m ok].
Proof. repeat constructor. eauto. Qed.

Lemma notices_to_status_only (evs : list Event) :
  notices_to chat_id evs -> status_only evs.
Proof.
  intros H. eapply Forall_impl; [exact H|]. intros e (m & ok & ->). eauto.
Qed.

Lemma notices_to_counts (evs : list Event) :
  notices_to chat_id evs ->
  length (sends evs) = length evs /\
  List.filter is_post evs = [] /\
  List.filter is_get evs = [] /\
  Forall (eq chat_id) (send_chats evs).
Proof.
  induction 1 as [|e evs (m & ok & ->) _ (Hs & Hp & Hg & Hc)]; simpl.
  - repeat split; constructor.
  - unfold sends in *. simpl. rewrite Hs, Hp, Hg.
    repeat split. by constructor.
Qed.

Lemma turn_trace_counts (job : Job) (evs : list Event) (d : bool) :
  turn_trace chat_id job evs d ->
  length (List.filter is_post evs) = 1%nat /\
  (1 <= length (sends evs) <= 2)%nat /\
  List.filter is_get evs = [] /\
  Forall (eq chat_id) (send_chats evs) /\
  status_results evs = [] /\
  (length (marked evs) <= 1)%nat.
Proof.
  destruct 1; unfold sends; simpl; repeat split; try lia; repeat constructor.
Qed.

Lemma batch_trace_counts (batch : list Job) (evs : list Event) :
  batch_trace chat_id batch evs ->
  length (List.filter is_post evs) = length batch /\
  (length batch <= length (sends evs) <= 2 * length batch)%nat /\
  List.filter is_get evs = [] /\
  Forall (eq chat_id) (send_chats evs) /\
  status_results evs = [] /\
  (length (marked evs) <= length batch)%nat.
Proof.
  induction 1 as [|job rest evs1 d evs Hturn Hbatch IH].
  - simpl. repeat split; try lia; constructor.
  - destruct IH as (Hp & Hs & Hg & Hc & Hst & Hm).
    destruct (turn_trace_counts _ _ _ Hturn) as (Hp1 & Hs1 & Hg1 & Hc1 & Hst1 & Hm1).
    unfold sends in *.
    rewrite !filter_length_app, List.filter_app, send_chats_app,
      status_results_app, marked_app, length_app, Hg, Hg1, Hst, Hst1, Hp, Hp1.
    simpl. repeat split; try lia. by apply Forall_app.
Qed.

End Shapes.

Section CommandShapes.
Context {rt : PyRuntime} (E : Env).

Lemma missions_dispatch_shape (chat_id : Z) (profil : Profile)
    (jobs : list Job) (w : World) :
  let new_jobs := new_jobs_of (tracker w) jobs in
  let w' := exec (missions_dispatch E chat_id profil jobs) w in
  exists (batch : list Job) (before evs after : list Event),
    trace w' = after ++ evs ++ before ++ trace w /\
    notices_to chat_id before /\ notices_to chat_id after /\
    length before = 1%nat /\ (length after <= 1)%nat /\
    batch_trace chat_id batch evs /\
    (batch = [] \/ batch = take 5 new_jobs) /\
    outcome (missions_dispatch E chat_id profil jobs) w =
      (if forallb id (status_results (after ++ before))
       then Ok tt else Raise TelegramError) /\
    tracker w' = list_to_set (marked evs) ∪ tracker w /\
    same_settings w w'.
Proof.
  intros new_jobs w'. subst w'. unfold exec, outcome, missions_dispatch.
  fold new_jobs. destruct new_jobs as [|j0 rest] eqn:Hnew.
  - rewrite send_message_run. cbn [fst snd].
    exists [], [EvSend chat_id Status (plain MSG_NOTHING_NEW)
                  (telegram E (clock w) chat_id (plain MSG_NOTHING_NEW))], [], [].
    split; [done|]. split; [apply notices_to_one|].
    split; [constructor|]. split; [done|]. split; [simpl; lia|].
    split; [constructor|]. split; [by left|].
    split; [simpl; by destruct (telegram _ _ _ _)|]. split; [|done].
    rewrite tracker_log_event. set_solver.
  - set (batch := take 5 (j0 :: rest)).
    set (notice := plain (msg_found _ _)).
    pose proof (send_message_run E chat_id Status notice w) as Hsend.
    destruct (telegram E (clock w) chat_id notice) eqn:Hok.
    + rewrite (bind_run _ _ _ _ _ Hsend).
      set (w1 := log_event _ w) in *.
      destruct (process_batch_run E chat_id profil batch None w1)
        as (w2 & evs & Hrun & Htr & Hbatch & Hset & Hsame).
      rewrite (bind_run _ _ _ _ _ Hrun), send_message_run. cbn [fst snd].
      exists batch, [EvSend chat_id Status notice true], evs,
        [EvSend chat_id Status (plain (msg_done (length batch)))
           (telegram E (clock w2) chat_id (plain (msg_done (length batch))))].
      split; [cbn [trace log_event]; by rewrite Htr|].
      split; [apply notices_to_one|]. split; [apply notices_to_one|].
      split; [done|]. split; [done|].
      split; [done|]. split; [by right|].
      split; [simpl; by rewrite andb_true_r|].
      split; [by rewrite tracker_log_event, Hset|].
      by apply same_settings_log_event.
    + rewrite (bind_raise _ _ _ _ _ Hsend). cbn [fst snd].
      exists [], [EvSend chat_id Status notice false], [], [].
      split; [done|]. split; [apply notices_to_one|].
      split; [constructor|]. split; [done|]. split; [simpl; lia|].
      split; [constructor|]. split; [by left|].
      split; [done|]. split; [|done].
      rewrite tracker_log_event. set_solver.
Qed.

Lemma scheduled_dispatch_shape (chat_id : Z) (profil : Profile)
    (jobs : list Job) (w : World) :
  let new_jobs := new_jobs_of (tracker w) jobs in
  let w' := exec (scheduled_dispatch E chat_id profil jobs) w in
  exists (batch : list Job) (before evs : list Event),
    trace w' = evs ++ before ++ trace w /\
    notices_to chat_id before /\ (length before <= 1)%nat /\
    batch_trace chat_id batch evs /\
    (batch = [] \/ batch = take 5 new_jobs) /\
    (status_results before = [true] -> batch = take 5 new_jobs) /\
    outcome (scheduled_dispatch E chat_id profil jobs) w =
      (if forallb id (status_results before)
       then Ok tt else Raise TelegramError) /\
    tracker w' = list_to_set (marked evs) ∪ tracker w /\
    same_settings w w'.
Proof.
  intros new_jobs w'. subst w'. unfold exec, outcome, scheduled_dispatch.
  fold new_jobs. destruct new_jobs as [|j0 rest] eqn:Hnew.
  - exists [], [], []. unfold ret. cbn [fst snd].
    split; [done|]. split; [constructor|]. split; [simpl; lia|].
    split; [constructor|]. split; [by left|]. split; [done|].
    split; [done|]. split; [|done]. set_solver.
  - set (batch := take 5 (j0 :: rest)).
    set (notice := markdown _ _).
    pose proof (send_message_run E chat_id Status notice w) as Hsend.
    destruct (telegram E (clock w) chat_id notice) eqn:Hok.
    + rewrite (bind_run _ _ _ _ _ Hsend).
      set (w1 := log_event _ w) in *.
      destruct (process_batch_run E chat_id profil batch None w1)
        as (w2 & evs & Hrun & Htr & Hbatch & Hset & Hsame).
      rewrite Hrun. cbn [fst snd].
      exists batch, [EvSend chat_id Status notice true], evs.
      split; [by rewrite Htr|].
      split; [apply notices_to_one|]. split; [done|].
      split; [done|]. split; [by right|]. split; [done|]. split; [done|].
      split; [by rewrite Hset|]. done.
    + rewrite (bind_raise _ _ _ _ _ Hsend). cbn [fst snd].
      exists [], [EvSend chat_id Status notice false], [].
      split; [done|]. split; [apply notices_to_one|]. split; [done|].
      split; [constructor|]. split; [by left|]. split; [done|].
      split; [done|]. split; [|done].
      rewrite tracker_log_event. set_solver.
Qed.

End CommandShapes.

Section WholeCommands.
Context {rt : PyRuntime} (E : Env).

Lemma fetch_then_dispatch (dispatch : Profile -> list Job -> M unit) (w : World) :
  (let! profil := get_profile in
   setdefault_sent_jobs >>
   let! jobs := fetch_jobs E in
   dispatch profil jobs) w =
  dispatch (default PROFIL_DEFAUT (bd_profile (bot_data w)))
    (fetched_jobs E (clock w))
    (log_event (EvGet ARBEITNOW_URL (http_get E (S (clock w)) ARBEITNOW_URL))
       (log_event (EvGet REMOTEOK_URL (http_get E (clock w) REMOTEOK_URL))
          (exec setdefault_sent_jobs w))).
Proof. reflexivity. Qed.

Lemma missions_command_shape (chat_id : Z) (w : World) :
  let new_jobs := new_jobs_of (tracker w) (fetched_jobs E (S (clock w))) in
  let w' := exec (missions_command E chat_id) w in
  exists (batch : list Job) (head gets before evs after : list Event),
    trace w' = after ++ evs ++ before ++ gets ++ head ++ trace w /\
    notices_to chat_id head /\ notices_to chat_id before /\
    notices_to chat_id after /\
    length head = 1%nat /\ (length before <= 1)%nat /\ (length after <= 1)%nat /\
    (gets = [] \/ exists ra rb,
       gets = [EvGet ARBEITNOW_URL rb; EvGet REMOTEOK_URL ra]) /\
    batch_trace chat_id batch evs /\
    (batch = [] \/ batch = take 5 new_jobs) /\
    outcome (missions_command E chat_id) w =
      (if forallb id (status_results (after ++ before ++ head))
       then Ok tt else Raise TelegramError) /\
    tracker w' = list_to_set (marked evs) ∪ tracker w /\
    same_settings w w'.
Proof.
  intros new_jobs w'. subst w'. unfold exec, outcome, missions_command.
  set (first := plain MSG_SEARCHING).
  pose proof (send_message_run E chat_id Status first w) as Hsend.
  destruct (telegram E (clock w) chat_id first) eqn:Hok.
  - rewrite (bind_run _ _ _ _ _ Hsend).
    set (w1 := log_event _ w) in *.
    rewrite (fetch_then_dispatch (missions_dispatch E chat_id) w1).
    set (w2 := exec setdefault_sent_jobs w1).
    set (w3 := log_event _ (log_event _ w2)).
    set (profil := default PROFIL_DEFAUT (bd_profile (bot_data w1))).
    destruct (missions_dispatch_shape E chat_id profil
                (fetched_jobs E (clock w1)) w3)
      as (batch & before & evs & after & Htr & Hb & Ha & Hlb & Hla & Hbatch
          & Hor & Hout & Hset & Hsame).
    exists batch, [EvSend chat_id Status first true],
      [EvGet ARBEITNOW_URL (http_get E (S (clock w1)) ARBEITNOW_URL);
       EvGet REMOTEOK_URL (http_get E (clock w1) REMOTEOK_URL)],
      before, evs, after.
    unfold exec in Htr, Hset, Hsame. unfold outcome in Hout.
    split; [by rewrite Htr|].
    split; [apply notices_to_one|]. split; [done|]. split; [done|].
    split; [done|]. split; [lia|]. split; [done|].
    split; [right; eauto|]. split; [done|].
    split; [exact Hor|].
    split.
    { rewrite Hout, !status_results_app, !forallb_app. simpl.
      by rewrite !andb_true_r. }
    split; [by rewrite Hset|].
    eapply same_settings_trans; [|exact Hsame]. by repeat split.
  - rewrite (bind_raise _ _ _ _ _ Hsend). cbn [fst snd].
    exists [], [EvSend chat_id Status first false], [], [], [], [].
    split; [done|]. split; [apply notices_to_one|].
    split; [constructor|]. split; [constructor|].
    split; [done|]. split; [simpl; lia|]. split; [simpl; lia|].
    split; [by left|]. split; [constructor|]. split; [by left|].
    split; [done|]. split; [|done].
    rewrite tracker_log_event. set_solver.
Qed.

Lemma scheduled_prospection_shape (w : World) :
  let chat_id := default 0%Z (bd_auto_chat_id (bot_data w)) in
  let new_jobs := new_jobs_of (tracker w) (fetched_jobs E (clock w)) in
  let w' := exec (scheduled_prospection E) w in
  exists (batch : list Job) (gets before evs : list Event),
    trace w' = evs ++ before ++ gets ++ trace w /\
    notices_to chat_id before /\ (length before <= 1)%nat /\
    (gets = [] \/ exists ra rb,
       gets = [EvGet ARBEITNOW_URL rb; EvGet REMOTEOK_URL ra]) /\
    batch_trace chat_id batch evs /\
    (batch = [] \/ batch = take 5 new_jobs) /\
    (auto_active w = true -> status_results before = [true] ->
     batch = take 5 new_jobs) /\
    outcome (scheduled_prospection E) w =
      (if forallb id (status_results before)
       then Ok tt else Raise TelegramError) /\
    tracker w' = list_to_set (marked evs) ∪ tracker w /\
    same_settings w w'.
Proof.
  intros chat_id new_jobs w'. subst w'.
  destruct (auto_active w) eqn:Hactive.
  - unfold auto_active in Hactive.
    apply andb_true_iff in Hactive as [Hon Hdest].
    apply negb_true_iff in Hdest.
    unfold exec, outcome, scheduled_prospection. rewrite Hon, Hdest.
    cbn [negb]. fold chat_id.
    rewrite (fetch_then_dispatch (scheduled_dispatch E chat_id) w).
    set (w2 := exec setdefault_sent_jobs w).
    set (w3 := log_event _ (log_event _ w2)).
    set (profil := default PROFIL_DEFAUT (bd_profile (bot_data w))).
    destruct (scheduled_dispatch_shape E chat_id profil
                (fetched_jobs E (clock w)) w3)
      as (batch & before & evs & Htr & Hb & Hlb & Hbatch & Hor & Hall
          & Hout & Hset & Hsame).
    exists batch,
      [EvGet ARBEITNOW_URL (http_get E (S (clock w)) ARBEITNOW_URL);
       EvGet REMOTEOK_URL (http_get E (clock w) REMOTEOK_URL)],
      before, evs.
    unfold exec in Htr, Hset, Hsame. unfold outcome in Hout.
    split; [by rewrite Htr|]. split; [done|]. split; [done|].
    split; [right; eauto|]. split; [done|]. split; [exact Hor|].
    split; [intros _; exact Hall|]. split; [exact Hout|].
    split; [by rewrite Hset|].
    eapply same_settings_trans; [|exact Hsame]. by repeat split.
  - unfold exec, outcome. rewrite (scheduled_idle_run E w Hactive).
    cbn [fst snd].
    exists [], [], [], [].
    split; [done|]. split; [constructor|]. split; [simpl; lia|].
    split; [by left|]. split; [constructor|]. split; [by left|].
    split; [done|]. split; [done|]. split; [|done]. set_solver.
Qed.

End WholeCommands.

Lemma gets_counts (gets : list Event) :
  (gets = [] \/ exists ra rb,
     gets = [EvGet ARBEITNOW_URL rb; EvGet REMOTEOK_URL ra]) ->
  (length (List.filter is_get gets) <= 2)%nat /\
  List.filter is_post gets = [] /\
  sends gets = [] /\
  send_chats gets = [] /\
  status_results gets = [] /\
  marked gets = [].
Proof. intros [-> | (ra & rb & ->)]; simpl; repeat split; lia. Qed.

Lemma batch_trace_marked_from_batch (chat_id : Z) (batch : list Job)
    (evs : list Event) (id : pystr) :
  batch_trace chat_id batch evs -> id ∈ marked evs ->
  exists j, j ∈ batch /\ job_id j = id.
Proof.
  intros Hbatch Hin. apply list_elem_of_omap in Hin as (e & He & Hid).
  pose proof (batch_trace_event_id chat_id _ _ Hbatch) as Hall.
  rewrite Forall_forall in Hall. destruct (Hall e He) as (j & Hj & Hev).
  destruct e; try done. injection Hid as ->. simpl in Hev.
  exists j. split; [done | congruence].
Qed.

Lemma batch_size (A : Type) (batch new_jobs : list A) :
  batch = [] \/ batch = take 5 new_jobs -> (length batch <= 5)%nat.
Proof. intros [-> | ->]; [simpl; lia | rewrite length_take; lia]. Qed.

Section CommandFacts.
Context {rt : PyRuntime} (E : Env).

(** X6. One invocation makes at most two calls to the job boards and five
    to the text-generation service, and sends at most thirteen messages on
    demand (three notices, and a formatted and a fallback message for each
    of five postings) and eleven on schedule. *)
Theorem call_volume_bounded (w : World) :
  (forall chat_id,
     let evs := events_since w (exec (missions_command E chat_id) w) in
     (length (List.filter is_get evs) <= 2)%nat /\
     (length (List.filter is_post evs) <= 5)%nat /\
     (length (sends evs) <= 13)%nat) /\
  (let evs := events_since w (exec (scheduled_prospection E) w) in
   (length (List.filter is_get evs) <= 2)%nat /\
   (length (List.filter is_post evs) <= 5)%nat /\
   (length (sends evs) <= 11)%nat).
Proof.
  split.
  - intros chat_id evs.
    destruct (missions_command_shape E chat_id w)
      as (batch & head & gets & before & evs0 & after & Htr & Hh & Hb & Ha
          & Hlh & Hlb & Hla & Hgets & Hbatch & Hor & _).
    assert (Hevs : evs = after ++ evs0 ++ before ++ gets ++ head).
    { apply events_since_app. by rewrite Htr, <- !app_assoc. }
    destruct (notices_to_counts _ _ Hh) as (Hs1 & Hp1 & Hg1 & _).
    destruct (notices_to_counts _ _ Hb) as (Hs2 & Hp2 & Hg2 & _).
    destruct (notices_to_counts _ _ Ha) as (Hs3 & Hp3 & Hg3 & _).
    destruct (gets_counts _ Hgets) as (Hg4 & Hp4 & Hs4 & _).
    destruct (batch_trace_counts _ _ _ Hbatch) as (Hp5 & Hs5 & Hg5 & _).
    pose proof (batch_size _ _ _ Hor) as Hsize.
    rewrite Hevs. unfold sends in *.
    rewrite !filter_length_app, Hg1, Hg2, Hg3, Hg5, Hp1, Hp2, Hp3, Hp4, Hs4.
    simpl. lia.
  - intros evs.
    destruct (scheduled_prospection_shape E w)
      as (batch & gets & before & evs0 & Htr & Hb & Hlb & Hgets & Hbatch & Hor & _).
    assert (Hevs : evs = evs0 ++ before ++ gets).
    { apply events_since_app. by rewrite Htr, <- !app_assoc. }
    destruct (notices_to_counts _ _ Hb) as (Hs2 & Hp2 & Hg2 & _).
    destruct (gets_counts _ Hgets) as (Hg4 & Hp4 & Hs4 & _).
    destruct (batch_trace_counts _ _ _ Hbatch) as (Hp5 & Hs5 & Hg5 & _).
    pose proof (batch_size _ _ _ Hor) as Hsize.
    rewrite Hevs. unfold sends in *.
    rewrite !filter_length_app, Hg2, Hg5, Hp2, Hp4, Hs4.
    simpl. lia.
Qed.

(** X7. Every message of the on-demand command goes to the chat the
    command came from; every message of the scheduled path goes to the
    stored destination. *)
Theorem sends_go_to_the_chat (w : World) :
  (forall chat_id,
     Forall (eq chat_id)
       (send_chats (events_since w (exec (missions_command E chat_id) w)))) /\
  Forall (fun c => bd_auto_chat_id (bot_data w) = Some c)
    (send_chats (events_since w (exec (scheduled_prospection E) w))).
Proof.
  split.
  - intros chat_id.
    destruct (missions_command_shape E chat_id w)
      as (batch & head & gets & before & evs0 & after & Htr & Hh & Hb & Ha
          & _ & _ & _ & Hgets & Hbatch & _).
    rewrite (events_since_app _ _ (after ++ evs0 ++ before ++ gets ++ head))
      by (by rewrite Htr, <- !app_assoc).
    destruct (notices_to_counts _ _ Hh) as (_ & _ & _ & Hc1).
    destruct (notices_to_counts _ _ Hb) as (_ & _ & _ & Hc2).
    destruct (notices_to_counts _ _ Ha) as (_ & _ & _ & Hc3).
    destruct (gets_counts _ Hgets) as (_ & _ & _ & Hc4 & _).
    destruct (batch_trace_counts _ _ _ Hbatch) as (_ & _ & _ & Hc5 & _).
    rewrite !send_chats_app, Hc4. simpl.
    repeat (apply Forall_app; split); done.
  - destruct (auto_active w) eqn:Hactive.
    + destruct (scheduled_prospection_shape E w)
        as (batch & gets & before & evs0 & Htr & Hb & _ & Hgets & Hbatch & _).
      rewrite (events_since_app _ _ (evs0 ++ before ++ gets))
        by (by rewrite Htr, <- !app_assoc).
      destruct (notices_to_counts _ _ Hb) as (_ & _ & _ & Hc2).
      destruct (gets_counts _ Hgets) as (_ & _ & _ & Hc4 & _).
      destruct (batch_trace_counts _ _ _ Hbatch) as (_ & _ & _ & Hc5 & _).
      unfold auto_active in Hactive.
      apply andb_true_iff in Hactive as [_ Hdest].
      destruct (bd_auto_chat_id (bot_data w)) as [c|]; [|done].
      simpl in Hc2, Hc5.
      rewrite !send_chats_app, Hc4, app_nil_r.
      apply Forall_app. split; (eapply Forall_impl; [eassumption|]);
        by intros ? ->.
    + unfold exec. rewrite (scheduled_idle_run E w Hactive). cbn [snd].
      rewrite (events_since_app w w []) by done. constructor.
Qed.

(** X8. A command fails exactly when one of its own notices is refused,
    and then with the error of the send; a posting whose delivery is
    refused, formatted and plain, never makes it fail. *)
Theorem only_notices_raise (w : World) :
  (forall chat_id,
     outcome (missions_command E chat_id) w =
       if forallb id (status_results
                        (events_since w (exec (missions_command E chat_id) w)))
       then Ok tt else Raise TelegramError) /\
  outcome (scheduled_prospection E) w =
    (if forallb id (status_results
                      (events_since w (exec (scheduled_prospection E) w)))
     then Ok tt else Raise TelegramError).
Proof.
  split.
  - intros chat_id.
    destruct (missions_command_shape E chat_id w)
      as (batch & head & gets & before & evs0 & after & Htr & _ & _ & _
          & _ & _ & _ & Hgets & Hbatch & _ & Hout & _).
    rewrite (events_since_app _ _ (after ++ evs0 ++ before ++ gets ++ head))
      by (by rewrite Htr, <- !app_assoc).
    destruct (gets_counts _ Hgets) as (_ & _ & _ & _ & Hr4 & _).
    destruct (batch_trace_counts _ _ _ Hbatch) as (_ & _ & _ & _ & Hr5 & _).
    rewrite Hout, !status_results_app, Hr4, Hr5. done.
  - destruct (scheduled_prospection_shape E w)
      as (batch & gets & before & evs0 & Htr & _ & _ & Hgets & Hbatch & _ & _
          & Hout & _).
    rewrite (events_since_app _ _ (evs0 ++ before ++ gets))
      by (by rewrite Htr, <- !app_assoc).
    destruct (gets_counts _ Hgets) as (_ & _ & _ & _ & Hr4 & _).
    destruct (batch_trace_counts _ _ _ Hbatch) as (_ & _ & _ & _ & Hr5 & _).
    rewrite Hout, !status_results_app, Hr4, Hr5, app_nil_r. done.
Qed.

(** X9. Neither path touches the profile or the auto-mode settings, and
    neither removes an id from the tracker: after an invocation the tracker
    holds what it held, and besides only ids of the first five new
    postings of that fetch. *)
Theorem commands_only_grow_the_tracker (w : World) :
  (forall chat_id,
     let w' := exec (missions_command E chat_id) w in
     same_settings w w' /\ tracker w ⊆ tracker w' /\
     forall id, id ∈ tracker w' -> id ∈ tracker w \/
       exists j, j ∈ take 5 (new_jobs_of (tracker w)
                               (fetched_jobs E (S (clock w)))) /\
                 job_id j = id) /\
  (let w' := exec (scheduled_prospection E) w in
   same_settings w w' /\ tracker w ⊆ tracker w' /\
   forall id, id ∈ tracker w' -> id ∈ tracker w \/
     exists j, j ∈ take 5 (new_jobs_of (tracker w) (fetched_jobs E (clock w))) /\
               job_id j = id).
Proof.
  split.
  - intros chat_id w'.
    destruct (missions_command_shape E chat_id w)
      as (batch & head & gets & before & evs0 & after & _ & _ & _ & _
          & _ & _ & _ & _ & Hbatch & Hor & _ & Hset & Hsame).
    fold w' in Hset, Hsame. split; [done|]. rewrite Hset.
    split; [set_solver|].
    intros id [Hin | Hin]%elem_of_union; [|by left].
    apply elem_of_list_to_set in Hin.
    destruct (batch_trace_marked_from_batch _ _ _ _ Hbatch Hin) as (j & Hj & Hid).
    right. exists j. split; [|done].
    destruct Hor as [-> | ->]; [by apply elem_of_nil in Hj | done].
  - intros w'.
    destruct (scheduled_prospection_shape E w)
      as (batch & gets & before & evs0 & _ & _ & _ & _ & Hbatch & Hor & _ & _
          & Hset & Hsame).
    fold w' in Hset, Hsame. split; [done|]. rewrite Hset.
    split; [set_solver|].
    intros id [Hin | Hin]%elem_of_union; [|by left].
    apply elem_of_list_to_set in Hin.
    destruct (batch_trace_marked_from_batch _ _ _ _ Hbatch Hin) as (j & Hj & Hid).
    right. exists j. split; [|done].
    destruct Hor as [-> | ->]; [by apply elem_of_nil in Hj | done].
Qed.

End CommandFacts.

(** ** With a chat that accepts every message *)

Lemma new_jobs_of_union (S T : gset pystr) (jobs : list Job) :
  new_jobs_of (S ∪ T) jobs =
    filter (fun j => job_id j ∉ S) (new_jobs_of T jobs).
Proof.
  unfold new_jobs_of. rewrite list_filter_filter.
  apply list_filter_iff. intros j. set_solver.
Qed.

Lemma filter_all_out {A} (P : A -> Prop) `{forall x, Decision (P x)} (l : list A) :
  (forall x, x ∈ l -> ~ P x) -> filter P l = [].
Proof.
  induction l as [|x l IH]; intros Hall; [done|].
  rewrite filter_cons_False by (apply Hall; left).
  apply IH. intros y Hy. apply Hall. by right.
Qed.

Lemma filter_all_in {A} (P : A -> Prop) `{forall x, Decision (P x)} (l : list A) :
  (forall x, x ∈ l -> P x) -> filter P l = l.
Proof.
  induction l as [|x l IH]; intros Hall; [done|].
  rewrite filter_cons_True by (apply Hall; left).
  f_equal. apply IH. intros y Hy. apply Hall. by right.
Qed.

Section Accepting.
Context {rt : PyRuntime} (E : Env).

Lemma process_job_accepting (chat_id : Z) (profil : Profile)
    (candidature : option json) (job : Job) (w : World) :
  chat_accepts_all E ->
  exists (c : json) (w' : World),
    process_job E chat_id profil candidature job w = (Ok (Some c), w') /\
    tracker w' = {[ job_id job ]} ∪ tracker w.
Proof.
  intros accepts.
  unfold process_job. rewrite generate_candidature_run.
  set (w1 := log_event _ w).
  set (c := match candidature_of_reply _ with
            | Ok c => c | Raise _ => JStr GENERATION_ERROR end).
  exists c. unfold try_except, bind, lift.
  destruct (format_job_message job c) as [message|e].
  - rewrite send_message_run, accepts. eexists. split; [reflexivity|]. done.
  - unfold fallback_delivery, try_except, bind.
    rewrite send_message_run, accepts. eexists. split; [reflexivity|]. done.
Qed.

Lemma process_batch_accepting (chat_id : Z) (profil : Profile) (batch : list Job) :
  chat_accepts_all E ->
  forall (candidature : option json) (w : World),
  exists w',
    process_batch E chat_id profil candidature batch w = (Ok tt, w') /\
    tracker w' = list_to_set (job_id <$> batch) ∪ tracker w.
Proof.
  intros accepts.
  induction batch as [|job rest IH]; intros candidature w; simpl.
  - exists w. split; [done|]. set_solver.
  - destruct (process_job_accepting chat_id profil candidature job w accepts)
      as (c & w1 & Hrun & Hset).
    rewrite (bind_run _ _ _ _ _ Hrun).
    destruct (IH (Some c) w1) as (w' & Hrun' & Hset').
    exists w'. split; [done|]. rewrite Hset', Hset. set_solver.
Qed.

Lemma missions_dispatch_accepting (chat_id : Z) (profil : Profile)
    (jobs : list Job) (w : World) :
  chat_accepts_all E ->
  let new_jobs := new_jobs_of (tracker w) jobs in
  let w' := exec (missions_dispatch E chat_id profil jobs) w in
  outcome (missions_dispatch E chat_id profil jobs) w = Ok tt /\
  tracker w' = list_to_set (job_id <$> take 5 new_jobs) ∪ tracker w.
Proof.
  intros accepts new_jobs w'. subst w'. unfold exec, outcome, missions_dispatch.
  fold new_jobs. destruct new_jobs as [|j0 rest] eqn:Hnew.
  - rewrite send_message_run, accepts. cbn [fst snd].
    split; [done|]. rewrite tracker_log_event. set_solver.
  - set (batch := take 5 (j0 :: rest)).
    set (notice := plain (msg_found _ _)).
    pose proof (send_message_run E chat_id Status notice w) as Hsend.
    rewrite accepts in Hsend. rewrite (bind_run _ _ _ _ _ Hsend).
    destruct (process_batch_accepting chat_id profil batch accepts None
                (log_event (EvSend chat_id Status notice true) w))
      as (w2 & Hrun & Hset).
    rewrite (bind_run _ _ _ _ _ Hrun), send_message_run, accepts.
    cbn [fst snd]. split; [done|].
    by rewrite tracker_log_event, Hset, tracker_log_event.
Qed.

Lemma next_new_jobs (jobs : list Job) (seen : gset pystr) :
  let new_jobs := new_jobs_of seen jobs in
  let seen' := list_to_set (job_id <$> take 5 new_jobs) ∪ seen in
  ((length new_jobs <= 5)%nat -> new_jobs_of seen' jobs = []) /\
  (NoDup (job_id <$> new_jobs) -> new_jobs_of seen' jobs = drop 5 new_jobs).
Proof.
  intros new_jobs seen'. subst seen'. rewrite new_jobs_of_union.
  fold new_jobs. split.
  - intros Hlen. rewrite take_ge by done.
    apply filter_all_out. intros j Hj Hout. apply Hout.
    apply elem_of_list_to_set. by apply list_elem_of_fmap_2.
  - intros Hnodup.
    rewrite <- (take_drop 5 new_jobs), fmap_app in Hnodup.
    apply NoDup_app in Hnodup as (_ & Hdisj & _).
    set (batch := take 5 new_jobs) in *.
    transitivity (filter (fun j => job_id j ∉ (list_to_set (job_id <$> batch) : gset pystr))
                    (batch ++ drop 5 new_jobs));
      [unfold batch; by rewrite take_drop|].
    rewrite filter_app, filter_all_out, filter_all_in; [done| |].
    + intros j Hj Hin. apply elem_of_list_to_set in Hin.
      apply (Hdisj (job_id j)); [done|]. by apply list_elem_of_fmap_2.
    + intros j Hj Hout. apply Hout.
      apply elem_of_list_to_set. by apply list_elem_of_fmap_2.
Qed.

(** X10. With a chat that accepts every message, a dispatch returns
    normally and leaves in the tracker the ids of the first five new
    postings, whether they went out formatted or plain.  So the next
    filter keeps nothing when there were at most five new postings, and
    the postings from the sixth on when the new ids are all different:
    repeated invocations work through the list five at a time. *)
Theorem accepted_batch_is_marked (chat_id : Z) (profil : Profile)
    (jobs : list Job) (w : World) :
  chat_accepts_all E ->
  let new_jobs := new_jobs_of (tracker w) jobs in
  let w' := exec (missions_dispatch E chat_id profil jobs) w in
  outcome (missions_dispatch E chat_id profil jobs) w = Ok tt /\
  tracker w' = list_to_set (job_id <$> take 5 new_jobs) ∪ tracker w /\
  ((length new_jobs <= 5)%nat -> new_jobs_of (tracker w') jobs = []) /\
  (NoDup (job_id <$> new_jobs) ->
   new_jobs_of (tracker w') jobs = drop 5 new_jobs).
Proof.
  intros accepts new_jobs w'.
  destruct (missions_dispatch_accepting chat_id profil jobs w accepts)
    as [Hok Hset].
  fold new_jobs w' in Hok, Hset.
  split; [done|]. split; [done|]. rewrite Hset.
  apply next_new_jobs.
Qed.

Lemma missions_command_accepting (chat_id : Z) (w : World) :
  chat_accepts_all E ->
  let jobs := fetched_jobs E (S (clock w)) in
  let new_jobs := new_jobs_of (tracker w) jobs in
  let w' := exec (missions_command E chat_id) w in
  outcome (missions_command E chat_id) w = Ok tt /\
  tracker w' = list_to_set (job_id <$> take 5 new_jobs) ∪ tracker w /\
  (new_jobs = [] ->
   events_since w w' =
     [EvSend chat_id Status (plain MSG_NOTHING_NEW) true;
      EvGet ARBEITNOW_URL (http_get E (S (S (clock w))) ARBEITNOW_URL);
      EvGet REMOTEOK_URL (http_get E (S (clock w)) REMOTEOK_URL);
      EvSend chat_id Status (plain MSG_SEARCHING) true]).
Proof.
  intros accepts jobs new_jobs w'. subst w'.
  unfold outcome, exec, missions_command.
  pose proof (send_message_run E chat_id Status (plain MSG_SEARCHING) w) as Hsend.
  rewrite accepts in Hsend. rewrite (bind_run _ _ _ _ _ Hsend).
  set (w1 := log_event _ w).
  rewrite (fetch_then_dispatch E (missions_dispatch E chat_id) w1).
  set (w3 := log_event _ (log_event _ _)).
  set (profil := default PROFIL_DEFAUT _).
  destruct (missions_dispatch_accepting chat_id profil
              (fetched_jobs E (clock w1)) w3 accepts) as [Hok Hset].
  unfold outcome, exec in Hok, Hset.
  split; [exact Hok|]. split; [exact Hset|].
  intros Hnone. apply events_since_app.
  unfold missions_dispatch.
  change (new_jobs_of (tracker w3) (fetched_jobs E (clock w1))) with new_jobs.
  rewrite Hnone, send_message_run, accepts. reflexivity.
Qed.

(** X11. When the sources return the same postings at every call, at most
    five of them new, and the chat accepts every message, a first
    [/missions] returns normally and a second one finds nothing new: it
    calls the sources, sends the searching notice and the nothing-new
    notice, requests no draft and leaves the tracker as it is. *)
Theorem second_run_finds_nothing (chat_id : Z) (jobs : list Job) (w : World) :
  chat_accepts_all E ->
  (forall t, fetched_jobs E t = jobs) ->
  (length (new_jobs_of (tracker w) jobs) <= 5)%nat ->
  let w1 := exec (missions_command E chat_id) w in
  let w2 := exec (missions_command E chat_id) w1 in
  outcome (missions_command E chat_id) w = Ok tt /\
  new_jobs_of (tracker w1) jobs = [] /\
  sends (events_since w1 w2) =
    [EvSend chat_id Status (plain MSG_NOTHING_NEW) true;
     EvSend chat_id Status (plain MSG_SEARCHING) true] /\
  drafted (events_since w1 w2) = [] /\
  tracker w2 = tracker w1.
Proof.
  intros accepts Hstable Hlen w1 w2.
  destruct (missions_command_accepting chat_id w accepts) as (Hok & Hset & _).
  fold w1 in Hset. rewrite Hstable in Hset.
  assert (Hnone : new_jobs_of (tracker w1) jobs = []).
  { rewrite Hset. by apply next_new_jobs. }
  destruct (missions_command_accepting chat_id w1 accepts) as (_ & Hset2 & Hevs).
  fold w2 in Hset2, Hevs. rewrite Hstable, Hnone in Hset2, Hevs.
  split; [done|]. split; [done|]. rewrite (Hevs eq_refl).
  split; [done|]. split; [done|]. rewrite Hset2. set_solver.
Qed.

End Accepting.

(** ** The toggle, again, and the scheduled path after it *)

Section AutoMore.
Context {rt : PyRuntime} (E : Env).

(** X12. The toggle sends one message, to the chat it came from, that
    names the new state; it fails exactly when that message is refused,
    and the setting is changed even then.  Two toggles in a row leave
    auto-mode as it was. *)
Theorem auto_command_effects (chat_id : Z) (w : World) :
  let was_on := default false (bd_auto_enabled (bot_data w)) in
  let text := if was_on then MSG_AUTO_OFF else MSG_AUTO_ON in
  let ok := telegram E (clock w) chat_id (plain text) in
  let w' := exec (auto_command E chat_id) w in
  events_since w w' = [EvSend chat_id Status (plain text) ok] /\
  outcome (auto_command E chat_id) w =
    (if ok then Ok tt else Raise TelegramError) /\
  default false (bd_auto_enabled (bot_data w')) = negb was_on /\
  (forall chat_id',
     default false
       (bd_auto_enabled (bot_data (exec (auto_command E chat_id') w'))) = was_on).
Proof.
  intros was_on text ok w'. subst w' ok text.
  unfold exec, outcome, auto_command. fold was_on.
  destruct was_on eqn:Hwas; cbn [negb];
    unfold bind, set_auto_enabled, set_auto_chat_id;
    rewrite send_message_run; cbn [fst snd];
    (split; [by apply events_since_app|]); (split; [done|]); (split; [done|]);
    intros chat_id'; done.
Qed.

(** X13. After auto-mode is switched on from a chat, the scheduled path
    is active and every message it sends goes to that chat; but a chat
    whose id is zero counts as no destination, and the scheduled path
    then does nothing.  After the next toggle it does nothing either. *)
Theorem scheduled_follows_toggle (chat_id : Z) (w : World) :
  default false (bd_auto_enabled (bot_data w)) = false ->
  let w1 := exec (auto_command E chat_id) w in
  (chat_id <> 0%Z ->
   auto_active w1 = true /\
   Forall (eq chat_id)
     (send_chats (events_since w1 (exec (scheduled_prospection E) w1)))) /\
  (chat_id = 0%Z -> scheduled_prospection E w1 = (Ok tt, w1)) /\
  (forall chat_id',
     let w2 := exec (auto_command E chat_id') w1 in
     scheduled_prospection E w2 = (Ok tt, w2)).
Proof.
  intros Hoff w1.
  assert (Hon : bd_auto_enabled (bot_data w1) = Some true /\
                bd_auto_chat_id (bot_data w1) = Some chat_id).
  { subst w1. unfold exec, auto_command. by rewrite Hoff. }
  destruct Hon as [Hon Hdest]. split; [|split].
  - intros Hne.
    assert (Hactive : auto_active w1 = true).
    { unfold auto_active. rewrite Hon, Hdest. simpl.
      by rewrite (proj2 (Z.eqb_neq chat_id 0) Hne). }
    split; [done|].
    destruct (scheduled_prospection_shape E w1)
      as (batch & gets & before & evs0 & Htr & Hb & _ & Hgets & Hbatch & _).
    rewrite Hdest in Hb, Hbatch. simpl in Hb, Hbatch.
    rewrite (events_since_app _ _ (evs0 ++ before ++ gets))
      by (by rewrite Htr, <- !app_assoc).
    destruct (notices_to_counts _ _ Hb) as (_ & _ & _ & Hc2).
    destruct (gets_counts _ Hgets) as (_ & _ & _ & Hc4 & _).
    destruct (batch_trace_counts _ _ _ Hbatch) as (_ & _ & _ & Hc5 & _).
    rewrite !send_chats_app, Hc4, app_nil_r. by apply Forall_app.
  - intros ->. apply scheduled_idle_run. unfold auto_active.
    by rewrite Hon, Hdest.
  - intros chat_id' w2. apply scheduled_idle_run. subst w2.
    unfold auto_active, exec, auto_command. by rewrite Hon.
Qed.

End AutoMore.

(** ** The profile commands *)

Section ProfileFacts.
Context {rt : PyRuntime} (E : Env).

Lemma setprofil_command_run (fields_order : list pystr) (chat_id : Z)
    (arg0 arg1 : pystr) (rest : list pystr) (w : World) :
  let old := default PROFIL_DEFAUT (bd_profile (bot_data w)) in
  let value := join [SPACE] (arg1 :: rest) in
  let w' := exec (setprofil_command E fields_order chat_id (arg0 :: arg1 :: rest)) w in
  bd_profile (bot_data w') =
    match set_field (lower arg0) value old with
    | Some p => Some p
    | None => bd_profile (bot_data w)
    end /\
  bd_sent_jobs (bot_data w') = bd_sent_jobs (bot_data w) /\
  bd_auto_enabled (bot_data w') = bd_auto_enabled (bot_data w) /\
  bd_auto_chat_id (bot_data w') = bd_auto_chat_id (bot_data w) /\
  exists m ok, events_since w w' = [EvSend chat_id Status m ok].
Proof.
  intros old value w'. subst w'. unfold exec, setprofil_command.
  fold old value. destruct (set_field (lower arg0) value old) as [p|].
  - unfold bind, set_profile. rewrite send_message_run. cbn [snd].
    repeat split; try done. eexists _, _. by apply events_since_app.
  - rewrite send_message_run. cbn [snd].
    repeat split; try done. eexists _, _. by apply events_since_app.
Qed.

(** X14. [/setprofil] with fewer than two arguments, or with a field that
    is not one of the four, changes nothing and sends one message.  With a
    valid field, matched without regard to letter case, it stores the
    profile (the built-in one when none was stored) with that field set to
    the remaining arguments joined by single spaces and the other three
    fields as they were; it never touches the tracker or the auto-mode
    settings, and the new value is stored whether or not the confirmation
    is accepted. *)
Theorem setprofil_sets_one_field (fields_order : list pystr) (chat_id : Z)
    (args : list pystr) (w : World) :
  let old := default PROFIL_DEFAUT (bd_profile (bot_data w)) in
  let w' := exec (setprofil_command E fields_order chat_id args) w in
  same_settings_but_profile w w' /\
  (exists m ok, events_since w w' = [EvSend chat_id Status m ok]) /\
  ((length args < 2)%nat -> bot_data w' = bot_data w) /\
  (forall arg0 arg1 rest, args = arg0 :: arg1 :: rest ->
     let value := join [SPACE] (arg1 :: rest) in
     (lower arg0 = u "nom" ->
      bd_profile (bot_data w') =
        Some {| nom := value; competences := competences old;
                experience := experience old; portfolio := portfolio old |}) /\
     (lower arg0 = u "competences" ->
      bd_profile (bot_data w') =
        Some {| nom := nom old; competences := value;
                experience := experience old; portfolio := portfolio old |}) /\
     (lower arg0 = u "experience" ->
      bd_profile (bot_data w') =
        Some {| nom := nom old; competences := competences old;
                experience := value; portfolio := portfolio old |}) /\
     (lower arg0 = u "portfolio" ->
      bd_profile (bot_data w') =
        Some {| nom := nom old; competences := competences old;
                experience := experience old; portfolio := value |}) /\
     (lower arg0 ∉ [u "nom"; u "competences"; u "experience"; u "portfolio"] ->
      bot_data w' = bot_data w)).
Proof.
  intros old w'.
  destruct args as [|arg0 [|arg1 rest]].
  - subst w'. unfold exec, setprofil_command. rewrite send_message_run. cbn [snd].
    split; [by repeat split|]. split; [eexists _, _; by apply events_since_app|].
    split; [done|]. intros ? ? ? [=].
  - subst w'. unfold exec, setprofil_command. rewrite send_message_run. cbn [snd].
    split; [by repeat split|]. split; [eexists _, _; by apply events_since_app|].
    split; [done|]. intros ? ? ? [=].
  - destruct (setprofil_command_run fields_order chat_id arg0 arg1 rest w)
      as (Hp & Hs & He & Hc & Hev).
    fold old w' in Hp, Hs, He, Hc, Hev.
    split; [by repeat split|]. split; [exact Hev|].
    split; [simpl; lia|].
    intros a0 a1 r [= <- <- <-] value.
    fold value in Hp. unfold set_field in Hp.
    repeat split; intros Hfield.
    + by rewrite Hfield in Hp.
    + by rewrite Hfield in Hp.
    + by rewrite Hfield in Hp.
    + by rewrite Hfield in Hp.
    + repeat (rewrite bool_decide_eq_false_2 in Hp
                by (intros Heq; apply Hfield; rewrite Heq; set_solver)).
      destruct (bot_data w'), (bot_data w). simpl in *. congruence.
Qed.

End ProfileFacts.

Lemma set_field_same (F v1 v2 : pystr) (old p1 p2 : Profile) :
  set_field F v1 old = Some p1 -> set_field F v2 old = Some p2 ->
  set_field F v2 p1 = Some p2.
Proof.
  unfold set_field. repeat case_bool_decide; intros [= <-] [= <-]; done.
Qed.

Lemma set_field_swap (F1 F2 v1 v2 : pystr) (old p1 p2 : Profile) :
  F1 <> F2 ->
  set_field F1 v1 old = Some p1 -> set_field F2 v2 old = Some p2 ->
  exists q, set_field F2 v2 p1 = Some q /\ set_field F1 v1 p2 = Some q.
Proof.
  unfold set_field. intros Hne.
  repeat case_bool_decide; intros [= <-] [= <-]; subst; try done; eauto.
Qed.

Section ProfileCompose.
Context {rt : PyRuntime} (E : Env).

(** X15. Two [/setprofil] commands on the same field leave the profile
    that the second one alone would leave; on two different fields they
    leave the same profile in either order. *)
Theorem setprofil_composes (order : list pystr) (chat_id : Z)
    (f1 v1 f2 v2 : pystr) (w : World) :
  let old := default PROFIL_DEFAUT (bd_profile (bot_data w)) in
  let set1 := setprofil_command E order chat_id [f1; v1] in
  let set2 := setprofil_command E order chat_id [f2; v2] in
  is_Some (set_field (lower f1) v1 old) ->
  is_Some (set_field (lower f2) v2 old) ->
  (lower f1 = lower f2 ->
   bd_profile (bot_data (exec set2 (exec set1 w))) =
   bd_profile (bot_data (exec set2 w))) /\
  (lower f1 <> lower f2 ->
   bd_profile (bot_data (exec set2 (exec set1 w))) =
   bd_profile (bot_data (exec set1 (exec set2 w)))).
Proof.
  intros old set1 set2 [p1 H1] [p2 H2].
  destruct (setprofil_command_run E order chat_id f1 v1 [] w) as (Hw1 & _).
  destruct (setprofil_command_run E order chat_id f2 v2 [] w) as (Hw2 & _).
  destruct (setprofil_command_run E order chat_id f2 v2 [] (exec set1 w))
    as (Hw12 & _).
  destruct (setprofil_command_run E order chat_id f1 v1 [] (exec set2 w))
    as (Hw21 & _).
  fold old set1 set2 in Hw1, Hw2, Hw12, Hw21.
  cbn [join] in Hw1, Hw2, Hw12, Hw21.
  rewrite H1 in Hw1. rewrite H2 in Hw2.
  rewrite Hw1 in Hw12. rewrite Hw2 in Hw21.
  cbn [default from_option id] in Hw12, Hw21.
  split.
  - intros Heq. rewrite Heq in H1.
    rewrite (set_field_same _ _ _ _ _ _ H1 H2) in Hw12. congruence.
  - intros Hne.
    destruct (set_field_swap _ _ _ _ _ _ _ Hne H1 H2) as (q & Hq1 & Hq2).
    rewrite Hq1 in Hw12. rewrite Hq2 in Hw21. congruence.
Qed.

Lemma profile_text_ok (profil : Profile) : exists text, profile_text profil = Ok text.
Proof.
  unfold profile_text. rewrite !escape_md_str. cbn [rbind]. eauto.
Qed.

(** X16. [/profil] stores the built-in profile when none is stored and
    leaves a stored one as it is, so the profile the other commands read
    is the same before and after, as are the tracker and the auto-mode
    settings.  Its text is always built (the fields are strings), it sends
    one MarkdownV2 message and fails exactly when that is refused; a
    second [/profil] changes nothing. *)
Theorem profil_command_effects (chat_id : Z) (w : World) :
  let profil := default PROFIL_DEFAUT (bd_profile (bot_data w)) in
  let w' := exec (profil_command E chat_id) w in
  bd_profile (bot_data w') = Some profil /\
  same_settings_but_profile w w' /\
  (exists text ok,
     profile_text profil = Ok text /\
     events_since w w' = [EvSend chat_id Status (markdown text false) ok] /\
     outcome (profil_command E chat_id) w =
       (if ok then Ok tt else Raise TelegramError)) /\
  (forall chat_id',
     bot_data (exec (profil_command E chat_id') w') = bot_data w').
Proof.
  intros profil w'.
  assert (Hrun : forall c v,
    let p := default PROFIL_DEFAUT (bd_profile (bot_data v)) in
    bd_profile (bot_data (exec (profil_command E c) v)) = Some p /\
    same_settings_but_profile v (exec (profil_command E c) v) /\
    exists text ok,
      profile_text p = Ok text /\
      events_since v (exec (profil_command E c) v) =
        [EvSend c Status (markdown text false) ok] /\
      outcome (profil_command E c) v =
        (if ok then Ok tt else Raise TelegramError)).
  { intros c v p. unfold exec, outcome, profil_command. fold p.
    destruct (profile_text_ok p) as [text Htext]. rewrite Htext.
    destruct (bd_profile (bot_data v)) as [p0|] eqn:Hp;
      unfold bind, ret, set_profile, lift; rewrite send_message_run;
      cbn [fst snd]; (split; [simpl; by rewrite ?Hp|]);
      (split; [by repeat split|]);
      exists text, (telegram E (clock v) c (markdown text false));
      (split; [done|]); (split; [by apply events_since_app | done]). }
  destruct (Hrun chat_id w) as (Hp & Hsame & Hev). fold profil w' in Hp, Hsame, Hev.
  split; [done|]. split; [done|]. split; [done|].
  intros chat_id'. destruct (Hrun chat_id' w') as (Hp' & (Hs & He & Hc) & _).
  rewrite Hp in Hp'. cbn [default] in Hp'.
  destruct (bot_data (exec (profil_command E chat_id') w')), (bot_data w').
  simpl in *. congruence.
Qed.

End ProfileCompose.

(** ** Text that is already clean *)

Lemma sub_tags_no_LT (n : nat) (s : pystr) : LT ∉ s -> sub_tags n s = s.
Proof.
  revert s. induction n as [|n IH]; intros s Hno; [done|].
  destruct s as [|c t]; [done|]. simpl.
  destruct (N.eqb_spec c LT) as [-> | Hne]; [exfalso; apply Hno; left|].
  rewrite IH; [done|]. intros Hin. apply Hno. by right.
Qed.

Lemma sub_tags_length (n : nat) (s : pystr) :
  (length (sub_tags n s) <= length s)%nat.
Proof.
  revert s. induction n as [|n IH]; intros s; [done|].
  destruct s as [|c t]; [done|]. simpl.
  destruct (c =? LT); [|simpl; specialize (IH t); lia].
  destruct (tag_rest false t) as [rest|] eqn:Hrest; simpl.
  - apply tag_rest_length in Hrest. specialize (IH rest). lia.
  - specialize (IH t). lia.
Qed.

Lemma collapse_ws_fixed (in_run : bool) (s : pystr) :
  spaces_single s = true ->
  (in_run = true -> no_leading_space s = true) ->
  collapse_ws in_run s = s.
Proof.
  revert in_run. induction s as [|c t IH]; intros in_run Hs Hlead; [done|].
  simpl in Hs. apply andb_true_iff in Hs as [Hc Ht]. simpl.
  destruct (is_space c) eqn:Hsp.
  - simpl in Hc. apply andb_true_iff in Hc as [Heq Hnext].
    apply N.eqb_eq in Heq as ->.
    destruct in_run; [specialize (Hlead eq_refl); simpl in Hlead; congruence|].
    rewrite IH; [done | done |]. intros _. by destruct t.
  - rewrite IH; [done | done | done].
Qed.

Lemma collapse_ws_length (in_run : bool) (s : pystr) :
  (length (collapse_ws in_run s) <= length s)%nat.
Proof.
  revert in_run. induction s as [|c t IH]; intros in_run; [done|]. simpl.
  pose proof (IH true). pose proof (IH false).
  destruct (is_space c); [destruct in_run|]; simpl; lia.
Qed.

Lemma lstrip_fixed (s : pystr) : no_leading_space s = true -> lstrip s = s.
Proof. destruct s as [|c t]; [done|]. simpl. by intros ->%negb_true_iff. Qed.

Lemma rstrip_fixed (s : pystr) : no_trailing_space s = true -> rstrip s = s.
Proof.
  intros H. unfold rstrip. rewrite lstrip_fixed; [apply rev_involutive|].
  by rewrite <- no_trailing_space_rev, rev_involutive.
Qed.

Lemma strip_length (s : pystr) : (length (strip s) <= length s)%nat.
Proof.
  unfold strip. destruct (lstrip_suffix s) as [p Hp].
  destruct (rstrip_prefix (lstrip s)) as [q Hq].
  rewrite Hp at 2. rewrite Hq at 2. rewrite !length_app. lia.
Qed.

Lemma normalize_ws_fixed (s : pystr) :
  spaces_single s = true -> no_leading_space s = true ->
  no_trailing_space s = true -> normalize_ws s = s.
Proof.
  intros Hs Hl Ht. unfold normalize_ws, strip.
  rewrite collapse_ws_fixed by done.
  rewrite lstrip_fixed by done. by apply rstrip_fixed.
Qed.

(** X17. A text without [<] and without [&], with single spaces only and
    none at either end, comes out of [clean_html] as it went in; the
    whitespace clean-up is idempotent; and without an ampersand
    [clean_html] never returns a longer text than it was given. *)
Theorem clean_html_fixed_point {rt : PyRuntime} (s : pystr) :
  (LT ∉ s -> AMP ∉ s -> spaces_single s = true ->
   no_leading_space s = true -> no_trailing_space s = true ->
   clean_html s = s) /\
  normalize_ws (normalize_ws s) = normalize_ws s /\
  (AMP ∉ s -> (length (clean_html s) <= length s)%nat).
Proof.
  assert (Hamp : forall t : pystr, AMP ∉ t -> unescape t = t).
  { intros t Hno. unfold unescape.
    destruct (existsb (N.eqb AMP) t) eqn:Hex; [|done].
    apply existsb_exists in Hex as (c & Hin & Heq%N.eqb_eq). subst c.
    exfalso. by apply Hno, list_elem_of_In. }
  split; [|split].
  - intros Hlt Hno Hs Hl Ht. unfold clean_html, strip_tags.
    rewrite sub_tags_no_LT by done. rewrite Hamp by done.
    by apply normalize_ws_fixed.
  - apply normalize_ws_fixed; unfold normalize_ws.
    + apply strip_single, collapse_ws_single.
    + apply strip_head.
    + apply strip_last.
  - intros Hno. unfold clean_html.
    assert (Hno' : AMP ∉ strip_tags s).
    { unfold strip_tags. intros [Hin | Heq]%sub_tags_chars; done. }
    rewrite Hamp by done.
    pose proof (strip_length (collapse_ws false (strip_tags s))).
    pose proof (collapse_ws_length false (strip_tags s)).
    pose proof (sub_tags_length (length s) s). unfold strip_tags in *. lia.
Qed.

(** A plain sentence. *)
Lemma clean_html_fixed_point_witness :
  (LT ∉ u "Build things fast") /\ (AMP ∉ u "Build things fast") /\
  @clean_html example_runtime (u "Build things fast") = u "Build things fast".
Proof.
  assert (Hlt : LT ∉ u "Build things fast").
  { apply (@bool_decide_unpack _ (not_dec (list_elem_of_dec _ _))).
    vm_compute. exact I. }
  assert (Hamp : AMP ∉ u "Build things fast").
  { apply (@bool_decide_unpack _ (not_dec (list_elem_of_dec _ _))).
    vm_compute. exact I. }
  split; [exact Hlt|]. split; [exact Hamp|].
  destruct (@clean_html_fixed_point example_runtime (u "Build things fast"))
    as (Hfix & _).
  apply Hfix; [exact Hlt | exact Hamp | reflexivity | reflexivity | reflexivity].
Defined.

(** ** More on the keyword filter *)

(** X18. Relevance only grows with the text: a search text that holds a
    relevant text, with anything before and after it, is relevant; and the
    empty text is not relevant. *)
Theorem is_relevant_monotone (text pre post : pystr) :
  is_relevant [] = false /\
  (is_relevant text = true -> is_relevant (pre ++ text ++ post) = true).
Proof.
  split; [done|]. rewrite !is_relevant_spec.
  intros (kw & Hkw & (a & b & ->)). exists kw. split; [done|].
  exists (pre ++ a), (b ++ post). by rewrite <- !app_assoc.
Qed.

Lemma is_relevant_monotone_witness :
  is_relevant (u "react") = true /\
  is_relevant (u "senior " ++ u "react" ++ u " wizard") = true.
Proof.
  split; [reflexivity|].
  apply (is_relevant_monotone (u "react") (u "senior ") (u " wizard")).
  reflexivity.
Defined.

(** ** The draft generator, when the service answers *)

Section GeneratorMore.
Context {rt : PyRuntime} (E : Env).

(** X19. When the service answers with status 200 and a JSON object whose
    ["choices"] is a list that starts with an object holding a ["message"]
    object with a ["content"], [generate_candidature] returns that content
    as it is, of whatever JSON type, after exactly one request, and leaves
    [bot_data] alone; further choices and further keys are not read. *)
Theorem generation_returns_content (job : Job) (profil : Profile) (w : World)
    (fields first message : list (pystr * json)) (others : list json)
    (content : json) :
  let prompt := user_prompt job profil in
  let reply := Reply 200 (Some (JObj fields)) in
  http_post E (clock w) prompt = reply ->
  dict_lookup (u "choices") fields = Some (JArr (JObj first :: others)) ->
  dict_lookup (u "message") first = Some (JObj message) ->
  dict_lookup (u "content") message = Some content ->
  generate_candidature E job profil w =
    (Ok content, log_event (EvPost job prompt reply) w).
Proof.
  intros prompt reply Hreply Hchoices Hmessage Hcontent.
  rewrite generate_candidature_run. fold prompt. rewrite Hreply.
  unfold reply, candidature_of_reply, completion_content, getitem_str.
  cbn [Z.eqb Pos.eqb negb]. rewrite Hchoices. cbn [rbind getitem_0].
  rewrite Hmessage. cbn [rbind]. by rewrite Hcontent.
Qed.

End GeneratorMore.

(** The answer of [quiet_env]. *)
Lemma generation_returns_content_witness :
  let prompt := @user_prompt example_runtime (react_job 1) PROFIL_DEFAUT in
  http_post quiet_env 0 prompt = Reply 200 (Some (completion (u "Hello"))) /\
  outcome (@generate_candidature example_runtime quiet_env (react_job 1) PROFIL_DEFAUT)
    fresh_world = Ok (JStr (u "Hello")).
Proof.
  intros prompt. split; [reflexivity|]. unfold outcome.
  rewrite (@generation_returns_content example_runtime quiet_env (react_job 1)
             PROFIL_DEFAUT fresh_world
             [(u "choices",
               JArr [JObj [(u "message", JObj [(u "content", JStr (u "Hello"))])]])]
             [(u "message", JObj [(u "content", JStr (u "Hello"))])]
             [(u "content", JStr (u "Hello"))] [] (JStr (u "Hello")));
    reflexivity.
Defined.


(** ** A notice that is refused *)

Section Refused.
Context {rt : PyRuntime} (E : Env).

(** X20. When the searching notice of [/missions] is refused the command
    stops there: no source is called and [bot_data] is as it was.  When
    the notice that announces the new postings is refused, on demand or on
    schedule, the path stops before the loop: no draft is requested, no
    posting is sent and the tracker is as it was. *)
Theorem refused_notice_stops_the_command (chat_id : Z) (w : World) :
  (telegram E (clock w) chat_id (plain MSG_SEARCHING) = false ->
   missions_command E chat_id w =
     (Raise TelegramError,
      log_event (EvSend chat_id Status (plain MSG_SEARCHING) false) w)) /\
  (forall profil jobs,
     let new_jobs := new_jobs_of (tracker w) jobs in
     let notice := plain (msg_found (length new_jobs) (length (take 5 new_jobs))) in
     new_jobs <> [] ->
     telegram E (clock w) chat_id notice = false ->
     missions_dispatch E chat_id profil jobs w =
       (Raise TelegramError, log_event (EvSend chat_id Status notice false) w)) /\
  (forall profil jobs,
     let new_jobs := new_jobs_of (tracker w) jobs in
     let notice := markdown (msg_auto_found (length new_jobs)) false in
     new_jobs <> [] ->
     telegram E (clock w) chat_id notice = false ->
     scheduled_dispatch E chat_id profil jobs w =
       (Raise TelegramError, log_event (EvSend chat_id Status notice false) w)).
Proof.
  split; [|split].
  - intros Hno. unfold missions_command.
    pose proof (send_message_run E chat_id Status (plain MSG_SEARCHING) w) as Hsend.
    rewrite Hno in Hsend. by rewrite (bind_raise _ _ _ _ _ Hsend).
  - intros profil jobs new_jobs notice Hnew Hno. unfold missions_dispatch.
    fold new_jobs. destruct new_jobs as [|j0 rest] eqn:Heq; [done|].
    pose proof (send_message_run E chat_id Status notice w) as Hsend.
    rewrite Hno in Hsend. by rewrite (bind_raise _ _ _ _ _ Hsend).
  - intros profil jobs new_jobs notice Hnew Hno. unfold scheduled_dispatch.
    fold new_jobs. destruct new_jobs as [|j0 rest] eqn:Heq; [done|].
    pose proof (send_message_run E chat_id Status notice w) as Hsend.
    rewrite Hno in Hsend. by rewrite (bind_raise _ _ _ _ _ Hsend).
Qed.

End Refused.

(** A chat that refuses every message. *)
Lemma refused_notice_stops_the_command_witness :
  telegram deaf_env 0 1 (plain MSG_SEARCHING) = false /\
  @missions_command example_runtime deaf_env 1 fresh_world =
    (Raise TelegramError,
     log_event (EvSend 1 Status (plain MSG_SEARCHING) false) fresh_world).
Proof.
  split; [reflexivity|].
  destruct (@refused_notice_stops_the_command example_runtime deaf_env 1 fresh_world)
    as (Hfirst & _).
  apply Hfirst. reflexivity.
Defined.


(** ** Examples for the hypotheses above *)

(** Twelve new postings and a chat that accepts: the first five are marked
    and the other seven stay for the next invocations. *)
Lemma accepted_batch_is_marked_witness :
  let run := @missions_dispatch example_runtime quiet_env 1 PROFIL_DEFAUT twelve_jobs in
  chat_accepts_all quiet_env /\
  outcome run fresh_world = Ok tt /\
  new_jobs_of (tracker (exec run fresh_world)) twelve_jobs = drop 5 twelve_jobs.
Proof.
  intros run.
  assert (accepts : chat_accepts_all quiet_env) by (intros t c m; reflexivity).
  assert (Hnew : new_jobs_of (tracker fresh_world) twelve_jobs = twelve_jobs)
    by (vm_compute; reflexivity).
  assert (Hnodup : NoDup (job_id <$> twelve_jobs)).
  { apply (@bool_decide_unpack _ (NoDup_dec _)). vm_compute. exact I. }
  pose proof (@accepted_batch_is_marked example_runtime quiet_env 1 PROFIL_DEFAUT
                twelve_jobs fresh_world accepts) as H.
  cbv zeta in H. rewrite Hnew in H. fold run in H.
  destruct H as (Hok & _ & _ & Hdrop).
  split; [exact accepts|]. split; [exact Hok|]. exact (Hdrop Hnodup).
Defined.

(** Arbeitnow lists the same posting at every call. *)
Lemma second_run_finds_nothing_witness :
  let jobs := @fetched_jobs example_runtime half_env 0 in
  let run := @missions_command example_runtime half_env 1 in
  chat_accepts_all half_env /\
  length (new_jobs_of (tracker fresh_world) jobs) = 1%nat /\
  outcome run fresh_world = Ok tt /\
  tracker (exec run (exec run fresh_world)) = tracker (exec run fresh_world).
Proof.
  intros jobs run.
  assert (accepts : chat_accepts_all half_env) by (intros t c m; reflexivity).
  assert (Hstable : forall t, @fetched_jobs example_runtime half_env t = jobs)
    by (intros t; reflexivity).
  assert (Hlen : length (new_jobs_of (tracker fresh_world) jobs) = 1%nat)
    by (vm_compute; reflexivity).
  assert (Hle : (length (new_jobs_of (tracker fresh_world) jobs) <= 5)%nat)
    by (rewrite Hlen; lia).
  destruct (@second_run_finds_nothing example_runtime half_env 1 jobs fresh_world
              accepts Hstable Hle) as (Hok & _ & _ & _ & Hsame).
  split; [exact accepts|]. split; [exact Hlen|]. split; [exact Hok|]. exact Hsame.
Defined.

(** Auto-mode is switched on from chat 111. *)
Lemma scheduled_follows_toggle_witness :
  let w1 := exec (@auto_command quiet_env 111) fresh_world in
  default false (bd_auto_enabled (bot_data fresh_world)) = false /\
  auto_active w1 = true /\
  Forall (eq 111%Z)
    (send_chats (events_since w1
       (exec (@scheduled_prospection example_runtime quiet_env) w1))).
Proof.
  intros w1. split; [reflexivity|].
  destruct (@scheduled_follows_toggle example_runtime quiet_env 111 fresh_world
              eq_refl) as (Hon & _).
  apply Hon. lia.
Defined.

(** A name and a portfolio, set in either order. *)
Lemma setprofil_composes_witness :
  let set1 := @setprofil_command example_runtime quiet_env [] 1
                [u "nom"; u "Ada"] in
  let set2 := @setprofil_command example_runtime quiet_env [] 1
                [u "Portfolio"; u "https://ada.example"] in
  @lower example_runtime (u "nom") <> @lower example_runtime (u "Portfolio") /\
  bd_profile (bot_data (exec set2 (exec set1 fresh_world))) =
  bd_profile (bot_data (exec set1 (exec set2 fresh_world))).
Proof.
  intros set1 set2.
  assert (Hne : @lower example_runtime (u "nom") <>
                @lower example_runtime (u "Portfolio")).
  { intros Heq. vm_compute in Heq. discriminate Heq. }
  split; [exact Hne|].
  assert (H1 : is_Some (set_field (@lower example_runtime (u "nom")) (u "Ada")
                          (default PROFIL_DEFAUT (bd_profile (bot_data fresh_world))))).
  { apply (@bool_decide_unpack _ (is_Some_dec _)). vm_compute. exact I. }
  assert (H2 : is_Some (set_field (@lower example_runtime (u "Portfolio"))
                          (u "https://ada.example")
                          (default PROFIL_DEFAUT (bd_profile (bot_data fresh_world))))).
  { apply (@bool_decide_unpack _ (is_Some_dec _)). vm_compute. exact I. }
  destruct (@setprofil_composes example_runtime quiet_env [] 1
              (u "nom") (u "Ada") (u "Portfolio") (u "https://ada.example")
              fresh_world H1 H2) as (_ & Hswap).
  exact (Hswap Hne).
Defined.
